(** * Meeting-minutes-to-task converter: extraction, review and task store

    A shallow embedding of the server routes ([/api/extract-tasks],
    [/api/tasks], [/api/tasks/:id]), of the two [IStorage] implementations
    ([MemStorage], [DatabaseStorage]), of the zod schemas of
    [shared/schema.ts] and of the review modal's working set, followed by the
    properties proved about them. *)

From Stdlib Require Import ZArith List String Ascii Bool Lia Floats Permutation.
Import ListNotations.

Set Warnings "-register-all".

Local Open Scope string_scope.
Local Open Scope Z_scope.

(* ===================================================================== *)
(** ** Exceptions *)
(* ===================================================================== *)

(** A JavaScript computation either returns a value or throws.  Every
    [catch] of the modelled code discards or only logs the exception, so the
    thrown value itself is not represented. *)
Inductive outcome (A : Type) : Type :=
| Returned (a : A)
| Thrown.
Arguments Returned {A} a.
Arguments Thrown {A}.

Definition obind {A B : Type} (c : outcome A) (k : A -> outcome B) : outcome B :=
  match c with
  | Returned a => k a
  | Thrown => Thrown
  end.

Declare Scope outcome_scope.
Delimit Scope outcome_scope with outcome.
Notation "x <- c ;; k" := (obind c (fun x => k))
  (at level 61, c at next level, right associativity) : outcome_scope.

(* ===================================================================== *)
(** ** JSON values *)
(* ===================================================================== *)

(** What [JSON.parse] and the body parser hand to the routes.  A number is
    an IEEE double, as in JavaScript.  An object is the list of its own
    properties; [undefined] is the absence of a value, [option value] with
    [None]. *)
Inductive value : Type :=
| JNull
| JBool (b : bool)
| JNum (n : float)
| JStr (s : string)
| JArr (items : list value)
| JObj (fields : list (string * value)).

Fixpoint lookup_field (k : string) (fields : list (string * value)) : option value :=
  match fields with
  | [] => None
  | (k', v) :: rest => if String.eqb k k' then Some v else lookup_field k rest
  end.

(** [v.k] for the property names the routes read ([transcript], [tasks],
    [task_description], ...): none of them is a built-in property of a
    string, a number, a boolean or an array, so there the read gives
    [undefined]; on [null] it throws a TypeError. *)
Definition prop (v : value) (k : string) : outcome (option value) :=
  match v with
  | JNull => Thrown
  | JObj fields => Returned (lookup_field k fields)
  | _ => Returned None
  end.

(** JavaScript truthiness of a JSON value or [undefined]: [+0], [-0] and
    [NaN] are the falsy numbers (JSON has no [NaN], the test is kept for
    completeness). *)
Definition zero_or_nan (n : float) : bool :=
  (PrimFloat.eqb n 0%float || negb (PrimFloat.eqb n n))%bool.

Definition truthy (v : option value) : bool :=
  match v with
  | None => false
  | Some JNull => false
  | Some (JBool b) => b
  | Some (JNum n) => negb (zero_or_nan n)
  | Some (JStr s) => negb (String.eqb s "")
  | Some (JArr _) => true
  | Some (JObj _) => true
  end.

(** [typeof v === "string"]. *)
Definition typeof_string (v : option value) : bool :=
  match v with
  | Some (JStr _) => true
  | _ => false
  end.

(** The elements of a value known to be an array. *)
Definition array_items (v : option value) : list value :=
  match v with
  | Some (JArr items) => items
  | _ => []
  end.

(** The characters of a value known to be a string. *)
Definition string_content (v : option value) : string :=
  match v with
  | Some (JStr s) => s
  | _ => ""
  end.

(** [Array.isArray(v)]. *)
Definition isArray (v : option value) : bool :=
  match v with
  | Some (JArr _) => true
  | _ => false
  end.

(* ===================================================================== *)
(** ** Dates *)
(* ===================================================================== *)

(** A JavaScript [Date]: a time value in milliseconds since the epoch, or
    the invalid date (time value [NaN]).  Time values are not clipped to the
    range of 8.64e15 milliseconds around the epoch that ECMAScript allows:
    the readings of a clock are far inside it. *)
Inductive Date : Type :=
| DateOf (tv : Z)
| InvalidDate.

(** [isNaN(d.getTime())]. *)
Definition isNaN_getTime (d : Date) : bool :=
  match d with
  | DateOf _ => false
  | InvalidDate => true
  end.

Definition msPerDay : Z := 86400000.

Definition Day (t : Z) : Z := t / msPerDay.
Definition TimeWithinDay (t : Z) : Z := t mod msPerDay.
Definition MakeDate (day time : Z) : Z := day * msPerDay + time.

(** Year, month (1..12) and day of the month (1..31) of a day number in the
    proleptic Gregorian calendar, by eras of 400 years that start on March
    1st. *)
Definition civil_from_days (day : Z) : Z * Z * Z :=
  let z := day + 719468 in
  let era := z / 146097 in
  let doe := z mod 146097 in
  let yoe := (doe - doe / 1460 + doe / 36524 - doe / 146096) / 365 in
  let doy := doe - (365 * yoe + yoe / 4 - yoe / 100) in
  let mp := (5 * doy + 2) / 153 in
  let d := doy - (153 * mp + 2) / 5 + 1 in
  let m := if mp <? 10 then mp + 3 else mp - 9 in
  let y := yoe + era * 400 + (if m <=? 2 then 1 else 0) in
  (y, m, d).

Definition digit (d : Z) : ascii := ascii_of_nat (48 + Z.to_nat d).

(** The [width] low decimal digits of [n], zero-padded. *)
Fixpoint digits (width : nat) (n : Z) : string :=
  match width with
  | O => EmptyString
  | S w => digits w (n / 10) ++ String (digit (n mod 10)) EmptyString
  end.

(** The year of an ISO string: four digits from 0 to 9999, otherwise a sign
    and six digits. *)
Definition iso_year (y : Z) : string :=
  if (0 <=? y) && (y <=? 9999) then digits 4 y
  else if y <? 0 then "-" ++ digits 6 (- y)
  else "+" ++ digits 6 y.

Definition iso_string (t : Z) : string :=
  let '(y, m, d) := civil_from_days (Day t) in
  let ms := TimeWithinDay t in
  iso_year y ++ "-" ++ digits 2 m ++ "-" ++ digits 2 d ++ "T"
  ++ digits 2 (ms / 3600000) ++ ":" ++ digits 2 (ms / 60000 mod 60) ++ ":"
  ++ digits 2 (ms / 1000 mod 60) ++ "." ++ digits 3 (ms mod 1000) ++ "Z".

(** [d.toISOString()]: always UTC; a RangeError on the invalid date. *)
Definition toISOString (d : Date) : outcome string :=
  match d with
  | DateOf t => Returned (iso_string t)
  | InvalidDate => Thrown
  end.

(* ===================================================================== *)
(** ** The runtime the server runs on *)
(* ===================================================================== *)

(** What the code takes from its platform and from the network, and which
    the repository does not define:
    - [clock n] is the time value the [n]-th reading of the system clock
      returns ([new Date()], and the database's [now()]);
    - [LocalTZA t isUTC] is the offset of the server's time zone, as in
      ECMAScript;
    - [Date_new v] is [new Date(v)] on a JSON value or [undefined]; how a
      string is read as a date is left to the JavaScript engine;
    - [JSON_parse] is [JSON.parse], which throws on malformed text;
    - [chat_completions_create system user] is the language model's answer
      [choices[0].message.content] ([None] for [null]) to a request with
      these two messages; any failure of the call is a throw;
    - [pg_refuses_text s] and [pg_refuses_timestamp d] tell whether
      PostgreSQL refuses the text [s] as the value of a [text] column (it
      does when [s] holds a NUL character) and the date [d] as the value of
      a [timestamp] column: the statement that carries the value fails, and
      the query throws. *)
Class Runtime : Type := {
  clock : nat -> Z;
  LocalTZA : Z -> bool -> Z;
  Date_new : option value -> Date;
  JSON_parse : string -> outcome value;
  chat_completions_create : string -> string -> outcome (option string);
  pg_refuses_text : string -> bool;
  pg_refuses_timestamp : Date -> bool
}.

Section DateArithmetic.
Context {rt : Runtime}.

Definition LocalTime (t : Z) : Z := t + LocalTZA t true.
Definition UTC (t : Z) : Z := t - LocalTZA t false.

(** [d.setDate(d.getDate() + n)] on a valid date of time value [t].  With
    [tl] the local time, ECMAScript's [MakeDay] applied to the year and
    month of [tl] and to its day of the month plus [n] is [Day tl + n]: the
    day number of the first of that month is [Day tl - (getDate - 1)]. *)
Definition setDate_getDate_plus (n : Z) (t : Z) : Z :=
  let tl := LocalTime t in
  UTC (MakeDate (Day tl + n) (TimeWithinDay tl)).

End DateArithmetic.

(* ===================================================================== *)
(** ** shared/schema.ts *)
(* ===================================================================== *)

(** A row of [users]; the routes read [id] and [timezone]. *)
Module User.
Record t : Type := {
  id : Z;
  username : string;
  timezone : string
}.
End User.

(** A row of [tasks] ([typeof tasks.$inferSelect]).  [priority] and
    [completed] are [None] when the JavaScript object carries [undefined]
    there, which only [MemStorage.createTask] can produce; [createdAt] is
    [None] for [null]. *)
Module Task.
Record t : Type := {
  id : Z;
  userId : Z;
  description : string;
  assignee : string;
  dueDateUtc : Date;
  dueDateOriginal : string;
  priority : option string;
  completed : option bool;
  createdAt : option Date
}.
End Task.

(** [z.infer<typeof insertTaskSchema>]: the columns but [id] and
    [createdAt]; the two columns with a default are optional. *)
Module InsertTask.
Record t : Type := {
  userId : Z;
  description : string;
  assignee : string;
  dueDateUtc : Date;
  dueDateOriginal : string;
  priority : option string;
  completed : option bool
}.
End InsertTask.

(** [z.infer<typeof updateTaskSchema>]: every field optional, no [id], no
    [userId], no [createdAt].  [None] is an absent key. *)
Module UpdateTask.
Record t : Type := {
  description : option string;
  assignee : option string;
  dueDateUtc : option Date;
  dueDateOriginal : option string;
  priority : option string;
  completed : option bool
}.
End UpdateTask.

Inductive Priority : Type := P1 | P2 | P3 | P4.

Definition Priority_to_string (p : Priority) : string :=
  match p with
  | P1 => "P1"
  | P2 => "P2"
  | P3 => "P3"
  | P4 => "P4"
  end.

(** [z.infer<typeof extractedTaskSchema>]. *)
Module ExtractedTask.
Record t : Type := {
  task_description : string;
  assignee : string;
  due_date : string;
  priority : Priority
}.
End ExtractedTask.

(** *** zod *)

(** A zod schema, as [parse] uses it: from the input (a JSON value or
    [undefined]) to the parsed output, or a thrown ZodError. *)
Definition schema (A : Type) : Type := option value -> outcome A.

Definition z_string : schema string := fun v =>
  match v with
  | Some (JStr s) => Returned s
  | _ => Thrown
  end.

Definition z_boolean : schema bool := fun v =>
  match v with
  | Some (JBool b) => Returned b
  | _ => Thrown
  end.

(** [z.enum(["P1", "P2", "P3", "P4"])]. *)
Definition z_enum_priority : schema Priority := fun v =>
  match v with
  | Some (JStr s) =>
      if String.eqb s "P1" then Returned P1
      else if String.eqb s "P2" then Returned P2
      else if String.eqb s "P3" then Returned P3
      else if String.eqb s "P4" then Returned P4
      else Thrown
  | _ => Thrown
  end.

(** [z.date()] on a value that came out of JSON: no JSON value is a [Date]
    instance. *)
Definition z_date_of_json : schema Date := fun _ => Thrown.

(** [z.date()] on a [Date] instance: the invalid date is refused. *)
Definition z_date (d : Date) : outcome Date :=
  match d with
  | DateOf t => Returned (DateOf t)
  | InvalidDate => Thrown
  end.

(** [s.default(d)]: the default replaces [undefined] only. *)
Definition z_default {A : Type} (s : schema A) (d : A) : schema A := fun v =>
  match v with
  | None => Returned d
  | Some _ => s v
  end.

(** [s.optional()]. *)
Definition z_optional {A : Type} (s : schema A) : schema (option A) := fun v =>
  match v with
  | None => Returned None
  | Some _ => obind (s v) (fun a => Returned (Some a))
  end.

(** The properties [z.object] reads: its input must be a plain object (not
    [null], not an array, not a primitive); unknown keys are stripped. *)
Definition z_object_fields (v : option value) : outcome (list (string * value)) :=
  match v with
  | Some (JObj fields) => Returned fields
  | _ => Thrown
  end.

Local Open Scope outcome_scope.

(** [extractedTaskSchema.parse]. *)
Definition extractedTaskSchema_parse (v : value) : outcome ExtractedTask.t :=
  fields <- z_object_fields (Some v) ;;
  d <- z_string (lookup_field "task_description" fields) ;;
  a <- z_string (lookup_field "assignee" fields) ;;
  dd <- z_string (lookup_field "due_date" fields) ;;
  p <- z_default z_enum_priority P3 (lookup_field "priority" fields) ;;
  Returned {| ExtractedTask.task_description := d;
              ExtractedTask.assignee := a;
              ExtractedTask.due_date := dd;
              ExtractedTask.priority := p |}.

(** [insertTaskSchema.parse] on the object literal the bulk-create route
    builds, field by field: [userId] is the session user's id, [dueDateUtc]
    a [Date], the others whatever the request carried.  The text columns
    take any string (also [priority]: the column is [text], the schema has
    no enum); the columns with a default are optional. *)
Definition insertTaskSchema_parse (userId : Z) (description assignee : option value)
  (dueDateUtc : Date) (dueDateOriginal priority completed : option value)
  : outcome InsertTask.t :=
  d <- z_string description ;;
  a <- z_string assignee ;;
  due <- z_date dueDateUtc ;;
  orig <- z_string dueDateOriginal ;;
  p <- z_optional z_string priority ;;
  c <- z_optional z_boolean completed ;;
  Returned {| InsertTask.userId := userId;
              InsertTask.description := d;
              InsertTask.assignee := a;
              InsertTask.dueDateUtc := due;
              InsertTask.dueDateOriginal := orig;
              InsertTask.priority := p;
              InsertTask.completed := c |}.

(** [updateTaskSchema.parse] on a request body. *)
Definition updateTaskSchema_parse (body : value) : outcome UpdateTask.t :=
  fields <- z_object_fields (Some body) ;;
  d <- z_optional z_string (lookup_field "description" fields) ;;
  a <- z_optional z_string (lookup_field "assignee" fields) ;;
  due <- z_optional z_date_of_json (lookup_field "dueDateUtc" fields) ;;
  orig <- z_optional z_string (lookup_field "dueDateOriginal" fields) ;;
  p <- z_optional z_string (lookup_field "priority" fields) ;;
  c <- z_optional z_boolean (lookup_field "completed" fields) ;;
  Returned {| UpdateTask.description := d;
              UpdateTask.assignee := a;
              UpdateTask.dueDateUtc := due;
              UpdateTask.dueDateOriginal := orig;
              UpdateTask.priority := p;
              UpdateTask.completed := c |}.

Local Close Scope outcome_scope.

(* ===================================================================== *)
(** ** Storage *)
(* ===================================================================== *)

(** The task management part of [interface IStorage], over a storage state
    [S]: every method takes the state and gives the state back.
    [createTask] also takes the clock reading it stamps the row with.  The
    two methods that hand values to the storage may throw. *)
Class IStorage (S : Type) : Type := {
  getTasksByUserId : Z -> S -> list Task.t;
  createTask : InsertTask.t -> Z -> S -> outcome Task.t * S;
  updateTask : Z -> Z -> UpdateTask.t -> S -> outcome (option Task.t) * S;
  deleteTask : Z -> Z -> S -> bool * S
}.

Definition override {A : Type} (old : A) (new : option A) : A :=
  match new with
  | Some x => x
  | None => old
  end.

Definition override_opt {A : Type} (old new : option A) : option A :=
  match new with
  | Some x => Some x
  | None => old
  end.

(** The task with the keys that [updates] carries replaced: the object
    spread [{...task, ...updates}], and the [SET] clause of the SQL
    [UPDATE]. *)
Definition apply_updates (task : Task.t) (updates : UpdateTask.t) : Task.t :=
  {| Task.id := Task.id task;
     Task.userId := Task.userId task;
     Task.description := override (Task.description task) (UpdateTask.description updates);
     Task.assignee := override (Task.assignee task) (UpdateTask.assignee updates);
     Task.dueDateUtc := override (Task.dueDateUtc task) (UpdateTask.dueDateUtc updates);
     Task.dueDateOriginal :=
       override (Task.dueDateOriginal task) (UpdateTask.dueDateOriginal updates);
     Task.priority := override_opt (Task.priority task) (UpdateTask.priority updates);
     Task.completed := override_opt (Task.completed task) (UpdateTask.completed updates);
     Task.createdAt := Task.createdAt task |}.

(** A JavaScript [Map] with number keys: the entries in insertion order. *)
Module JsMap.
Section WithValues.
Context {V : Type}.

Definition t : Type := list (Z * V).

Fixpoint get (k : Z) (m : t) : option V :=
  match m with
  | [] => None
  | (k', v) :: rest => if k =? k' then Some v else get k rest
  end.

(** [m.set(k, v)]: an existing key keeps its place, a new one goes last. *)
Fixpoint set (k : Z) (v : V) (m : t) : t :=
  match m with
  | [] => [(k, v)]
  | (k', v') :: rest => if k =? k' then (k, v) :: rest else (k', v') :: set k v rest
  end.

Fixpoint remove (k : Z) (m : t) : t :=
  match m with
  | [] => []
  | (k', v') :: rest => if k =? k' then rest else (k', v') :: remove k rest
  end.

(** [m.delete(k)]: whether an entry was removed, and the map without it. *)
Definition delete (k : Z) (m : t) : bool * t :=
  match get k m with
  | Some _ => (true, remove k m)
  | None => (false, m)
  end.

Definition values (m : t) : list V := map snd m.
Definition keys (m : t) : list Z := map fst m.

End WithValues.
Arguments t V : clear implicits.
End JsMap.

(** [class MemStorage] (its tasks; users and sessions are not modelled). *)
Module MemStorage.

Record t : Type := {
  tasks : JsMap.t Task.t;
  currentTaskId : Z
}.

(** The constructor. *)
Definition new : t := {| tasks := []; currentTaskId := 1 |}.

Definition getTasksByUserId (userId : Z) (this : t) : list Task.t :=
  filter (fun task => Task.userId task =? userId) (JsMap.values (tasks this)).

Definition createTask (insertTask : InsertTask.t) (now : Z) (this : t) : Task.t * t :=
  let id := currentTaskId this in
  let task :=
    {| Task.id := id;
       Task.userId := InsertTask.userId insertTask;
       Task.description := InsertTask.description insertTask;
       Task.assignee := InsertTask.assignee insertTask;
       Task.dueDateUtc := InsertTask.dueDateUtc insertTask;
       Task.dueDateOriginal := InsertTask.dueDateOriginal insertTask;
       Task.priority := InsertTask.priority insertTask;
       Task.completed := InsertTask.completed insertTask;
       Task.createdAt := Some (DateOf now) |} in
  (task, {| tasks := JsMap.set id task (tasks this); currentTaskId := id + 1 |}).

Definition updateTask (id userId : Z) (updates : UpdateTask.t) (this : t)
  : option Task.t * t :=
  match JsMap.get id (tasks this) with
  | None => (None, this)
  | Some task =>
      if negb (Task.userId task =? userId) then (None, this)
      else
        let updatedTask := apply_updates task updates in
        (Some updatedTask,
         {| tasks := JsMap.set id updatedTask (tasks this);
            currentTaskId := currentTaskId this |})
  end.

Definition deleteTask (id userId : Z) (this : t) : bool * t :=
  match JsMap.get id (tasks this) with
  | None => (false, this)
  | Some task =>
      if negb (Task.userId task =? userId) then (false, this)
      else
        let '(removed, tasks') := JsMap.delete id (tasks this) in
        (removed, {| tasks := tasks'; currentTaskId := currentTaskId this |})
  end.

End MemStorage.

(** No method of [MemStorage] throws. *)
#[export] Instance MemStorage_IStorage : IStorage MemStorage.t := {
  getTasksByUserId := MemStorage.getTasksByUserId;
  createTask := fun insertTask now this =>
    let '(task, this') := MemStorage.createTask insertTask now this in
    (Returned task, this');
  updateTask := fun id userId updates this =>
    let '(task, this') := MemStorage.updateTask id userId updates this in
    (Returned task, this');
  deleteTask := MemStorage.deleteTask
}.

(** [class DatabaseStorage]: the [tasks] table as the list of its rows, in
    the order a sequential scan reads them, and the sequence behind the
    [serial] primary key.  Each query is modelled by the SQL statement the
    query builder issues.  A statement that carries a value PostgreSQL
    refuses fails without effect, and the query throws.  The ids in the
    [WHERE] clauses are ids the [integer] column can hold, as every stored
    id is. *)
Module DatabaseStorage.

Record t : Type := {
  tasks : list Task.t;
  tasks_id_seq : Z
}.

Definition empty : t := {| tasks := []; tasks_id_seq := 1 |}.

(** [UPDATE tasks SET ... WHERE id = $id RETURNING *]: the table after the
    statement, and the rows it updated.  The new version of an updated row
    is written after the rows the statement leaves alone. *)
Definition update_where_id (id : Z) (updates : UpdateTask.t) (rows : list Task.t)
  : list Task.t * list Task.t :=
  let returning :=
    map (fun row => apply_updates row updates)
        (filter (fun row => Task.id row =? id) rows) in
  ((filter (fun row => negb (Task.id row =? id)) rows ++ returning)%list, returning).

(** [DELETE FROM tasks WHERE id = $id RETURNING *]. *)
Definition delete_where_id (id : Z) (rows : list Task.t) : list Task.t * list Task.t :=
  (filter (fun row => negb (Task.id row =? id)) rows,
   filter (fun row => Task.id row =? id) rows).

(** [SELECT * FROM tasks WHERE user_id = $userId]. *)
Definition getTasksByUserId (userId : Z) (this : t) : list Task.t :=
  filter (fun row => Task.userId row =? userId) (tasks this).

(** [.set(updates)] of the query builder keeps the keys whose value is not
    [undefined] and throws 'No values to set' when none is left. *)
Definition no_values_to_set (updates : UpdateTask.t) : bool :=
  match UpdateTask.description updates, UpdateTask.assignee updates,
        UpdateTask.dueDateUtc updates, UpdateTask.dueDateOriginal updates,
        UpdateTask.priority updates, UpdateTask.completed updates with
  | None, None, None, None, None, None => true
  | _, _, _, _, _, _ => false
  end.

Section Queries.
Context {rt : Runtime}.

Definition refuses_text_if_any (s : option string) : bool :=
  match s with
  | Some s => pg_refuses_text s
  | None => false
  end.

Definition refuses_timestamp_if_any (d : option Date) : bool :=
  match d with
  | Some d => pg_refuses_timestamp d
  | None => false
  end.

(** Whether PostgreSQL refuses a value of the [INSERT]. *)
Definition refuses_insert (insertTask : InsertTask.t) : bool :=
  pg_refuses_text (InsertTask.description insertTask)
  || pg_refuses_text (InsertTask.assignee insertTask)
  || pg_refuses_timestamp (InsertTask.dueDateUtc insertTask)
  || pg_refuses_text (InsertTask.dueDateOriginal insertTask)
  || refuses_text_if_any (InsertTask.priority insertTask).

(** Whether PostgreSQL refuses a value of the [SET] clause. *)
Definition refuses_update (updates : UpdateTask.t) : bool :=
  refuses_text_if_any (UpdateTask.description updates)
  || refuses_text_if_any (UpdateTask.assignee updates)
  || refuses_timestamp_if_any (UpdateTask.dueDateUtc updates)
  || refuses_text_if_any (UpdateTask.dueDateOriginal updates)
  || refuses_text_if_any (UpdateTask.priority updates).

(** [INSERT INTO tasks ... RETURNING *]: the id from the sequence, the
    column defaults ([priority] 'P3', [completed] false, [created_at]
    now()) where the insert carries no value. *)
Definition createTask (insertTask : InsertTask.t) (now : Z) (this : t)
  : outcome Task.t * t :=
  if refuses_insert insertTask then (Thrown, this)
  else
    let id := tasks_id_seq this in
    let task :=
      {| Task.id := id;
         Task.userId := InsertTask.userId insertTask;
         Task.description := InsertTask.description insertTask;
         Task.assignee := InsertTask.assignee insertTask;
         Task.dueDateUtc := InsertTask.dueDateUtc insertTask;
         Task.dueDateOriginal := InsertTask.dueDateOriginal insertTask;
         Task.priority := Some (override "P3" (InsertTask.priority insertTask));
         Task.completed := Some (override false (InsertTask.completed insertTask));
         Task.createdAt := Some (DateOf now) |} in
    (Returned task, {| tasks := tasks this ++ [task]; tasks_id_seq := id + 1 |}).

Definition updateTask (id userId : Z) (updates : UpdateTask.t) (this : t)
  : outcome (option Task.t) * t :=
  if no_values_to_set updates then (Thrown, this)
  else if refuses_update updates then (Thrown, this)
  else
    let '(rows, returning) := update_where_id id updates (tasks this) in
    let this' := {| tasks := rows; tasks_id_seq := tasks_id_seq this |} in
    match returning with
    | task :: _ =>
        if Task.userId task =? userId then (Returned (Some task), this')
        else (Returned None, this')
    | [] => (Returned None, this')
    end.

End Queries.

Definition deleteTask (id userId : Z) (this : t) : bool * t :=
  let '(rows, result) := delete_where_id id (tasks this) in
  let this' := {| tasks := rows; tasks_id_seq := tasks_id_seq this |} in
  ((0 <? Z.of_nat (List.length result))
   && match result with
      | row :: _ => Task.userId row =? userId
      | [] => false
      end, this').

End DatabaseStorage.

#[export] Instance DatabaseStorage_IStorage {rt : Runtime} : IStorage DatabaseStorage.t := {
  getTasksByUserId := DatabaseStorage.getTasksByUserId;
  createTask := DatabaseStorage.createTask;
  updateTask := DatabaseStorage.updateTask;
  deleteTask := DatabaseStorage.deleteTask
}.

(* ===================================================================== *)
(** ** The server's routes *)
(* ===================================================================== *)

(** The body of a response, by the shape the route hands to [res.json]. *)
Inductive body : Type :=
| json_error (error : string)
| json_extracted (tasks : list ExtractedTask.t) (message : option string)
| json_tasks (tasks : list Task.t)
| json_tasks_local (tasks : list (Task.t * string))
| json_task (task : Task.t)
| no_body.

Record response : Type := {
  status : Z;
  sent : body
}.

(** A request: the session's user when the request is authenticated, the
    value of [parseInt(req.params.id)] for the routes with an [:id] (an id
    that the [integer] column can hold), and the parsed JSON body. *)
Record request : Type := {
  req_user : option User.t;
  req_params_id : Z;
  req_body : value
}.

(** What a request can change or leave a trace in: the storage, how many
    times the clock was read, and the transcripts sent to the language
    model, latest first. *)
Record World (S : Type) : Type := {
  store : S;
  ticks : nat;
  model_requests : list string
}.
Arguments store {S} w.
Arguments ticks {S} w.
Arguments model_requests {S} w.

(** The world after one more reading of the clock. *)
Definition tick {S : Type} (w : World S) : World S :=
  {| store := store w; ticks := Datatypes.S (ticks w);
     model_requests := model_requests w |}.

(** A computation of a route: it may throw, and it keeps what it did to the
    world before throwing. *)
Definition M (S A : Type) : Type := World S -> outcome A * World S.

Definition ret {S A : Type} (a : A) : M S A := fun w => (Returned a, w).

Definition throw {S A : Type} : M S A := fun w => (Thrown, w).

Definition bind {S A B : Type} (c : M S A) (k : A -> M S B) : M S B := fun w =>
  match c w with
  | (Returned a, w') => k a w'
  | (Thrown, w') => (Thrown, w')
  end.

Definition lift {S A : Type} (o : outcome A) : M S A := fun w => (o, w).

(** [try { c } catch { h }]. *)
Definition try_catch {S A : Type} (c h : M S A) : M S A := fun w =>
  match c w with
  | (Returned a, w') => (Returned a, w')
  | (Thrown, w') => h w'
  end.

Declare Scope route_scope.
Delimit Scope route_scope with route.
Notation "x <- c ;; k" := (bind c (fun x => k))
  (at level 61, c at next level, right associativity) : route_scope.

Definition respond {S : Type} (code : Z) (b : body) : M S response :=
  ret {| status := code; sent := b |}.

(** The [try { ... } catch (error) { res.status(500).json({ error }) }] that
    wraps the body of every route. *)
Definition catch_500 {S : Type} (c : M S response) (error : string)
  : World S -> response * World S := fun w =>
  match c w with
  | (Returned r, w') => (r, w')
  | (Thrown, w') => ({| status := 500; sent := json_error error |}, w')
  end.

Definition requireAuth {S : Type} (req : request)
  (next : User.t -> World S -> response * World S) : World S -> response * World S :=
  fun w =>
    match req_user req with
    | None => ({| status := 401; sent := json_error "Authentication required" |}, w)
    | Some user => next user w
    end.

Definition system_prompt : string :=
  "Extract ALL actionable tasks from meeting transcript. Be thorough and don't miss any tasks. Return JSON array with objects containing: task_description, assignee, due_date (clean up the date by removing words like 'by', 'before', 'until' - just keep the actual date/time like 'Tomorrow at 5pm', 'Friday afternoon', 'end of week', 'June 20th'), priority (default P3 if not specified, can be P1, P2, P3, or P4). Look for all types of tasks including follow-ups, deliverables, action items, and commitments.".

Section Routes.
Context {rt : Runtime} {S : Type} {storage : IStorage S}.

Local Open Scope route_scope.

(** [new Date()]: one reading of the clock. *)
Definition new_Date_now : M S Z := fun w =>
  (Returned (clock (ticks w)), tick w).

(** [openai.chat.completions.create] and the read of
    [response.choices[0].message.content]. *)
Definition openai_create (transcript : string) : M S (option string) := fun w =>
  (chat_completions_create system_prompt transcript,
   {| store := store w; ticks := ticks w;
      model_requests := transcript :: model_requests w |}).

Definition storage_getTasksByUserId (userId : Z) : M S (list Task.t) := fun w =>
  (Returned (getTasksByUserId userId (store w)), w).

(** [await storage.createTask(...)]: the row is stamped with one reading of
    the clock; a throw of the storage is a throw of the call. *)
Definition storage_createTask (insertTask : InsertTask.t) : M S Task.t := fun w =>
  match createTask insertTask (clock (ticks w)) (store w) with
  | (Returned task, s) =>
      (Returned task,
       {| store := s; ticks := Datatypes.S (ticks w);
          model_requests := model_requests w |})
  | (Thrown, s) =>
      (Thrown, {| store := s; ticks := ticks w; model_requests := model_requests w |})
  end.

Definition storage_updateTask (id userId : Z) (updates : UpdateTask.t)
  : M S (option Task.t) := fun w =>
  let '(task, s) := updateTask id userId updates (store w) in
  (task, {| store := s; ticks := ticks w; model_requests := model_requests w |}).

Definition storage_deleteTask (id userId : Z) : M S bool := fun w =>
  let '(deleted, s) := deleteTask id userId (store w) in
  (Returned deleted, {| store := s; ticks := ticks w; model_requests := model_requests w |}).

(** [function convertLocalToUtc]: the time zone is not used. *)
Definition convertLocalToUtc (localTimeString : string) (timezone : string) : Date :=
  Date_new (Some (JStr localTimeString)).

(** [function convertUtcToLocal]: the time zone is not used. *)
Definition convertUtcToLocal (utcDate : Date) (timezone : string) : outcome string :=
  toISOString utcDate.

(** [a || b] on strings. *)
Definition string_or (a b : string) : string :=
  if String.eqb a "" then b else a.

(** *** POST /api/extract-tasks *)

(** The callback of [tasks.map]: the parsed task, or [null]. *)
Definition validate_extracted (task : value) : option ExtractedTask.t :=
  match extractedTaskSchema_parse task with
  | Returned t => Some t
  | Thrown => None
  end.

(** [.filter(Boolean)]: a parsed task is an object, hence truthy. *)
Definition filter_Boolean {A : Type} (l : list (option A)) : list A :=
  flat_map (fun o => match o with Some a => [a] | None => [] end) l.

Definition validatedTasks (tasks : list value) : list ExtractedTask.t :=
  filter_Boolean (map validate_extracted tasks).

Definition extract_tasks_body (req : request) : M S response :=
  transcript <- lift (prop (req_body req) "transcript") ;;
  if negb (truthy transcript) || negb (typeof_string transcript)
  then respond 400 (json_error "Transcript is required")
  else
    content <- openai_create (string_content transcript) ;;
    result <- lift (JSON_parse (string_or (match content with
                                           | Some c => c
                                           | None => ""
                                           end) "{}")) ;;
    tasks_field <- lift (prop result "tasks") ;;
    let tasks := if truthy tasks_field then tasks_field else Some (JArr []) in
    match tasks with
    | Some (JArr items) =>
        let validated := validatedTasks items in
        if Z.of_nat (List.length validated) =? 0
        then respond 200 (json_extracted [] (Some "No tasks found"))
        else respond 200 (json_extracted validated None)
    | _ => throw
    end.

Definition extract_tasks_route (req : request) : World S -> response * World S :=
  requireAuth req (fun _ => catch_500 (extract_tasks_body req) "Failed to extract tasks").

(** *** GET /api/tasks *)

Fixpoint map_route {A B : Type} (f : A -> M S B) (l : list A) : M S (list B) :=
  match l with
  | [] => ret []
  | a :: rest => b <- f a ;; bs <- map_route f rest ;; ret (b :: bs)
  end.

Definition get_tasks_body (user : User.t) : M S response :=
  tasks <- storage_getTasksByUserId (User.id user) ;;
  tasksWithLocalTime <-
    map_route (fun task =>
      dueDateLocal <- lift (convertUtcToLocal (Task.dueDateUtc task)
                              (string_or (User.timezone user) "UTC")) ;;
      ret (task, dueDateLocal)) tasks ;;
  respond 200 (json_tasks_local tasksWithLocalTime).

Definition get_tasks_route (req : request) : World S -> response * World S :=
  requireAuth req (fun user => catch_500 (get_tasks_body user) "Failed to fetch tasks").

(** *** POST /api/tasks *)

(** [d = new Date(); d.setDate(d.getDate() + 1)]. *)
Definition tomorrow : M S Date :=
  now <- new_Date_now ;;
  ret (DateOf (setDate_getDate_plus 1 now)).

(** The inner [try] of the loop: the due date of one submitted item. *)
Definition dueDateUtc_of (taskData : value) : M S Date :=
  try_catch
    (due_date <- lift (prop taskData "due_date") ;;
     let dueDateUtc := Date_new due_date in
     if isNaN_getTime dueDateUtc then tomorrow else ret dueDateUtc)
    tomorrow.

(** The outer [try] of the loop, for one item. *)
Definition create_one (user : User.t) (taskData : value) : M S Task.t :=
  dueDateUtc <- dueDateUtc_of taskData ;;
  description <- lift (prop taskData "task_description") ;;
  assignee <- lift (prop taskData "assignee") ;;
  dueDateOriginal <- lift (prop taskData "due_date") ;;
  priority <- lift (prop taskData "priority") ;;
  taskToInsert <- lift (insertTaskSchema_parse (User.id user) description assignee
                          dueDateUtc dueDateOriginal priority (Some (JBool false))) ;;
  storage_createTask taskToInsert.

(** [for (const taskData of tasksToCreate) { try { ... } catch { } }]. *)
Fixpoint create_loop (user : User.t) (tasksToCreate : list value)
  (createdTasks : list Task.t) : M S (list Task.t) :=
  match tasksToCreate with
  | [] => ret createdTasks
  | taskData :: rest =>
      createdTasks' <-
        try_catch
          (createdTask <- create_one user taskData ;;
           ret (createdTasks ++ [createdTask])%list)
          (ret createdTasks) ;;
      create_loop user rest createdTasks'
  end.

Definition post_tasks_body (user : User.t) (req : request) : M S response :=
  tasksToCreate <- lift (prop (req_body req) "tasks") ;;
  if negb (isArray tasksToCreate)
  then respond 400 (json_error "Tasks array is required")
  else
    createdTasks <- create_loop user (array_items tasksToCreate) [] ;;
    respond 201 (json_tasks createdTasks).

Definition post_tasks_route (req : request) : World S -> response * World S :=
  requireAuth req (fun user => catch_500 (post_tasks_body user req) "Failed to create tasks").

(** *** PUT /api/tasks/:id *)

Definition put_task_body (user : User.t) (req : request) : M S response :=
  let taskId := req_params_id req in
  updates <- lift (updateTaskSchema_parse (req_body req)) ;;
  updates <-
    match UpdateTask.dueDateUtc updates with
    | Some d =>
        iso <- lift (toISOString d) ;;
        ret {| UpdateTask.description := UpdateTask.description updates;
               UpdateTask.assignee := UpdateTask.assignee updates;
               UpdateTask.dueDateUtc :=
                 Some (convertLocalToUtc iso (string_or (User.timezone user) "UTC"));
               UpdateTask.dueDateOriginal := UpdateTask.dueDateOriginal updates;
               UpdateTask.priority := UpdateTask.priority updates;
               UpdateTask.completed := UpdateTask.completed updates |}
    | None => ret updates
    end ;;
  updatedTask <- storage_updateTask taskId (User.id user) updates ;;
  match updatedTask with
  | None => respond 404 (json_error "Task not found")
  | Some task => respond 200 (json_task task)
  end.

Definition put_task_route (req : request) : World S -> response * World S :=
  requireAuth req (fun user => catch_500 (put_task_body user req) "Failed to update task").

(** *** DELETE /api/tasks/:id *)

Definition delete_task_body (user : User.t) (req : request) : M S response :=
  let taskId := req_params_id req in
  deleted <- storage_deleteTask taskId (User.id user) ;;
  if negb deleted then respond 404 (json_error "Task not found")
  else respond 204 no_body.

Definition delete_task_route (req : request) : World S -> response * World S :=
  requireAuth req (fun user => catch_500 (delete_task_body user req) "Failed to delete task").

End Routes.

(* ===================================================================== *)
(** ** The review modal's working set (task-review-modal.tsx) *)
(* ===================================================================== *)

Module TaskReviewModal.

(** What a handler of the component does besides setting its state: show a
    toast, or start the bulk-create mutation. *)
Inductive effect : Type :=
| toast (title description : string) (destructive : bool)
| mutate (tasksToApprove : list ExtractedTask.t).

(** [l.filter((x, i) => f x i)], the indices counted from [i]. *)
Fixpoint filter_indexed {A : Type} (f : A -> nat -> bool) (i : nat) (l : list A) : list A :=
  match l with
  | [] => []
  | x :: rest =>
      if f x i then x :: filter_indexed f (Datatypes.S i) rest
      else filter_indexed f (Datatypes.S i) rest
  end.

(** [removeTask]: the next value of the [tasks] state. *)
Definition removeTask (index : nat) (tasks : list ExtractedTask.t) : list ExtractedTask.t :=
  filter_indexed (fun _ i => negb (Nat.eqb i index)) 0%nat tasks.

Definition newTask : ExtractedTask.t :=
  {| ExtractedTask.task_description := "";
     ExtractedTask.assignee := "";
     ExtractedTask.due_date := "";
     ExtractedTask.priority := P3 |}.

(** [addNewTask]: the next value of the [tasks] state. *)
Definition addNewTask (tasks : list ExtractedTask.t) : list ExtractedTask.t :=
  (tasks ++ [newTask])%list.

(** [handleApproveAll]: the next value of the [tasks] state (it does not
    set it) and what it does. *)
Definition handleApproveAll (tasks : list ExtractedTask.t)
  : list ExtractedTask.t * list effect :=
  if Z.of_nat (List.length tasks) =? 0
  then (tasks, [toast "No tasks to approve" "Add at least one task before approving." true])
  else (tasks, [mutate tasks]).

(** [JSON.stringify] of a task of the working set, as the server's body
    parser reads it back. *)
Definition to_json (task : ExtractedTask.t) : value :=
  JObj [("task_description", JStr (ExtractedTask.task_description task));
        ("assignee", JStr (ExtractedTask.assignee task));
        ("due_date", JStr (ExtractedTask.due_date task));
        ("priority", JStr (Priority_to_string (ExtractedTask.priority task)))].

(** The request of [mutationFn]:
    [apiRequest("POST", "/api/tasks", { tasks: tasksToApprove })]. *)
Definition bulk_create_request (session : option User.t)
  (tasksToApprove : list ExtractedTask.t) : request :=
  {| req_user := session;
     req_params_id := 0;
     req_body := JObj [("tasks", JArr (map to_json tasksToApprove))] |}.

Section Against.
Context {rt : Runtime} {S : Type} {storage : IStorage S}.

(** The server's world after the effects of a handler: a mutation reaches
    the bulk-create route, a toast stays in the browser. *)
Fixpoint perform (session : option User.t) (effects : list effect) (w : World S) : World S :=
  match effects with
  | [] => w
  | toast _ _ _ :: rest => perform session rest w
  | mutate tasksToApprove :: rest =>
      perform session rest
        (snd (post_tasks_route (bulk_create_request session tasksToApprove) w))
  end.

(** The bulk-create requests among the effects. *)
Definition requests_sent (session : option User.t) (effects : list effect) : list request :=
  flat_map (fun e => match e with
                     | toast _ _ _ => []
                     | mutate tasksToApprove => [bulk_create_request session tasksToApprove]
                     end) effects.

End Against.

End TaskReviewModal.

(* ===================================================================== *)
(** ** What the properties are stated with *)
(* ===================================================================== *)

(** The two implementations of [IStorage], with what one can observe of
    their state: the stored record of an id, and all stored records. *)
Inductive backend : Type := Mem | Db.

Definition state_of (b : backend) : Type :=
  match b with
  | Mem => MemStorage.t
  | Db => DatabaseStorage.t
  end.

#[export] Instance backend_storage {rt : Runtime} (b : backend) : IStorage (state_of b) :=
  match b with
  | Mem => MemStorage_IStorage
  | Db => DatabaseStorage_IStorage
  end.

Definition stored (b : backend) (id : Z) : state_of b -> option Task.t :=
  match b with
  | Mem => fun s => JsMap.get id (MemStorage.tasks s)
  | Db => fun s => find (fun row => Task.id row =? id) (DatabaseStorage.tasks s)
  end.

Definition all_tasks (b : backend) : state_of b -> list Task.t :=
  match b with
  | Mem => fun s => JsMap.values (MemStorage.tasks s)
  | Db => fun s => DatabaseStorage.tasks s
  end.

(** The ids in use are below the next id the storage will hand out: true of
    the empty storage and kept by every method. *)
Definition ids_below_next (b : backend) : state_of b -> Prop :=
  match b with
  | Mem => fun s =>
      Forall (fun k => k < MemStorage.currentTaskId s) (JsMap.keys (MemStorage.tasks s))
  | Db => fun s =>
      Forall (fun row => Task.id row < DatabaseStorage.tasks_id_seq s)
             (DatabaseStorage.tasks s)
  end.

Definition world_of {S : Type} (s : S) : World S :=
  {| store := s; ticks := 0; model_requests := [] |}.

(** A JSON value or [undefined] that is a string. *)
Definition is_string (v : option value) : bool :=
  match v with
  | Some (JStr _) => true
  | _ => false
  end.

(** A JSON value that is one of the four priorities. *)
Definition is_priority (v : value) : bool :=
  match v with
  | JStr s => existsb (String.eqb s) ["P1"; "P2"; "P3"; "P4"]
  | _ => false
  end.

(** A transcript the extraction accepts: a non-empty string. *)
Definition nonempty_string (v : option value) : bool :=
  match v with
  | Some (JStr s) => negb (String.eqb s "")
  | _ => false
  end.

(** An item of a bulk-create request that the persisted-task schema
    accepts: an object whose [task_description], [assignee] and [due_date]
    are strings and whose [priority] is a string or absent. *)
Definition wellformed_item (item : value) : bool :=
  match item with
  | JObj fields =>
      is_string (lookup_field "task_description" fields)
      && is_string (lookup_field "assignee" fields)
      && is_string (lookup_field "due_date" fields)
      && match lookup_field "priority" fields with
         | None => true
         | Some v => is_string (Some v)
         end
  | _ => false
  end.

(** [task] is the task created for [user] from the well-formed [item]. *)
Definition created_from (user : User.t) (item : value) (task : Task.t) : Prop :=
  Task.userId task = User.id user
  /\ prop item "task_description" = Returned (Some (JStr (Task.description task)))
  /\ prop item "assignee" = Returned (Some (JStr (Task.assignee task)))
  /\ prop item "due_date" = Returned (Some (JStr (Task.dueDateOriginal task)))
  /\ (forall p, prop item "priority" = Returned (Some (JStr p)) ->
                Task.priority task = Some p)
  /\ isNaN_getTime (Task.dueDateUtc task) = false
  /\ Task.completed task = Some false.

(** The due date the bulk-create route gives to an item whose [due_date]
    is [v], when the clock reads [now]: the date [v] parses to, and one day
    after [now] on the server's wall clock when it does not parse. *)
Definition due_date_or_tomorrow {rt : Runtime} (v : option value) (now : Z) : Date :=
  match Date_new v with
  | DateOf t => DateOf t
  | InvalidDate => DateOf (UTC (LocalTime now + msPerDay))
  end.

(** The [priority] an insert carries: the submitted string, if any. *)
Definition priority_text (v : option value) : option string :=
  match v with
  | Some (JStr p) => Some p
  | _ => None
  end.

(** *** What a storage refuses *)

(** [MemStorage] takes every value; [DatabaseStorage] refuses an insert or
    an update with a value PostgreSQL refuses, and an update that sets no
    column. *)
Definition storage_refuses_insert {rt : Runtime} (b : backend) (insertTask : InsertTask.t)
  : bool :=
  match b with
  | Mem => false
  | Db => DatabaseStorage.refuses_insert insertTask
  end.

Definition storage_refuses_update {rt : Runtime} (b : backend) (updates : UpdateTask.t)
  : bool :=
  match b with
  | Mem => false
  | Db => DatabaseStorage.no_values_to_set updates || DatabaseStorage.refuses_update updates
  end.

(** The texts of an item of a bulk-create request: the strings under the
    four keys the route reads. *)
Definition item_texts (item : value) : list string :=
  match item with
  | JObj fields =>
      flat_map (fun k => match lookup_field k fields with
                         | Some (JStr s) => [s]
                         | _ => []
                         end)
               ["task_description"; "assignee"; "due_date"; "priority"]
  | _ => []
  end.

(** Whether the storage refuses one of the texts of [item], and whether it
    refuses the date [d] as a due date. *)
Definition storage_refuses_texts {rt : Runtime} (b : backend) (item : value) : bool :=
  match b with
  | Mem => false
  | Db => existsb pg_refuses_text (item_texts item)
  end.

Definition storage_refuses_timestamp {rt : Runtime} (b : backend) (d : Date) : bool :=
  match b with
  | Mem => false
  | Db => pg_refuses_timestamp d
  end.

(** The date one day after [now] on the server's wall clock: the fall-back
    due date of the bulk-create route. *)
Definition day_after {rt : Runtime} (now : Z) : Date :=
  DateOf (UTC (LocalTime now + msPerDay)).

(** An item of a bulk-create request that ends up stored: the
    persisted-task schema accepts it, and the storage refuses neither its
    texts nor the date its [due_date] parses to, if it parses to one. *)
Definition persistable {rt : Runtime} (b : backend) (item : value) : bool :=
  wellformed_item item
  && negb (storage_refuses_texts b item)
  && negb match prop item "due_date" with
          | Returned v =>
              match Date_new v with
              | DateOf t => storage_refuses_timestamp b (DateOf t)
              | InvalidDate => false
              end
          | Thrown => false
          end.

(** The due date the bulk-create route gives to [item] when the clock reads
    [now], and whether the item ends up stored then. *)
Definition item_due {rt : Runtime} (item : value) (now : Z) : Date :=
  match prop item "due_date" with
  | Returned v => due_date_or_tomorrow v now
  | Thrown => day_after now
  end.

Definition persists_at {rt : Runtime} (b : backend) (item : value) (now : Z) : bool :=
  wellformed_item item
  && negb (storage_refuses_texts b item)
  && negb (storage_refuses_timestamp b (item_due item now)).

(** *** Sequences of storage calls *)

Inductive call : Type :=
| call_getTasksByUserId (userId : Z)
| call_createTask (insertTask : InsertTask.t) (now : Z)
| call_updateTask (id userId : Z) (updates : UpdateTask.t)
| call_deleteTask (id userId : Z).

Inductive answer : Type :=
| answer_tasks (tasks : list Task.t)
| answer_created (task : Task.t)
| answer_updated (task : option Task.t)
| answer_deleted (deleted : bool)
| answer_thrown.

Definition run_call {S : Type} {storage : IStorage S} (c : call) (s : S) : answer * S :=
  match c with
  | call_getTasksByUserId userId => (answer_tasks (getTasksByUserId userId s), s)
  | call_createTask insertTask now =>
      match createTask insertTask now s with
      | (Returned task, s') => (answer_created task, s')
      | (Thrown, s') => (answer_thrown, s')
      end
  | call_updateTask id userId updates =>
      match updateTask id userId updates s with
      | (Returned task, s') => (answer_updated task, s')
      | (Thrown, s') => (answer_thrown, s')
      end
  | call_deleteTask id userId =>
      let '(deleted, s') := deleteTask id userId s in (answer_deleted deleted, s')
  end.

Fixpoint run_calls {S : Type} {storage : IStorage S} (calls : list call) (s : S)
  : list answer * S :=
  match calls with
  | [] => ([], s)
  | c :: rest =>
      let '(a, s') := run_call c s in
      let '(answers, s'') := run_calls rest s' in
      (a :: answers, s'')
  end.

(** The [MemStorage] that holds the rows of a table, in their order. *)
Definition entries_of (rows : list Task.t) : JsMap.t Task.t :=
  map (fun row => (Task.id row, row)) rows.

(** The same tasks under the same ids, and the same next id. *)
Definition same_tasks (m : MemStorage.t) (d : DatabaseStorage.t) : Prop :=
  MemStorage.tasks m = entries_of (DatabaseStorage.tasks d)
  /\ MemStorage.currentTaskId m = DatabaseStorage.tasks_id_seq d.

(** *** Sample data *)

Module Sample.

(** A string between double quotes. *)
Definition quoted (s : string) : string :=
  String (ascii_of_nat 34) s ++ String (ascii_of_nat 34) EmptyString.

(** The text of a model answer with one task that has no priority. *)
Definition answer_text : string :=
  "{" ++ quoted "tasks" ++ ":[{"
  ++ quoted "task_description" ++ ":" ++ quoted "update the database schema" ++ ","
  ++ quoted "assignee" ++ ":" ++ quoted "John" ++ ","
  ++ quoted "due_date" ++ ":" ++ quoted "Friday" ++ "}]}".

Definition answer_value : value :=
  JObj [("tasks",
         JArr [JObj [("task_description", JStr "update the database schema");
                     ("assignee", JStr "John");
                     ("due_date", JStr "Friday")]])].

(** Whether a text holds a NUL character. *)
Fixpoint has_nul (s : string) : bool :=
  match s with
  | EmptyString => false
  | String c rest => Ascii.eqb c Ascii.zero || has_nul rest
  end.

(** A server in UTC whose clock starts on 2025-06-13 at 10:00:38.053 and
    advances by a millisecond per reading; its [Date] reads one ISO string,
    its [JSON.parse] two texts; the model answers every transcript with
    [answer_text]; its database refuses a text with a NUL character and a
    date that is not valid. *)
Definition runtime : Runtime := {|
  clock := fun n => 1749808838053 + Z.of_nat n;
  LocalTZA := fun _ _ => 0;
  Date_new := fun v =>
    match v with
    | Some (JStr s) =>
        if String.eqb s "2025-06-20T17:00:00.000Z" then DateOf 1750438800000
        else InvalidDate
    | _ => InvalidDate
    end;
  JSON_parse := fun s =>
    if String.eqb s "{}" then Returned (JObj [])
    else if String.eqb s answer_text then Returned answer_value
    else Thrown;
  chat_completions_create := fun _ _ => Returned (Some answer_text);
  pg_refuses_text := has_nul;
  pg_refuses_timestamp := isNaN_getTime
|}.

Definition alice : User.t :=
  {| User.id := 1; User.username := "alice"; User.timezone := "Asia/Tokyo" |}.

Definition bob : User.t :=
  {| User.id := 2; User.username := "bob"; User.timezone := "America/New_York" |}.

Definition task_of (id owner : Z) : Task.t :=
  {| Task.id := id;
     Task.userId := owner;
     Task.description := "update the database schema";
     Task.assignee := "John";
     Task.dueDateUtc := DateOf 1750438800000;
     Task.dueDateOriginal := "Friday";
     Task.priority := Some "P3";
     Task.completed := Some false;
     Task.createdAt := Some (DateOf 1749808838053) |}.

Definition mem : MemStorage.t :=
  {| MemStorage.tasks := [(1, task_of 1 1)]; MemStorage.currentTaskId := 2 |}.

Definition db : DatabaseStorage.t :=
  {| DatabaseStorage.tasks := [task_of 1 1]; DatabaseStorage.tasks_id_seq := 2 |}.

(** Task 1 of alice and task 2 of bob, both due on 2025-06-20 at 17:00
    UTC. *)
Definition two_owners : MemStorage.t :=
  {| MemStorage.tasks := [(1, task_of 1 1); (2, task_of 2 2)];
     MemStorage.currentTaskId := 3 |}.

Definition mark_completed : UpdateTask.t :=
  {| UpdateTask.description := None;
     UpdateTask.assignee := None;
     UpdateTask.dueDateUtc := None;
     UpdateTask.dueDateOriginal := None;
     UpdateTask.priority := None;
     UpdateTask.completed := Some true |}.

Definition completed_task : Task.t :=
  {| Task.id := 1;
     Task.userId := 1;
     Task.description := "update the database schema";
     Task.assignee := "John";
     Task.dueDateUtc := DateOf 1750438800000;
     Task.dueDateOriginal := "Friday";
     Task.priority := Some "P3";
     Task.completed := Some true;
     Task.createdAt := Some (DateOf 1749808838053) |}.

End Sample.

(* ===================================================================== *)
(** ** Users in [MemStorage] *)
(* ===================================================================== *)

(** A row of [users] as the storages hold it ([typeof users.$inferSelect]).
    [timezone] is [None] when the JavaScript object carries [undefined]
    there, which only [MemStorage.createUser] can produce. *)
Module StoredUser.
Record t : Type := {
  id : Z;
  username : string;
  password : string;
  timezone : option string;
  createdAt : option Date
}.
End StoredUser.

(** [z.infer<typeof insertUserSchema>]: [timezone] has a column default and
    is optional. *)
Module InsertUser.
Record t : Type := {
  username : string;
  password : string;
  timezone : option string
}.
End InsertUser.

(** The [users] and [currentUserId] fields of [class MemStorage], with the
    three methods that use them and nothing else of the object. *)
Module MemStorageUsers.

Record t : Type := {
  users : JsMap.t StoredUser.t;
  currentUserId : Z
}.

Definition new : t := {| users := []; currentUserId := 1 |}.

Definition getUser (id : Z) (this : t) : option StoredUser.t :=
  JsMap.get id (users this).

Definition getUserByUsername (username : string) (this : t) : option StoredUser.t :=
  find (fun user => String.eqb (StoredUser.username user) username)
       (JsMap.values (users this)).

Definition createUser (insertUser : InsertUser.t) (now : Z) (this : t) : StoredUser.t * t :=
  let id := currentUserId this in
  let user :=
    {| StoredUser.id := id;
       StoredUser.username := InsertUser.username insertUser;
       StoredUser.password := InsertUser.password insertUser;
       StoredUser.timezone := InsertUser.timezone insertUser;
       StoredUser.createdAt := Some (DateOf now) |} in
  (user, {| users := JsMap.set id user (users this); currentUserId := id + 1 |}).

End MemStorageUsers.

(* ===================================================================== *)
(** ** registerRoutes *)
(* ===================================================================== *)

(** The five routes [registerRoutes] installs besides those of
    [setupAuth], by method and path. *)
Inductive route : Type :=
| POST_extract_tasks
| GET_tasks
| POST_tasks
| PUT_tasks_id
| DELETE_tasks_id.

Section Serve.
Context {rt : Runtime} {S : Type} {storage : IStorage S}.

Definition serve (r : route) : request -> World S -> response * World S :=
  match r with
  | POST_extract_tasks => extract_tasks_route
  | GET_tasks => get_tasks_route
  | POST_tasks => post_tasks_route
  | PUT_tasks_id => put_task_route
  | DELETE_tasks_id => delete_task_route
  end.

(** The responses to a sequence of requests, served one after the other,
    and the world they leave. *)
Fixpoint serve_all (requests : list (route * request)) (w : World S)
  : list response * World S :=
  match requests with
  | [] => ([], w)
  | (r, req) :: rest =>
      let '(res, w') := serve r req w in
      let '(responses, w'') := serve_all rest w' in
      (res :: responses, w'')
  end.

End Serve.

(* ===================================================================== *)
(** ** What the further properties are stated with *)
(* ===================================================================== *)

(** The ids under which a storage holds tasks. *)
Definition ids_of (b : backend) : state_of b -> list Z :=
  match b with
  | Mem => fun s => JsMap.keys (MemStorage.tasks s)
  | Db => fun s => map Task.id (DatabaseStorage.tasks s)
  end.

(** No id is in use twice, and the ids in use are below the next id: what
    a [Map] and a primary key fed by a counter give. *)
Definition ids_wellformed (b : backend) (s : state_of b) : Prop :=
  NoDup (ids_of b s) /\ ids_below_next b s.

(** The next id the storage hands out. *)
Definition next_id (b : backend) : state_of b -> Z :=
  match b with
  | Mem => fun s => MemStorage.currentTaskId s
  | Db => fun s => DatabaseStorage.tasks_id_seq s
  end.

(** Every stored task has a valid due date. *)
Definition dates_valid (b : backend) (s : state_of b) : Prop :=
  Forall (fun task => isNaN_getTime (Task.dueDateUtc task) = false) (all_tasks b s).

(** An update or a delete call made by someone who does not own the stored
    task. *)
Definition by_non_owner (m : MemStorage.t) (c : call) : Prop :=
  match c with
  | call_updateTask id userId _ | call_deleteTask id userId =>
      match JsMap.get id (MemStorage.tasks m) with
      | Some task => Task.userId task <> userId
      | None => False
      end
  | _ => False
  end.





(** The ids of the tasks that a sequence of calls created, in order. *)
Definition created_ids (answers : list answer) : list Z :=
  flat_map (fun a => match a with
                     | answer_created task => [Task.id task]
                     | _ => []
                     end) answers.

(** The answer "not found" of a call. *)
Definition not_found_answer (c : call) : answer :=
  match c with
  | call_deleteTask _ _ => answer_deleted false
  | _ => answer_updated None
  end.

(* ===================================================================== *)
(** ** The rest of the client *)
(* ===================================================================== *)

(** [updateTask] of the review modal (task-review-modal.tsx).  The field
    and its new value come together, as the four inputs of a card pass
    them: three free texts and one of the four options of the priority
    select. *)
Module TaskReviewModalEdit.

Inductive edit : Type :=
| task_description (value : string)
| assignee (value : string)
| due_date (value : string)
| priority (value : Priority).

(** [{ ...task, [field]: value }]. *)
Definition set_field (task : ExtractedTask.t) (e : edit) : ExtractedTask.t :=
  match e with
  | task_description value =>
      {| ExtractedTask.task_description := value;
         ExtractedTask.assignee := ExtractedTask.assignee task;
         ExtractedTask.due_date := ExtractedTask.due_date task;
         ExtractedTask.priority := ExtractedTask.priority task |}
  | assignee value =>
      {| ExtractedTask.task_description := ExtractedTask.task_description task;
         ExtractedTask.assignee := value;
         ExtractedTask.due_date := ExtractedTask.due_date task;
         ExtractedTask.priority := ExtractedTask.priority task |}
  | due_date value =>
      {| ExtractedTask.task_description := ExtractedTask.task_description task;
         ExtractedTask.assignee := ExtractedTask.assignee task;
         ExtractedTask.due_date := value;
         ExtractedTask.priority := ExtractedTask.priority task |}
  | priority value =>
      {| ExtractedTask.task_description := ExtractedTask.task_description task;
         ExtractedTask.assignee := ExtractedTask.assignee task;
         ExtractedTask.due_date := ExtractedTask.due_date task;
         ExtractedTask.priority := value |}
  end.

(** [updatedTasks[index] = ...] on a copy of the array, at the index of a
    card. *)
Fixpoint assign_at (index : nat) (task : ExtractedTask.t) (tasks : list ExtractedTask.t)
  : list ExtractedTask.t :=
  match tasks, index with
  | [], _ => []
  | _ :: rest, O => task :: rest
  | t :: rest, Datatypes.S i => t :: assign_at i task rest
  end.

(** The next value of the [tasks] state; [None] at an index that is not the
    index of a card, where the JavaScript array would get holes. *)
Definition updateTask (index : nat) (e : edit) (tasks : list ExtractedTask.t)
  : option (list ExtractedTask.t) :=
  match nth_error tasks index with
  | Some task => Some (assign_at index (set_field task e) tasks)
  | None => None
  end.

End TaskReviewModalEdit.

(** The handlers and mutations of the dashboard page (dashboard.tsx) that
    talk to the routes. *)
Module Dashboard.

(** [!task.completed]. *)
Definition not_completed (task : Task.t) : bool :=
  match Task.completed task with
  | Some c => negb c
  | None => true
  end.

(** The request of [toggleTaskMutation]:
    [apiRequest("PUT", `/api/tasks/${task.id}`, { completed: !task.completed })]. *)
Definition toggle_request (session : option User.t) (task : Task.t) : request :=
  {| req_user := session;
     req_params_id := Task.id task;
     req_body := JObj [("completed", JBool (not_completed task))] |}.

(** The request of [deleteTaskMutation]; without data the body parser
    leaves the empty object. *)
Definition delete_request (session : option User.t) (taskId : Z) : request :=
  {| req_user := session; req_params_id := taskId; req_body := JObj [] |}.

(** The request of [extractTasksMutation]. *)
Definition extract_request (session : option User.t) (transcript : string) : request :=
  {| req_user := session;
     req_params_id := 0;
     req_body := JObj [("transcript", JStr transcript)] |}.

End Dashboard.

(** The edit modal (task-edit-modal.tsx). *)
Module TaskEditModal.

Record formData : Type := {
  description : string;
  assignee : string;
  dueDateLocal : string;
  priority : option string
}.

(** The [useEffect] that loads the form from the task being edited, an
    item of the task list with its [dueDateLocal]. *)
Definition load (item : Task.t * string) : formData :=
  {| description := Task.description (fst item);
     assignee := Task.assignee (fst item);
     dueDateLocal := snd item;
     priority := Task.priority (fst item) |}.

Inductive field : Type :=
| field_description
| field_assignee
| field_dueDateLocal
| field_priority.

(** [updateFormData]. *)
Definition updateFormData (f : field) (value : string) (prev : formData) : formData :=
  match f with
  | field_description =>
      {| description := value; assignee := assignee prev;
         dueDateLocal := dueDateLocal prev; priority := priority prev |}
  | field_assignee =>
      {| description := description prev; assignee := value;
         dueDateLocal := dueDateLocal prev; priority := priority prev |}
  | field_dueDateLocal =>
      {| description := description prev; assignee := assignee prev;
         dueDateLocal := value; priority := priority prev |}
  | field_priority =>
      {| description := description prev; assignee := assignee prev;
         dueDateLocal := dueDateLocal prev; priority := Some value |}
  end.

(** What [handleSave] does: a toast, or the update mutation with the
    request it sends. *)
Inductive effect : Type :=
| toast (title message : string) (destructive : bool)
| mutate (req : request).

(** The request of [updateTaskMutation] for the object [handleSave] hands
    it: [description], [assignee] and [priority] (a key whose value is
    [undefined] is not serialised), and no due date. *)
Definition save_request (session : option User.t) (task : Task.t) (form : formData)
  : request :=
  {| req_user := session;
     req_params_id := Task.id task;
     req_body :=
       JObj ([("description", JStr (description form));
              ("assignee", JStr (assignee form))]
             ++ match priority form with
                | Some p => [("priority", JStr p)]
                | None => []
                end)%list |}.

Section WithTrim.
(** [String.prototype.trim]. *)
Variable trim : string -> string.

Definition handleSave (session : option User.t) (task : Task.t) (form : formData)
  : list effect :=
  if String.eqb (trim (description form)) ""
  then [toast "Validation error" "Task description is required." true]
  else [mutate (save_request session task form)].

End WithTrim.

End TaskEditModal.

(** The answer of [requireAuth] to a request without a session. *)
Definition unauthenticated : response :=
  {| status := 401; sent := json_error "Authentication required" |}.

(** Two tasks with the same id, owner, creation time and due date. *)
Definition same_identity (task task' : Task.t) : Prop :=
  Task.id task' = Task.id task
  /\ Task.userId task' = Task.userId task
  /\ Task.createdAt task' = Task.createdAt task
  /\ Task.dueDateUtc task' = Task.dueDateUtc task.

(** The updates the dashboard's toggle request parses to. *)
Definition completed_updates (c : bool) : UpdateTask.t :=
  {| UpdateTask.description := None;
     UpdateTask.assignee := None;
     UpdateTask.dueDateUtc := None;
     UpdateTask.dueDateOriginal := None;
     UpdateTask.priority := None;
     UpdateTask.completed := Some c |}.

(** The updates the edit modal's request parses to. *)
Definition saved_updates (form : TaskEditModal.formData) : UpdateTask.t :=
  {| UpdateTask.description := Some (TaskEditModal.description form);
     UpdateTask.assignee := Some (TaskEditModal.assignee form);
     UpdateTask.dueDateUtc := None;
     UpdateTask.dueDateOriginal := None;
     UpdateTask.priority := TaskEditModal.priority form;
     UpdateTask.completed := None |}.

(* ===================================================================== *)
(** * Properties *)
(* ===================================================================== *)

(** ** Dates *)

Example iso_string_epoch : iso_string 0 = "1970-01-01T00:00:00.000Z".
Proof. reflexivity. Qed.

Example iso_string_before_epoch : iso_string (-1) = "1969-12-31T23:59:59.999Z".
Proof. reflexivity. Qed.

Example iso_string_leap_day : iso_string 951782400000 = "2000-02-29T00:00:00.000Z".
Proof. reflexivity. Qed.

Example iso_string_sample_clock : iso_string 1749808838053 = "2025-06-13T10:00:38.053Z".
Proof. reflexivity. Qed.

(** ** Ownership on update and delete *)

Ltac storage_fields :=
  cbn [fst snd MemStorage.tasks MemStorage.currentTaskId
       DatabaseStorage.tasks DatabaseStorage.tasks_id_seq].

Lemma JsMap_delete_absent {V : Type} (k : Z) (m : JsMap.t V) :
  JsMap.get k m = None -> JsMap.delete k m = (false, m).
Proof. intros H. unfold JsMap.delete. now rewrite H. Qed.

(** [MemStorage] checks the owner before it writes: a caller who is not the
    owner changes nothing. *)
Lemma MemStorage_non_owner_unchanged (this : MemStorage.t) (id userId : Z)
  (updates : UpdateTask.t) (task : Task.t) :
  JsMap.get id (MemStorage.tasks this) = Some task ->
  Task.userId task <> userId ->
  MemStorage.updateTask id userId updates this = (None, this)
  /\ MemStorage.deleteTask id userId this = (false, this).
Proof.
  intros Hget Hne.
  unfold MemStorage.updateTask, MemStorage.deleteTask.
  rewrite Hget.
  apply Z.eqb_neq in Hne. rewrite Hne. simpl. split; reflexivity.
Qed.

Lemma find_Some_filter {A : Type} (f : A -> bool) (l : list A) (a : A) :
  find f l = Some a -> exists rest, filter f l = a :: rest.
Proof.
  induction l as [|x l IH]; simpl; [discriminate|].
  destruct (f x) eqn:Hx.
  - intros [= ->]. eauto.
  - exact IH.
Qed.

Lemma find_None_filter {A : Type} (f : A -> bool) (l : list A) :
  find f l = None -> filter f l = [].
Proof.
  induction l as [|x l IH]; simpl; [reflexivity|].
  destruct (f x); [discriminate | exact IH].
Qed.

Lemma find_app_cases {A : Type} (f : A -> bool) (l1 l2 : list A) :
  find f (l1 ++ l2)
  = match find f l1 with
    | Some a => Some a
    | None => find f l2
    end.
Proof.
  induction l1 as [|x l1 IH]; [reflexivity|].
  cbn [app find]. destruct (f x); [reflexivity | exact IH].
Qed.

Lemma find_after_delete (id : Z) (rows : list Task.t) :
  find (fun row => Task.id row =? id)
       (filter (fun row => negb (Task.id row =? id)) rows) = None.
Proof.
  induction rows as [|row rows IH]; [reflexivity|].
  cbn [filter]. destruct (Task.id row =? id) eqn:E; cbn [negb]; [exact IH|].
  cbn [find]. rewrite E. exact IH.
Qed.

Lemma find_updated (id : Z) (updates : UpdateTask.t) (rows : list Task.t) :
  find (fun row => Task.id row =? id)
       (map (fun row => apply_updates row updates)
            (filter (fun row => Task.id row =? id) rows))
  = option_map (fun row => apply_updates row updates)
               (find (fun row => Task.id row =? id) rows).
Proof.
  induction rows as [|row rows IH]; [reflexivity|].
  cbn [filter find]. destruct (Task.id row =? id) eqn:E; [|exact IH].
  cbn [map find apply_updates Task.id]. rewrite E. reflexivity.
Qed.

(** After the [UPDATE], the row of the id is the updated one. *)
Lemma find_after_update (id : Z) (updates : UpdateTask.t) (rows : list Task.t) :
  find (fun row => Task.id row =? id)
       (fst (DatabaseStorage.update_where_id id updates rows))
  = option_map (fun row => apply_updates row updates)
               (find (fun row => Task.id row =? id) rows).
Proof.
  unfold DatabaseStorage.update_where_id. cbn [fst].
  rewrite find_app_cases, find_after_delete. apply find_updated.
Qed.

(** What [DatabaseStorage.updateTask] does with updates that the database
    takes. *)
Lemma DatabaseStorage_updateTask_taken {rt : Runtime} (id userId : Z)
  (updates : UpdateTask.t) (this : DatabaseStorage.t) :
  storage_refuses_update Db updates = false ->
  DatabaseStorage.updateTask id userId updates this
  = (Returned match find (fun row => Task.id row =? id) (DatabaseStorage.tasks this) with
              | Some task =>
                  if Task.userId task =? userId then Some (apply_updates task updates)
                  else None
              | None => None
              end,
     {| DatabaseStorage.tasks :=
          fst (DatabaseStorage.update_where_id id updates (DatabaseStorage.tasks this));
        DatabaseStorage.tasks_id_seq := DatabaseStorage.tasks_id_seq this |}).
Proof.
  cbn [storage_refuses_update]. intros H. apply orb_false_elim in H as [Hn Hr].
  unfold DatabaseStorage.updateTask. rewrite Hn, Hr.
  unfold DatabaseStorage.update_where_id. cbn [fst].
  destruct (find (fun row => Task.id row =? id) (DatabaseStorage.tasks this))
    as [task|] eqn:Hf.
  - destruct (find_Some_filter _ _ _ Hf) as [rest ->].
    cbn [map apply_updates Task.userId].
    destruct (Task.userId task =? userId); reflexivity.
  - rewrite (find_None_filter _ _ Hf). reflexivity.
Qed.

(** What it does with updates that the database refuses. *)
Lemma DatabaseStorage_updateTask_refused {rt : Runtime} (id userId : Z)
  (updates : UpdateTask.t) (this : DatabaseStorage.t) :
  storage_refuses_update Db updates = true ->
  DatabaseStorage.updateTask id userId updates this = (Thrown, this).
Proof.
  cbn [storage_refuses_update]. intros H. unfold DatabaseStorage.updateTask.
  destruct (DatabaseStorage.no_values_to_set updates); [reflexivity|].
  cbn [orb] in H. rewrite H. reflexivity.
Qed.


(** C1, on the code: [DatabaseStorage] writes first and compares the owner
    afterwards.  On a table that holds task 1 of user 1, user 2's
    [updateTask] answers [undefined] and yet leaves the row completed, and
    user 2's [deleteTask] answers [false] and yet leaves the table without
    the row; the same two calls on [MemStorage] change nothing. *)
Theorem DatabaseStorage_non_owner_writes {rt : Runtime} :
  stored Db 1 Sample.db = Some (Sample.task_of 1 1)
  /\ DatabaseStorage.updateTask 1 2 Sample.mark_completed Sample.db
     = (Returned None, {| DatabaseStorage.tasks := [Sample.completed_task];
                          DatabaseStorage.tasks_id_seq := 2 |})
  /\ DatabaseStorage.deleteTask 1 2 Sample.db
     = (false, {| DatabaseStorage.tasks := []; DatabaseStorage.tasks_id_seq := 2 |})
  /\ MemStorage.updateTask 1 2 Sample.mark_completed Sample.mem = (None, Sample.mem)
  /\ MemStorage.deleteTask 1 2 Sample.mem = (false, Sample.mem).
Proof. repeat split; reflexivity. Qed.

(** C10, on the code: from corresponding states, a non-owner's update
    followed by the owner's listing is answered differently by the two
    storages, and so is a non-owner's delete followed by the listing. *)
Theorem storages_diverge_after_non_owner_call {rt : Runtime} :
  same_tasks Sample.mem Sample.db
  /\ fst (run_calls [call_updateTask 1 2 Sample.mark_completed; call_getTasksByUserId 1]
                    Sample.mem)
     = [answer_updated None; answer_tasks [Sample.task_of 1 1]]
  /\ fst (run_calls [call_updateTask 1 2 Sample.mark_completed; call_getTasksByUserId 1]
                    Sample.db)
     = [answer_updated None; answer_tasks [Sample.completed_task]]
  /\ fst (run_calls [call_deleteTask 1 2; call_getTasksByUserId 1] Sample.mem)
     = [answer_deleted false; answer_tasks [Sample.task_of 1 1]]
  /\ fst (run_calls [call_deleteTask 1 2; call_getTasksByUserId 1] Sample.db)
     = [answer_deleted false; answer_tasks []].
Proof. repeat split; reflexivity. Qed.

Lemma apply_updates_userId (task : Task.t) (updates : UpdateTask.t) :
  Task.userId (apply_updates task updates) = Task.userId task.
Proof. reflexivity. Qed.

(** What [updateTask] answers when the storage refuses the updates: a throw
    that leaves the storage as it was. *)
Lemma updateTask_refused {rt : Runtime} (b : backend) (s : state_of b) (id userId : Z)
  (updates : UpdateTask.t) :
  storage_refuses_update b updates = true ->
  updateTask id userId updates s = (Thrown, s).
Proof.
  destruct b; [discriminate|]. apply DatabaseStorage_updateTask_refused.
Qed.


Lemma missing_answer {rt : Runtime} (b : backend) (s : state_of b) (id userId : Z)
  (updates : UpdateTask.t) :
  stored b id s = None ->
  fst (updateTask id userId updates s)
  = (if storage_refuses_update b updates then Thrown else Returned None)
  /\ fst (deleteTask id userId s) = false.
Proof.
  intros Hst.
  assert (Hd : fst (deleteTask id userId s) = false).
  { destruct b; cbn [stored] in Hst; cbn.
    - unfold MemStorage.deleteTask. rewrite Hst. reflexivity.
    - unfold DatabaseStorage.deleteTask, DatabaseStorage.delete_where_id.
      rewrite (find_None_filter _ _ Hst). reflexivity. }
  split; [|exact Hd].
  destruct (storage_refuses_update b updates) eqn:Hacc.
  - rewrite (updateTask_refused b s id userId updates Hacc). reflexivity.
  - destruct b; cbn [stored] in Hst; cbn.
    + unfold MemStorage.updateTask. rewrite Hst. reflexivity.
    + rewrite (DatabaseStorage_updateTask_taken _ _ _ _ Hacc), Hst. reflexivity.
Qed.

(** A request body cannot carry a [Date]: the updates parsed from it have
    no [dueDateUtc]. *)
Lemma updateTaskSchema_parse_no_date (body : value) (updates : UpdateTask.t) :
  updateTaskSchema_parse body = Returned updates ->
  UpdateTask.dueDateUtc updates = None.
Proof.
  unfold updateTaskSchema_parse.
  destruct (z_object_fields (Some body)) as [fields|]; simpl; [|discriminate].
  destruct (z_optional z_string (lookup_field "description" fields)); simpl; [|discriminate].
  destruct (z_optional z_string (lookup_field "assignee" fields)); simpl; [|discriminate].
  destruct (lookup_field "dueDateUtc" fields); simpl; [discriminate|].
  destruct (z_optional z_string (lookup_field "dueDateOriginal" fields)); simpl; [|discriminate].
  destruct (z_optional z_string (lookup_field "priority" fields)); simpl; [|discriminate].
  destruct (z_optional z_boolean (lookup_field "completed" fields)); simpl; [|discriminate].
  intros [= <-]. reflexivity.
Qed.

Section RouteAnswers.
Context {rt : Runtime} {S : Type} {storage : IStorage S}.

(** The response of [PUT /api/tasks/:id], from what the storage answers. *)
Lemma put_task_route_response (caller : User.t) (id : Z) (body : value) (w : World S) :
  fst (put_task_route {| req_user := Some caller; req_params_id := id; req_body := body |} w)
  = match updateTaskSchema_parse body with
    | Returned updates =>
        match fst (updateTask id (User.id caller) updates (store w)) with
        | Returned None => {| status := 404; sent := json_error "Task not found" |}
        | Returned (Some task) => {| status := 200; sent := json_task task |}
        | Thrown => {| status := 500; sent := json_error "Failed to update task" |}
        end
    | Thrown => {| status := 500; sent := json_error "Failed to update task" |}
    end.
Proof.
  unfold put_task_route, requireAuth, catch_500, put_task_body, bind, lift; simpl.
  destruct (updateTaskSchema_parse body) as [updates|] eqn:Hp; [|reflexivity].
  rewrite (updateTaskSchema_parse_no_date _ _ Hp).
  unfold ret, storage_updateTask.
  destruct (updateTask id (User.id caller) updates (store w)) as [[[task|]|] s'];
    reflexivity.
Qed.

(** The response of [DELETE /api/tasks/:id], from what the storage
    answers. *)
Lemma delete_task_route_response (caller : User.t) (id : Z) (body : value) (w : World S) :
  fst (delete_task_route {| req_user := Some caller; req_params_id := id; req_body := body |} w)
  = if fst (deleteTask id (User.id caller) (store w))
    then {| status := 204; sent := no_body |}
    else {| status := 404; sent := json_error "Task not found" |}.
Proof.
  unfold delete_task_route, requireAuth, catch_500, delete_task_body, bind,
    storage_deleteTask; simpl.
  destruct (deleteTask id (User.id caller) (store w)) as [[|] s']; reflexivity.
Qed.

End RouteAnswers.


Section OwnershipSamples.
#[local] Existing Instance Sample.runtime.


(** The same request with a body that names no column: [DatabaseStorage]
    throws before it looks for the task, and the route answers 500 in the
    database that holds the task and in the empty one. *)
Example put_without_columns_on_database :
  let req := {| req_user := Some Sample.bob; req_params_id := 1; req_body := JObj [] |} in
  let failed := {| status := 500; sent := json_error "Failed to update task" |} in
  fst (put_task_route (rt := Sample.runtime) req (world_of (S := state_of Db) Sample.db))
  = failed
  /\ fst (put_task_route (rt := Sample.runtime) req
            (world_of (S := state_of Db) DatabaseStorage.empty)) = failed
  /\ fst (put_task_route (rt := Sample.runtime) req (world_of (S := state_of Mem) Sample.mem))
     = {| status := 404; sent := json_error "Task not found" |}.
Proof. repeat split; reflexivity. Qed.

End OwnershipSamples.

(** ** Bulk creation *)

Section RouteSteps.
Context {rt : Runtime}.

(** With the offsets ECMAScript adds and subtracts, [setDate] by [n] days
    moves the local time by [n] days. *)
Lemma setDate_getDate_plus_local (n t : Z) :
  setDate_getDate_plus n t = UTC (LocalTime t + n * msPerDay).
Proof.
  unfold setDate_getDate_plus, MakeDate, Day, TimeWithinDay. f_equal.
  pose proof (Z.div_mod (LocalTime t) msPerDay) as H.
  unfold msPerDay in *. lia.
Qed.

(** On a server whose zone has a fixed offset, that is [n] times 24 hours
    later. *)
Lemma setDate_getDate_plus_fixed_offset (off n t : Z) :
  (forall u isUTC, LocalTZA u isUTC = off) ->
  setDate_getDate_plus n t = t + n * msPerDay.
Proof.
  intros Hoff. rewrite setDate_getDate_plus_local.
  unfold UTC, LocalTime. rewrite !Hoff. lia.
Qed.

End RouteSteps.

Lemma is_string_inv (v : option value) :
  is_string v = true -> exists s, v = Some (JStr s).
Proof. destruct v as [[]|]; simpl; try discriminate. eauto. Qed.

Lemma wellformed_item_inv (item : value) :
  wellformed_item item = true ->
  exists fields d a dd,
    item = JObj fields
    /\ lookup_field "task_description" fields = Some (JStr d)
    /\ lookup_field "assignee" fields = Some (JStr a)
    /\ lookup_field "due_date" fields = Some (JStr dd)
    /\ (lookup_field "priority" fields = None
        \/ exists p, lookup_field "priority" fields = Some (JStr p)).
Proof.
  destruct item; simpl; try discriminate.
  intros H. apply andb_prop in H as [H Hp].
  apply andb_prop in H as [H Hdd]. apply andb_prop in H as [Hd Ha].
  apply is_string_inv in Hd as [d Hd]. apply is_string_inv in Ha as [a Ha].
  apply is_string_inv in Hdd as [dd Hdd].
  exists fields, d, a, dd. repeat split; try assumption.
  destruct (lookup_field "priority" fields) as [v|]; [right | left; reflexivity].
  destruct v; try discriminate. eauto.
Qed.

Section BulkCreate.
Context {rt : Runtime}.

Lemma tomorrow_run {S : Type} (w : World S) :
  tomorrow w = (Returned (DateOf (UTC (LocalTime (clock (ticks w)) + msPerDay))), tick w).
Proof.
  unfold tomorrow, bind, new_Date_now, ret.
  rewrite setDate_getDate_plus_local. rewrite Z.mul_1_l. reflexivity.
Qed.

(** The due date of an item that is not [null]: no clock reading when its
    [due_date] parses, one when it does not. *)
Lemma dueDateUtc_of_run {S : Type} (taskData : value) (due_date : option value)
  (w : World S) :
  prop taskData "due_date" = Returned due_date ->
  dueDateUtc_of taskData w
  = (Returned (due_date_or_tomorrow due_date (clock (ticks w))),
     if isNaN_getTime (Date_new due_date) then tick w else w).
Proof.
  intros Hp. unfold dueDateUtc_of, try_catch, bind, lift, due_date_or_tomorrow.
  rewrite Hp.
  destruct (Date_new due_date) as [t|]; cbn -[tomorrow].
  - reflexivity.
  - rewrite tomorrow_run. reflexivity.
Qed.

(** The due date of [null]: reading [null.due_date] throws inside the inner
    [try], whose [catch] takes tomorrow. *)
Lemma dueDateUtc_of_null {S : Type} (w : World S) :
  dueDateUtc_of JNull w
  = (Returned (DateOf (UTC (LocalTime (clock (ticks w)) + msPerDay))), tick w).
Proof.
  unfold dueDateUtc_of, try_catch, bind, lift. cbn -[tomorrow]. apply tomorrow_run.
Qed.

Lemma due_date_or_tomorrow_valid (v : option value) (now : Z) :
  isNaN_getTime (due_date_or_tomorrow v now) = false.
Proof. unfold due_date_or_tomorrow. destruct (Date_new v); reflexivity. Qed.

Lemma z_date_valid (d : Date) : isNaN_getTime d = false -> z_date d = Returned d.
Proof. destruct d; [reflexivity | discriminate]. Qed.

(** One well-formed item: its due date, then one insert. *)
Lemma create_one_wellformed {S : Type} {storage : IStorage S} (user : User.t)
  (fields : list (string * value)) (d a dd : string) (w : World S) :
  wellformed_item (JObj fields) = true ->
  lookup_field "task_description" fields = Some (JStr d) ->
  lookup_field "assignee" fields = Some (JStr a) ->
  lookup_field "due_date" fields = Some (JStr dd) ->
  create_one user (JObj fields) w
  = storage_createTask
      {| InsertTask.userId := User.id user;
         InsertTask.description := d;
         InsertTask.assignee := a;
         InsertTask.dueDateUtc := due_date_or_tomorrow (Some (JStr dd)) (clock (ticks w));
         InsertTask.dueDateOriginal := dd;
         InsertTask.priority := priority_text (lookup_field "priority" fields);
         InsertTask.completed := Some false |}
      (if isNaN_getTime (Date_new (Some (JStr dd))) then tick w else w).
Proof.
  intros Hwf Hd Ha Hdd.
  apply wellformed_item_inv in Hwf as (fields' & _ & _ & _ & [= <-] & _ & _ & _ & Hp).
  unfold create_one, bind.
  rewrite (dueDateUtc_of_run (JObj fields) (Some (JStr dd))) by (simpl; now rewrite Hdd).
  cbn [lift prop]. rewrite Hd, Ha, Hdd.
  unfold insertTaskSchema_parse.
  rewrite (z_date_valid _ (due_date_or_tomorrow_valid _ _)).
  destruct Hp as [-> | [p ->]]; reflexivity.
Qed.

(** One malformed item: a throw, which the loop catches; nothing is
    stored. *)
Lemma create_one_malformed {S : Type} {storage : IStorage S} (user : User.t)
  (item : value) (w : World S) :
  wellformed_item item = false ->
  exists w',
    create_one user item w = (Thrown, w')
    /\ store w' = store w
    /\ model_requests w' = model_requests w.
Proof.
  intros Hwf. unfold create_one, bind.
  destruct item as [| bl | n | s | items | fields].
  1: { rewrite dueDateUtc_of_null. cbn. eauto. }
  1-4: rewrite (dueDateUtc_of_run _ None) by reflexivity; cbn;
       destruct (isNaN_getTime (Date_new None)); eauto.
  rewrite (dueDateUtc_of_run _ (lookup_field "due_date" fields)) by reflexivity.
  cbn [lift prop].
  set (w1 := if isNaN_getTime (Date_new (lookup_field "due_date" fields))
             then tick w else w).
  assert (Hw1 : store w1 = store w /\ model_requests w1 = model_requests w)
    by (subst w1; destruct (isNaN_getTime _); split; reflexivity).
  exists w1. split; [|exact Hw1].
  simpl in Hwf. unfold insertTaskSchema_parse.
  rewrite (z_date_valid _ (due_date_or_tomorrow_valid _ _)).
  destruct (lookup_field "task_description" fields) as [[]|]; try reflexivity.
  destruct (lookup_field "assignee" fields) as [[]|]; try reflexivity.
  destruct (lookup_field "due_date" fields) as [[]|]; try reflexivity.
  destruct (lookup_field "priority" fields) as [[]|]; try reflexivity;
    discriminate Hwf.
Qed.

End BulkCreate.

(** ** Maps and tables *)

Lemma JsMap_set_fresh {V : Type} (k : Z) (v : V) (m : JsMap.t V) :
  Forall (fun k' => k' < k) (JsMap.keys m) ->
  JsMap.set k v m = (m ++ [(k, v)])%list.
Proof.
  induction m as [|[k' v'] m IH]; simpl; intros H; [reflexivity|].
  inversion H as [|? ? Hlt Hrest]; subst.
  destruct (Z.eqb_spec k k') as [->|_]; [lia|].
  now rewrite IH.
Qed.

Lemma Forall_lt_succ {A : Type} (f : A -> Z) (n : Z) (l : list A) :
  Forall (fun a => f a < n) l -> Forall (fun a => f a < n + 1) l.
Proof. apply Forall_impl. intros a H. lia. Qed.

Lemma JsMap_keys_set_present {V : Type} (k : Z) (v v' : V) (m : JsMap.t V) :
  JsMap.get k m = Some v' -> JsMap.keys (JsMap.set k v m) = JsMap.keys m.
Proof.
  induction m as [|[k' w] m IH]; simpl; [discriminate|].
  destruct (Z.eqb_spec k k') as [->|_]; simpl; [reflexivity|].
  intros H. now rewrite IH.
Qed.

Lemma JsMap_keys_remove {V : Type} (P : Z -> Prop) (k : Z) (m : JsMap.t V) :
  Forall P (JsMap.keys m) -> Forall P (JsMap.keys (JsMap.remove k m)).
Proof.
  induction m as [|[k' w] m IH]; simpl; intros H; [constructor|].
  inversion H; subst.
  destruct (k =? k'); [assumption|]. simpl. constructor; auto.
Qed.

Lemma JsMap_keys_remove_NoDup {V : Type} (k : Z) (m : JsMap.t V) :
  NoDup (JsMap.keys m) -> NoDup (JsMap.keys (JsMap.remove k m)).
Proof.
  induction m as [|[k' w] m IH]; simpl; intros H; [constructor|].
  inversion H as [|? ? Hnotin Hnd]; subst.
  destruct (k =? k'); [assumption|]. simpl. constructor; [|auto].
  intros Hin. apply Hnotin. revert Hin.
  generalize (JsMap_keys_remove (fun x => In x (JsMap.keys m)) k m).
  rewrite !Forall_forall. intros Hsub Hin. apply Hsub; auto.
Qed.

Lemma JsMap_get_set_same {V : Type} (k : Z) (v : V) (m : JsMap.t V) :
  JsMap.get k (JsMap.set k v m) = Some v.
Proof.
  induction m as [|[k' v'] m IH]; simpl.
  - now rewrite Z.eqb_refl.
  - destruct (k =? k') eqn:E; simpl; rewrite ?Z.eqb_refl, ?E; auto.
Qed.

Lemma JsMap_get_set_other {V : Type} (k k' : Z) (v : V) (m : JsMap.t V) :
  k' <> k -> JsMap.get k' (JsMap.set k v m) = JsMap.get k' m.
Proof.
  intros Hne. apply Z.eqb_neq in Hne.
  induction m as [|[k0 v0] m IH]; simpl.
  - now rewrite Hne.
  - destruct (Z.eqb_spec k k0) as [->|_]; simpl.
    + now rewrite Hne.
    + now rewrite IH.
Qed.

Lemma JsMap_get_remove_other {V : Type} (k k' : Z) (m : JsMap.t V) :
  k' <> k -> JsMap.get k' (JsMap.remove k m) = JsMap.get k' m.
Proof.
  intros Hne. apply Z.eqb_neq in Hne.
  induction m as [|[k0 v0] m IH]; simpl; [reflexivity|].
  destruct (Z.eqb_spec k k0) as [->|_]; simpl.
  - now rewrite Hne.
  - now rewrite IH.
Qed.

Lemma JsMap_get_In {V : Type} (k : Z) (v : V) (m : JsMap.t V) :
  JsMap.get k m = Some v -> In k (JsMap.keys m).
Proof.
  induction m as [|[k0 v0] m IH]; simpl; [discriminate|].
  destruct (Z.eqb_spec k k0) as [->|_]; auto.
Qed.

Lemma JsMap_get_not_In {V : Type} (k : Z) (m : JsMap.t V) :
  ~ In k (JsMap.keys m) -> JsMap.get k m = None.
Proof.
  intros H. destruct (JsMap.get k m) as [v|] eqn:E; [|reflexivity].
  elim H. eapply JsMap_get_In, E.
Qed.

Lemma JsMap_get_remove_same {V : Type} (k : Z) (m : JsMap.t V) :
  NoDup (JsMap.keys m) -> JsMap.get k (JsMap.remove k m) = None.
Proof.
  induction m as [|[k0 v0] m IH]; simpl; intros Hnd; [reflexivity|].
  inversion Hnd as [|? ? Hnotin Hnd']; subst.
  destruct (Z.eqb_spec k k0) as [->|Hne]; simpl.
  - apply JsMap_get_not_In, Hnotin.
  - apply Z.eqb_neq in Hne. rewrite Hne. auto.
Qed.

Lemma JsMap_values_set {V : Type} (P : V -> Prop) (k : Z) (v : V) (m : JsMap.t V) :
  P v -> Forall P (JsMap.values m) -> Forall P (JsMap.values (JsMap.set k v m)).
Proof.
  intros Hv. induction m as [|[k' v'] m IH]; simpl; intros H.
  - repeat constructor. exact Hv.
  - inversion H; subst. destruct (k =? k'); simpl; constructor; auto.
Qed.

Lemma JsMap_values_remove {V : Type} (P : V -> Prop) (k : Z) (m : JsMap.t V) :
  Forall P (JsMap.values m) -> Forall P (JsMap.values (JsMap.remove k m)).
Proof.
  induction m as [|[k' v'] m IH]; simpl; intros H; [constructor|].
  inversion H; subst. destruct (k =? k'); [assumption|]. simpl. constructor; auto.
Qed.

Lemma JsMap_get_In_values {V : Type} (k : Z) (v : V) (m : JsMap.t V) :
  JsMap.get k m = Some v -> In v (JsMap.values m).
Proof.
  induction m as [|[k' v'] m IH]; simpl; [discriminate|].
  destruct (k =? k'); [intros [= ->]; auto | auto].
Qed.

Lemma find_id_In (id : Z) (rows : list Task.t) (task : Task.t) :
  find (fun row => Task.id row =? id) rows = Some task -> In id (map Task.id rows).
Proof.
  intros H. apply find_some in H as [Hin E]. apply Z.eqb_eq in E.
  apply in_map_iff. eauto.
Qed.

Lemma find_delete_other (id id' : Z) (rows : list Task.t) :
  id' <> id ->
  find (fun row => Task.id row =? id')
       (filter (fun row => negb (Task.id row =? id)) rows)
  = find (fun row => Task.id row =? id') rows.
Proof.
  intros Hne. induction rows as [|row rows IH]; [reflexivity|].
  cbn [filter find]. destruct (Z.eqb_spec (Task.id row) id) as [E|_]; cbn [negb].
  - destruct (Z.eqb_spec (Task.id row) id') as [E'|_]; [congruence | exact IH].
  - cbn [find]. destruct (Task.id row =? id'); [reflexivity | exact IH].
Qed.

Lemma find_updated_other (id id' : Z) (updates : UpdateTask.t) (rows : list Task.t) :
  id' <> id ->
  find (fun row => Task.id row =? id')
       (map (fun row => apply_updates row updates)
            (filter (fun row => Task.id row =? id) rows)) = None.
Proof.
  intros Hne. induction rows as [|row rows IH]; [reflexivity|].
  cbn [filter]. destruct (Z.eqb_spec (Task.id row) id) as [E|_]; [|exact IH].
  cbn [map find apply_updates Task.id].
  destruct (Z.eqb_spec (Task.id row) id') as [E'|_]; [congruence | exact IH].
Qed.

(** The [UPDATE] leaves the rows of the other ids as they were. *)
Lemma find_update_other (id id' : Z) (updates : UpdateTask.t) (rows : list Task.t) :
  id' <> id ->
  find (fun row => Task.id row =? id')
       (fst (DatabaseStorage.update_where_id id updates rows))
  = find (fun row => Task.id row =? id') rows.
Proof.
  intros Hne. unfold DatabaseStorage.update_where_id. cbn [fst].
  rewrite find_app_cases, find_delete_other, find_updated_other by assumption.
  destruct (find _ rows); reflexivity.
Qed.

Lemma find_append (id : Z) (rows : list Task.t) (task : Task.t) :
  find (fun row => Task.id row =? id) (rows ++ [task])
  = match find (fun row => Task.id row =? id) rows with
    | Some row => Some row
    | None => if Task.id task =? id then Some task else None
    end.
Proof. rewrite find_app_cases. reflexivity. Qed.

Lemma NoDup_ids_filter (f : Task.t -> bool) (rows : list Task.t) :
  NoDup (map Task.id rows) -> NoDup (map Task.id (filter f rows)).
Proof.
  induction rows as [|row rows IH]; cbn [map filter]; intros H; [constructor|].
  inversion H as [|? ? Hnotin Hnd]; subst.
  destruct (f row); [|auto].
  cbn [map]. constructor; [|auto].
  intros Hin. apply Hnotin. apply in_map_iff in Hin as (r & Hr & Hin).
  apply filter_In in Hin as [Hin _]. apply in_map_iff. eauto.
Qed.

(** The [UPDATE] keeps the ids of the table, in another order. *)
Lemma ids_after_update (id : Z) (updates : UpdateTask.t) (rows : list Task.t) :
  Permutation (map Task.id (fst (DatabaseStorage.update_where_id id updates rows)))
              (map Task.id rows).
Proof.
  unfold DatabaseStorage.update_where_id. cbn [fst].
  rewrite map_app, map_map.
  change (fun row => Task.id (apply_updates row updates)) with Task.id.
  induction rows as [|row rows IH]; [constructor|].
  cbn [filter]. destruct (Task.id row =? id); cbn [negb map app].
  - symmetry. apply Permutation_cons_app. symmetry. exact IH.
  - apply perm_skip, IH.
Qed.

(** What holds of every row, and of an updated row when it held before,
    holds of every row after the [UPDATE]. *)
Lemma Forall_after_update (P : Task.t -> Prop) (id : Z) (updates : UpdateTask.t)
  (rows : list Task.t) :
  (forall row, P row -> P (apply_updates row updates)) ->
  Forall P rows ->
  Forall P (fst (DatabaseStorage.update_where_id id updates rows)).
Proof.
  intros Hupd H. rewrite Forall_forall in H.
  unfold DatabaseStorage.update_where_id. cbn [fst].
  apply Forall_app. split; apply Forall_forall; intros row Hin.
  - apply filter_In in Hin as [Hin _]. auto.
  - apply in_map_iff in Hin as (r & <- & Hin). apply filter_In in Hin as [Hin _]. auto.
Qed.

(** ** The steps of the two storages *)

(** A stored id is among the ids in use. *)
Lemma stored_In_ids (b : backend) (id : Z) (s : state_of b) (task : Task.t) :
  stored b id s = Some task -> In id (ids_of b s).
Proof.
  destruct b; cbn [stored ids_of]; [apply JsMap_get_In | apply find_id_In].
Qed.

Lemma not_In_ids_stored (b : backend) (id : Z) (s : state_of b) :
  ~ In id (ids_of b s) -> stored b id s = None.
Proof.
  intros H. destruct (stored b id s) as [task|] eqn:E; [|reflexivity].
  elim H. eapply stored_In_ids, E.
Qed.

Lemma stored_In_all_tasks (b : backend) (id : Z) (s : state_of b) (task : Task.t) :
  stored b id s = Some task -> In task (all_tasks b s).
Proof.
  destruct b; cbn [stored all_tasks].
  - apply JsMap_get_In_values.
  - intros H. apply find_some in H. tauto.
Qed.

Lemma ids_below_next_lt (b : backend) (id : Z) (s : state_of b) :
  ids_below_next b s -> In id (ids_of b s) -> id < next_id b s.
Proof.
  destruct b; cbn [ids_below_next ids_of next_id]; intros H Hin.
  - rewrite Forall_forall in H. auto.
  - apply in_map_iff in Hin as (row & <- & Hin). rewrite Forall_forall in H. auto.
Qed.

Lemma next_id_not_stored (b : backend) (s : state_of b) :
  ids_below_next b s -> stored b (next_id b s) s = None.
Proof.
  intros H. apply not_In_ids_stored. intros Hin.
  pose proof (ids_below_next_lt b _ s H Hin). lia.
Qed.

Lemma ids_below_next_initially :
  ids_below_next Mem MemStorage.new /\ ids_below_next Db DatabaseStorage.empty.
Proof. split; constructor. Qed.

Lemma getTasksByUserId_filter {rt : Runtime} (b : backend) (userId : Z) (s : state_of b) :
  getTasksByUserId userId s
  = filter (fun task => Task.userId task =? userId) (all_tasks b s).
Proof. destruct b; reflexivity. Qed.

Section StorageSteps.
Context {rt : Runtime}.

(** *** [createTask] *)

(** An insert that the storage refuses throws and changes nothing. *)
Lemma createTask_refused (b : backend) (insertTask : InsertTask.t) (now : Z)
  (s : state_of b) :
  storage_refuses_insert b insertTask = true ->
  createTask insertTask now s = (Thrown, s).
Proof.
  destruct b; [discriminate|]. cbn. intros H.
  unfold DatabaseStorage.createTask. rewrite H. reflexivity.
Qed.

(** Any other insert returns a task. *)
Lemma createTask_taken (b : backend) (insertTask : InsertTask.t) (now : Z)
  (s : state_of b) :
  storage_refuses_insert b insertTask = false ->
  exists task s', createTask insertTask now s = (Returned task, s').
Proof.
  destruct b; cbn.
  - intros _. eauto.
  - intros H. unfold DatabaseStorage.createTask. rewrite H. eauto.
Qed.

Lemma createTask_thrown (b : backend) (insertTask : InsertTask.t) (now : Z)
  (s s' : state_of b) :
  createTask insertTask now s = (Thrown, s') ->
  s' = s /\ storage_refuses_insert b insertTask = true.
Proof.
  destruct b; cbn; [discriminate|].
  unfold DatabaseStorage.createTask.
  destruct (DatabaseStorage.refuses_insert insertTask); [|discriminate].
  intros [= <-]. split; reflexivity.
Qed.

Lemma createTask_returned (b : backend) (insertTask : InsertTask.t) (now : Z)
  (s s' : state_of b) (task : Task.t) :
  createTask insertTask now s = (Returned task, s') ->
  storage_refuses_insert b insertTask = false.
Proof.
  intros H. destruct (storage_refuses_insert b insertTask) eqn:E; [|reflexivity].
  rewrite (createTask_refused b _ now s E) in H. discriminate.
Qed.

(** What the created task takes from the insert, in either storage. *)
Lemma createTask_fields (b : backend) (insertTask : InsertTask.t) (now : Z)
  (s s' : state_of b) (task : Task.t) :
  createTask insertTask now s = (Returned task, s') ->
  Task.userId task = InsertTask.userId insertTask
  /\ Task.description task = InsertTask.description insertTask
  /\ Task.assignee task = InsertTask.assignee insertTask
  /\ Task.dueDateUtc task = InsertTask.dueDateUtc insertTask
  /\ Task.dueDateOriginal task = InsertTask.dueDateOriginal insertTask
  /\ (forall p, InsertTask.priority insertTask = Some p -> Task.priority task = Some p)
  /\ (InsertTask.completed insertTask = Some false -> Task.completed task = Some false).
Proof.
  destruct b; cbn.
  - intros [= <- <-]. cbn. repeat split; auto.
  - unfold DatabaseStorage.createTask.
    destruct (DatabaseStorage.refuses_insert insertTask); [discriminate|].
    intros [= <- <-]. cbn. repeat split.
    + intros p ->. reflexivity.
    + intros ->. reflexivity.
Qed.

(** The id of the created task is the next id, which moves on by one; the
    task is stored under it, and every other record stays as it was. *)
Lemma stored_after_create (b : backend) (insertTask : InsertTask.t) (now : Z)
  (s s' : state_of b) (task : Task.t) :
  createTask insertTask now s = (Returned task, s') ->
  Task.id task = next_id b s
  /\ next_id b s' = next_id b s + 1
  /\ (ids_below_next b s -> stored b (next_id b s) s' = Some task)
  /\ (forall id, id <> next_id b s -> stored b id s' = stored b id s).
Proof.
  destruct b; cbn [stored next_id]; cbn.
  - intros [= <- <-]. cbn. repeat split.
    + intros _. apply JsMap_get_set_same.
    + intros id Hne. now apply JsMap_get_set_other.
  - unfold DatabaseStorage.createTask.
    destruct (DatabaseStorage.refuses_insert insertTask); [discriminate|].
    intros [= <- <-]. cbn. repeat split.
    + intros Hids. pose proof (next_id_not_stored Db s Hids) as Hfresh.
      cbn [stored next_id] in Hfresh.
      rewrite find_append, Hfresh. cbn [Task.id]. now rewrite Z.eqb_refl.
    + intros id Hne. rewrite find_append. cbn [Task.id].
      destruct (find (fun row => Task.id row =? id) (DatabaseStorage.tasks s));
        [reflexivity|].
      destruct (Z.eqb_spec (DatabaseStorage.tasks_id_seq s) id); [congruence | reflexivity].
Qed.

(** [createTask] adds the task it returns after the others, and keeps the
    ids below the next one. *)
Lemma createTask_appends (b : backend) (insertTask : InsertTask.t) (now : Z)
  (s s' : state_of b) (task : Task.t) :
  createTask insertTask now s = (Returned task, s') ->
  ids_below_next b s ->
  all_tasks b s' = (all_tasks b s ++ [task])%list
  /\ ids_of b s' = (ids_of b s ++ [next_id b s])%list
  /\ ids_below_next b s'.
Proof.
  destruct b; cbn [all_tasks ids_of next_id ids_below_next]; cbn.
  - intros [= <- <-] Hids. cbn.
    rewrite (JsMap_set_fresh _ _ _ Hids). unfold JsMap.values, JsMap.keys.
    rewrite !map_app. cbn. repeat split.
    apply Forall_app. split.
    + apply (Forall_lt_succ (fun k => k)), Hids.
    + constructor; [lia | constructor].
  - unfold DatabaseStorage.createTask.
    destruct (DatabaseStorage.refuses_insert insertTask); [discriminate|].
    intros [= <- <-] Hids. cbn. rewrite map_app. repeat split.
    apply Forall_app. split.
    + apply (Forall_lt_succ Task.id), Hids.
    + constructor; [simpl; lia | constructor].
Qed.

(** *** [updateTask] *)

Lemma MemStorage_updateTask_returns (id userId : Z) (updates : UpdateTask.t)
  (s : state_of Mem) :
  updateTask id userId updates s
  = (Returned (fst (MemStorage.updateTask id userId updates s)),
     snd (MemStorage.updateTask id userId updates s)).
Proof. cbn. destruct (MemStorage.updateTask id userId updates s). reflexivity. Qed.

(** Updates that the storage takes are answered, and the table or the map
    is the one after the write. *)
Lemma updateTask_taken (b : backend) (id userId : Z) (updates : UpdateTask.t)
  (s : state_of b) :
  storage_refuses_update b updates = false ->
  exists result, fst (updateTask id userId updates s) = Returned result.
Proof.
  destruct b; intros H.
  - rewrite MemStorage_updateTask_returns. eexists. reflexivity.
  - cbn. rewrite (DatabaseStorage_updateTask_taken _ _ _ _ H). eexists. reflexivity.
Qed.

Lemma updateTask_next_id (b : backend) (id userId : Z) (updates : UpdateTask.t)
  (s : state_of b) :
  next_id b (snd (updateTask id userId updates s)) = next_id b s.
Proof.
  destruct b.
  - rewrite MemStorage_updateTask_returns. cbn [snd next_id].
    unfold MemStorage.updateTask.
    destruct (JsMap.get id (MemStorage.tasks s)) as [t|]; [|reflexivity].
    destruct (negb (Task.userId t =? userId)); reflexivity.
  - cbn. destruct (storage_refuses_update Db updates) eqn:E.
    + rewrite (DatabaseStorage_updateTask_refused _ _ _ _ E). reflexivity.
    + rewrite (DatabaseStorage_updateTask_taken _ _ _ _ E). reflexivity.
Qed.

(** What [updateTask] does to the stored records, whoever calls: nothing,
    or the updates applied to the record of its id. *)
Lemma stored_after_update (b : backend) (id0 userId : Z) (updates : UpdateTask.t)
  (s : state_of b) (id : Z) :
  stored b id (snd (updateTask id0 userId updates s)) = stored b id s
  \/ (id = id0
      /\ exists task, stored b id s = Some task
         /\ stored b id (snd (updateTask id0 userId updates s))
            = Some (apply_updates task updates)).
Proof.
  destruct b.
  - rewrite MemStorage_updateTask_returns. cbn [snd stored].
    unfold MemStorage.updateTask.
    destruct (JsMap.get id0 (MemStorage.tasks s)) as [task|] eqn:E; [|left; reflexivity].
    destruct (negb (Task.userId task =? userId)); [left; reflexivity|].
    cbn [snd MemStorage.tasks].
    destruct (Z.eq_dec id id0) as [->|Hne].
    + right. split; [reflexivity|]. exists task. split; [exact E|].
      apply JsMap_get_set_same.
    + left. now apply JsMap_get_set_other.
  - cbn [stored]. cbn. destruct (storage_refuses_update Db updates) eqn:Eacc.
    + rewrite (DatabaseStorage_updateTask_refused _ _ _ _ Eacc). left. reflexivity.
    + rewrite (DatabaseStorage_updateTask_taken _ _ _ _ Eacc).
      cbn [snd DatabaseStorage.tasks].
      destruct (Z.eq_dec id id0) as [->|Hne].
      * rewrite find_after_update.
        destruct (find (fun row => Task.id row =? id0) (DatabaseStorage.tasks s))
          as [task|]; [right | left; reflexivity].
        split; [reflexivity|]. exists task. split; reflexivity.
      * left. now apply find_update_other.
Qed.

(** [updateTask] keeps the ids in use. *)
Lemma ids_after_updateTask (b : backend) (id userId : Z) (updates : UpdateTask.t)
  (s : state_of b) :
  Permutation (ids_of b (snd (updateTask id userId updates s))) (ids_of b s).
Proof.
  destruct b.
  - rewrite MemStorage_updateTask_returns. cbn [snd ids_of].
    unfold MemStorage.updateTask.
    destruct (JsMap.get id (MemStorage.tasks s)) as [task|] eqn:E; [|reflexivity].
    destruct (negb (Task.userId task =? userId)); [reflexivity|].
    cbn [snd MemStorage.tasks]. rewrite (JsMap_keys_set_present _ _ _ _ E). reflexivity.
  - cbn [ids_of]. cbn. destruct (storage_refuses_update Db updates) eqn:Eacc.
    + rewrite (DatabaseStorage_updateTask_refused _ _ _ _ Eacc). reflexivity.
    + rewrite (DatabaseStorage_updateTask_taken _ _ _ _ Eacc).
      cbn [snd DatabaseStorage.tasks]. apply ids_after_update.
Qed.

(** What holds of every stored task, and of an updated task when it held
    before, holds of every stored task after [updateTask]. *)
Lemma all_tasks_after_update (P : Task.t -> Prop) (b : backend) (id userId : Z)
  (updates : UpdateTask.t) (s : state_of b) :
  (forall task, P task -> P (apply_updates task updates)) ->
  Forall P (all_tasks b s) ->
  Forall P (all_tasks b (snd (updateTask id userId updates s))).
Proof.
  intros Hupd H. destruct b.
  - rewrite MemStorage_updateTask_returns. cbn [snd all_tasks] in *.
    unfold MemStorage.updateTask.
    destruct (JsMap.get id (MemStorage.tasks s)) as [task|] eqn:E; [|exact H].
    destruct (negb (Task.userId task =? userId)); [exact H|].
    cbn [snd MemStorage.tasks]. apply JsMap_values_set; [|exact H].
    apply Hupd. rewrite Forall_forall in H. apply H.
    eapply JsMap_get_In_values, E.
  - cbn [all_tasks] in *. cbn. destruct (storage_refuses_update Db updates) eqn:Eacc.
    + rewrite (DatabaseStorage_updateTask_refused _ _ _ _ Eacc). exact H.
    + rewrite (DatabaseStorage_updateTask_taken _ _ _ _ Eacc).
      cbn [snd DatabaseStorage.tasks]. now apply Forall_after_update.
Qed.

(** *** [deleteTask] *)

Lemma deleteTask_next_id (b : backend) (id userId : Z) (s : state_of b) :
  next_id b (snd (deleteTask id userId s)) = next_id b s.
Proof.
  destruct b; cbn [next_id deleteTask backend_storage MemStorage_IStorage
                     DatabaseStorage_IStorage].
  - unfold MemStorage.deleteTask, JsMap.delete.
    destruct (JsMap.get id (MemStorage.tasks s)) as [t|]; [|reflexivity].
    destruct (negb (Task.userId t =? userId)); reflexivity.
  - reflexivity.
Qed.

(** What [deleteTask] does to the stored records, whoever calls: nothing,
    or the record of its id removed. *)
Lemma stored_after_delete (b : backend) (id0 userId : Z) (s : state_of b) (id : Z) :
  NoDup (ids_of b s) ->
  stored b id (snd (deleteTask id0 userId s)) = stored b id s
  \/ (id = id0 /\ stored b id (snd (deleteTask id0 userId s)) = None).
Proof.
  intros Hnd. destruct (Z.eq_dec id id0) as [->|Hne].
  - destruct b; cbn [stored ids_of deleteTask backend_storage MemStorage_IStorage
                       DatabaseStorage_IStorage] in *.
    + unfold MemStorage.deleteTask, JsMap.delete.
      destruct (JsMap.get id0 (MemStorage.tasks s)) as [task|] eqn:E; [|left; exact E].
      destruct (negb (Task.userId task =? userId)); [left; exact E|].
      right. split; [reflexivity|]. cbn. now apply JsMap_get_remove_same.
    + right. split; [reflexivity|].
      unfold DatabaseStorage.deleteTask, DatabaseStorage.delete_where_id. cbn.
      apply find_after_delete.
  - left. destruct b; cbn [stored deleteTask backend_storage MemStorage_IStorage
                             DatabaseStorage_IStorage].
    + unfold MemStorage.deleteTask, JsMap.delete.
      destruct (JsMap.get id0 (MemStorage.tasks s)) as [task|]; [|reflexivity].
      destruct (negb (Task.userId task =? userId)); [reflexivity|].
      cbn. now apply JsMap_get_remove_other.
    + unfold DatabaseStorage.deleteTask, DatabaseStorage.delete_where_id. cbn.
      now apply find_delete_other.
Qed.

Lemma NoDup_ids_after_delete (b : backend) (id userId : Z) (s : state_of b) :
  NoDup (ids_of b s) -> NoDup (ids_of b (snd (deleteTask id userId s))).
Proof.
  destruct b; cbn [ids_of deleteTask backend_storage MemStorage_IStorage
                     DatabaseStorage_IStorage]; intros H.
  - unfold MemStorage.deleteTask, JsMap.delete.
    destruct (JsMap.get id (MemStorage.tasks s)) as [task|]; [|exact H].
    destruct (negb (Task.userId task =? userId)); [exact H|].
    cbn. now apply JsMap_keys_remove_NoDup.
  - unfold DatabaseStorage.deleteTask, DatabaseStorage.delete_where_id. cbn.
    now apply NoDup_ids_filter.
Qed.

(** What holds of every stored task holds of every stored task after
    [deleteTask]. *)
Lemma all_tasks_after_delete (P : Task.t -> Prop) (b : backend) (id userId : Z)
  (s : state_of b) :
  Forall P (all_tasks b s) -> Forall P (all_tasks b (snd (deleteTask id userId s))).
Proof.
  intros H. destruct b; cbn [all_tasks deleteTask backend_storage MemStorage_IStorage
                               DatabaseStorage_IStorage] in *.
  - unfold MemStorage.deleteTask, JsMap.delete.
    destruct (JsMap.get id (MemStorage.tasks s)) as [task|]; [|exact H].
    destruct (negb (Task.userId task =? userId)); [exact H|].
    cbn. now apply JsMap_values_remove.
  - unfold DatabaseStorage.deleteTask, DatabaseStorage.delete_where_id. cbn.
    apply Forall_forall. intros row Hin. apply filter_In in Hin as [Hin _].
    revert row Hin. apply Forall_forall, H.
Qed.

Lemma ids_below_next_after_delete (b : backend) (id userId : Z) (s : state_of b) :
  ids_below_next b s -> ids_below_next b (snd (deleteTask id userId s)).
Proof.
  intros H. destruct b; cbn [ids_below_next deleteTask backend_storage
                               MemStorage_IStorage DatabaseStorage_IStorage] in *.
  - unfold MemStorage.deleteTask, JsMap.delete.
    destruct (JsMap.get id (MemStorage.tasks s)) as [task|] eqn:E; [|exact H].
    destruct (negb (Task.userId task =? userId)); [exact H|].
    cbn [snd MemStorage.tasks MemStorage.currentTaskId].
    apply JsMap_keys_remove, H.
  - unfold DatabaseStorage.deleteTask, DatabaseStorage.delete_where_id. cbn.
    apply Forall_forall. intros row Hin. apply filter_In in Hin as [Hin _].
    revert row Hin. apply Forall_forall, H.
Qed.

Lemma ids_below_next_after_update (b : backend) (id userId : Z) (updates : UpdateTask.t)
  (s : state_of b) :
  ids_below_next b s -> ids_below_next b (snd (updateTask id userId updates s)).
Proof.
  intros H.
  assert (Hall : Forall (fun k => k < next_id b s)
                        (ids_of b (snd (updateTask id userId updates s)))).
  { apply Forall_forall. intros k Hin.
    apply (Permutation_in _ (ids_after_updateTask b id userId updates s)) in Hin.
    now apply ids_below_next_lt. }
  rewrite <- (updateTask_next_id b id userId updates s) in Hall.
  destruct b; cbn [ids_below_next ids_of next_id] in *; [exact Hall|].
  now apply Forall_map in Hall.
Qed.

(** *** Any call *)

Lemma run_calls_cons {S : Type} {storage : IStorage S} (c : call) (rest : list call)
  (s : S) :
  run_calls (c :: rest) s
  = (fst (run_call c s) :: fst (run_calls rest (snd (run_call c s))),
     snd (run_calls rest (snd (run_call c s)))).
Proof.
  cbn [run_calls]. destruct (run_call c s) as [a s']. cbn [fst snd].
  destruct (run_calls rest s') as [answers s'']. reflexivity.
Qed.

(** What a call does to the storage, by the kind of the call. *)
Lemma run_call_createTask (b : backend) (insertTask : InsertTask.t) (now : Z)
  (s : state_of b) :
  (run_call (call_createTask insertTask now) s = (answer_thrown, s))
  \/ exists task s',
       createTask insertTask now s = (Returned task, s')
       /\ run_call (call_createTask insertTask now) s = (answer_created task, s').
Proof.
  cbn [run_call].
  destruct (createTask insertTask now s) as [[task|] s'] eqn:E.
  - right. eauto.
  - left. apply createTask_thrown in E as [-> _]. reflexivity.
Qed.

Lemma run_call_updateTask (b : backend) (id userId : Z) (updates : UpdateTask.t)
  (s : state_of b) :
  snd (run_call (call_updateTask id userId updates) s)
  = snd (updateTask id userId updates s).
Proof.
  cbn [run_call]. destruct (updateTask id userId updates s) as [[r|] s']; reflexivity.
Qed.

Lemma run_call_deleteTask (b : backend) (id userId : Z) (s : state_of b) :
  snd (run_call (call_deleteTask id userId) s) = snd (deleteTask id userId s).
Proof.
  cbn [run_call]. destruct (deleteTask id userId s) as [r s']; reflexivity.
Qed.

(** Every method of either storage keeps the ids in use below the next
    id. *)
Lemma ids_below_next_kept (b : backend) (c : call) (s : state_of b) :
  ids_below_next b s -> ids_below_next b (snd (run_call c s)).
Proof.
  intros H. destruct c as [userId | insertTask now | id userId updates | id userId].
  - exact H.
  - destruct (run_call_createTask b insertTask now s) as [-> | (task & s' & E & ->)];
      [exact H|].
    apply (createTask_appends b _ _ _ _ _ E H).
  - rewrite run_call_updateTask. now apply ids_below_next_after_update.
  - rewrite run_call_deleteTask. now apply ids_below_next_after_delete.
Qed.

(** So does it keep the ids in use distinct. *)
Lemma ids_wellformed_step (b : backend) (c : call) (s : state_of b) :
  ids_wellformed b s -> ids_wellformed b (snd (run_call c s)).
Proof.
  intros [Hnd Hlt]. split; [|now apply ids_below_next_kept].
  destruct c as [userId | insertTask now | id userId updates | id userId].
  - exact Hnd.
  - destruct (run_call_createTask b insertTask now s) as [-> | (task & s' & E & ->)];
      [exact Hnd|].
    cbn [snd]. destruct (createTask_appends b _ _ _ _ _ E Hlt) as (_ & -> & _).
    apply NoDup_app; [exact Hnd | repeat constructor; intros [] |].
    intros a Hin [<-|[]]. pose proof (ids_below_next_lt b _ s Hlt Hin). lia.
  - rewrite run_call_updateTask.
    apply (Permutation_NoDup (Permutation_sym (ids_after_updateTask b id userId updates s))).
    exact Hnd.
  - rewrite run_call_deleteTask. now apply NoDup_ids_after_delete.
Qed.

(** The next id never goes back. *)
Lemma next_id_step (b : backend) (c : call) (s : state_of b) :
  next_id b s <= next_id b (snd (run_call c s)).
Proof.
  destruct c as [userId | insertTask now | id userId updates | id userId].
  - cbn. lia.
  - destruct (run_call_createTask b insertTask now s) as [-> | (task & s' & E & ->)];
      [cbn; lia|].
    destruct (stored_after_create b _ _ _ _ _ E) as (_ & Hn & _). cbn [snd]. lia.
  - rewrite run_call_updateTask, updateTask_next_id. lia.
  - rewrite run_call_deleteTask, deleteTask_next_id. lia.
Qed.

End StorageSteps.

(** ** The loop of the bulk-create route *)

Section BulkCreateRoute.
Context {rt : Runtime}.

(** The insert of a well-formed item carries the texts of the item and its
    due date. *)
Lemma refuses_insert_of_item (b : backend) (userId : Z) (fields : list (string * value))
  (d a dd : string) (due : Date) (completed : option bool) :
  lookup_field "task_description" fields = Some (JStr d) ->
  lookup_field "assignee" fields = Some (JStr a) ->
  lookup_field "due_date" fields = Some (JStr dd) ->
  (lookup_field "priority" fields = None
   \/ exists p, lookup_field "priority" fields = Some (JStr p)) ->
  storage_refuses_insert b
    {| InsertTask.userId := userId;
       InsertTask.description := d;
       InsertTask.assignee := a;
       InsertTask.dueDateUtc := due;
       InsertTask.dueDateOriginal := dd;
       InsertTask.priority := priority_text (lookup_field "priority" fields);
       InsertTask.completed := completed |}
  = storage_refuses_texts b (JObj fields) || storage_refuses_timestamp b due.
Proof.
  intros Hd Ha Hdd Hp. destruct b; [reflexivity|].
  cbn [storage_refuses_insert storage_refuses_texts storage_refuses_timestamp
       item_texts flat_map].
  unfold DatabaseStorage.refuses_insert.
  cbn [InsertTask.description InsertTask.assignee InsertTask.dueDateUtc
       InsertTask.dueDateOriginal InsertTask.priority].
  rewrite Hd, Ha, Hdd.
  destruct Hp as [-> | [p ->]];
    cbn [priority_text DatabaseStorage.refuses_text_if_any app existsb];
    destruct (pg_refuses_text d), (pg_refuses_text a), (pg_refuses_text dd),
      (pg_refuses_timestamp due); try destruct (pg_refuses_text p); reflexivity.
Qed.

(** One item of the loop.  When the item is well-formed and the storage
    takes its row, the task is created from it and stored after the
    others; otherwise the item throws, which the loop catches, and nothing
    is stored. *)
Lemma create_one_cases (b : backend) (user : User.t) (item : value)
  (w : World (state_of b)) :
  ids_below_next b (store w) ->
  if persists_at b item (clock (ticks w))
  then exists task w',
      create_one user item w = (Returned task, w')
      /\ created_from user item task
      /\ Task.dueDateUtc task = item_due item (clock (ticks w))
      /\ all_tasks b (store w') = (all_tasks b (store w) ++ [task])%list
      /\ stored b (Task.id task) (store w') = Some task
      /\ ids_below_next b (store w')
      /\ model_requests w' = model_requests w
  else exists w',
      create_one user item w = (Thrown, w')
      /\ store w' = store w
      /\ model_requests w' = model_requests w.
Proof.
  intros Hids. unfold persists_at.
  destruct (wellformed_item item) eqn:Hwf; cbn [andb].
  2: { apply create_one_malformed. exact Hwf. }
  destruct (wellformed_item_inv _ Hwf)
    as (fields & d & a & dd & -> & Hd & Ha & Hdd & Hp).
  rewrite (create_one_wellformed user fields d a dd w Hwf Hd Ha Hdd).
  set (w1 := if isNaN_getTime (Date_new (Some (JStr dd))) then tick w else w).
  assert (Hs1 : store w1 = store w)
    by (subst w1; destruct (isNaN_getTime _); reflexivity).
  assert (Hm1 : model_requests w1 = model_requests w)
    by (subst w1; destruct (isNaN_getTime _); reflexivity).
  unfold item_due. cbn [prop]. rewrite Hdd.
  set (due := due_date_or_tomorrow (Some (JStr dd)) (clock (ticks w))).
  set (ins := {| InsertTask.userId := User.id user |}).
  pose proof (refuses_insert_of_item b (User.id user) fields d a dd due (Some false)
                Hd Ha Hdd Hp) as Href.
  fold ins in Href. rewrite <- negb_orb, <- Href.
  unfold storage_createTask.
  destruct (storage_refuses_insert b ins) eqn:Er; cbn [negb].
  - rewrite (createTask_refused b ins _ _ Er). eexists. split; [reflexivity|].
    cbn [store model_requests]. split; assumption.
  - destruct (createTask_taken b ins (clock (ticks w1)) (store w1) Er) as (task & s' & E).
    rewrite E. rewrite <- Hs1 in Hids.
    destruct (createTask_fields b _ _ _ _ _ E) as (Hu & Hde & Has & Hdu & Hor & Hpr & Hco).
    destruct (createTask_appends b _ _ _ _ _ E Hids) as (Happ & _ & Hids').
    destruct (stored_after_create b _ _ _ _ _ E) as (Hid & _ & Hst & _).
    exists task. eexists. split; [reflexivity|]. cbn [store model_requests].
    split; [|split; [|split; [|split; [|split]]]].
    + unfold created_from. cbn [prop]. rewrite Hd, Ha, Hdd, Hu, Hde, Has, Hor, Hdu.
      repeat split; try reflexivity.
      * intros p [= Hpp]. apply Hpr. subst ins. cbn [InsertTask.priority].
        rewrite Hpp. reflexivity.
      * apply due_date_or_tomorrow_valid.
      * apply Hco. reflexivity.
    + exact Hdu.
    + rewrite Happ, Hs1. reflexivity.
    + rewrite Hid. apply Hst, Hids.
    + exact Hids'.
    + exact Hm1.
Qed.

(** When the storage takes the fall-back due date, whether an item ends up
    stored does not depend on the clock. *)
Lemma persists_at_persistable (b : backend) (item : value) (n : nat) :
  (forall n, storage_refuses_timestamp b (day_after (clock n)) = false) ->
  persists_at b item (clock n) = persistable b item.
Proof.
  intros Hfb. unfold persists_at, persistable, item_due, due_date_or_tomorrow.
  destruct (prop item "due_date") as [v|].
  - destruct (Date_new v); [reflexivity|].
    fold (day_after (clock n)). rewrite Hfb. reflexivity.
  - rewrite Hfb. reflexivity.
Qed.

(** The loop over the submitted items: it never throws; it adds to
    [createdTasks] one task per item that ends up stored, in order, and
    stores exactly these. *)
Lemma create_loop_spec (b : backend) (user : User.t) (items : list value) :
  forall (createdTasks : list Task.t) (w : World (state_of b)),
    ids_below_next b (store w) ->
    exists kept new w',
      create_loop user items createdTasks w = (Returned (createdTasks ++ new)%list, w')
      /\ Forall2 (created_from user) kept new
      /\ ((forall n, storage_refuses_timestamp b (day_after (clock n)) = false) ->
          kept = filter (persistable b) items)
      /\ all_tasks b (store w') = (all_tasks b (store w) ++ new)%list
      /\ ids_below_next b (store w')
      /\ model_requests w' = model_requests w.
Proof.
  induction items as [|item items IH]; intros createdTasks w Hids.
  - exists [], [], w. cbn. rewrite !app_nil_r.
    repeat split; [constructor | assumption].
  - cbn [create_loop filter]. unfold bind at 1. unfold try_catch, bind at 1.
    pose proof (create_one_cases b user item w Hids) as Hone.
    destruct (persists_at b item (clock (ticks w))) eqn:Hp.
    + destruct Hone as (task & w1 & -> & Hfrom & _ & Happ & _ & Hids1 & Hm1).
      cbn [ret].
      destruct (IH (createdTasks ++ [task])%list w1 Hids1)
        as (kept & new & w' & Hrun & Hall & Hkept & Hstore & Hids' & Hm).
      exists (item :: kept), (task :: new), w'. rewrite Hrun.
      rewrite <- app_assoc. cbn [app]. split; [reflexivity|].
      split; [constructor; assumption|].
      split; [|split; [|split]].
      * intros Hfb. rewrite <- (persists_at_persistable b item (ticks w) Hfb), Hp.
        f_equal. apply Hkept, Hfb.
      * rewrite Hstore, Happ, <- app_assoc. reflexivity.
      * exact Hids'.
      * now rewrite Hm.
    + destruct Hone as (w1 & -> & Hs1 & Hm1).
      cbn [ret].
      destruct (IH createdTasks w1)
        as (kept & new & w' & Hrun & Hall & Hkept & Hstore & Hids' & Hm);
        [rewrite Hs1; exact Hids|].
      exists kept, new, w'. rewrite Hrun. rewrite Hstore, Hs1.
      split; [reflexivity|]. split; [exact Hall|].
      split; [|split; [reflexivity|split; [exact Hids'|now rewrite Hm]]].
      intros Hfb. rewrite <- (persists_at_persistable b item (ticks w) Hfb), Hp.
      apply Hkept, Hfb.
Qed.

End BulkCreateRoute.


Section BulkCreateSamples.
#[local] Existing Instance Sample.runtime.


End BulkCreateSamples.


Section BulkCreateRouteSamples.
#[local] Existing Instance Sample.runtime.


(** The scenario of the specification, computed: the response holds the one
    task of the well-formed item. *)
Example bulk_create_one_malformed_one_wellformed :
  fst (post_tasks_route (rt := Sample.runtime)
         {| req_user := Some Sample.alice; req_params_id := 0;
            req_body :=
              JObj [("tasks",
                     JArr [JObj [("task_description", JStr "book a room");
                                 ("due_date", JStr "Monday");
                                 ("priority", JStr "P1")];
                           JObj [("task_description", JStr "send the report");
                                 ("assignee", JStr "Maya");
                                 ("due_date", JStr "2025-06-20T17:00:00.000Z");
                                 ("priority", JStr "P2")]])] |}
         (world_of (S := state_of Db) DatabaseStorage.empty))
  = {| status := 201;
       sent := json_tasks
                 [{| Task.id := 1;
                     Task.userId := 1;
                     Task.description := "send the report";
                     Task.assignee := "Maya";
                     Task.dueDateUtc := DateOf 1750438800000;
                     Task.dueDateOriginal := "2025-06-20T17:00:00.000Z";
                     Task.priority := Some "P2";
                     Task.completed := Some false;
                     Task.createdAt := Some (DateOf 1749808838054) |}] |}.
Proof. reflexivity. Qed.

(** An item with a NUL character in a text passes the schema; the database
    refuses its row, the loop catches the throw, and the item is skipped
    with the answer 201; [MemStorage] stores it. *)
Example bulk_create_text_the_database_refuses :
  let req :=
    {| req_user := Some Sample.alice; req_params_id := 0;
       req_body :=
         JObj [("tasks",
                JArr [JObj [("task_description", JStr (String Ascii.zero "call the bank"));
                            ("assignee", JStr "Ann");
                            ("due_date", JStr "2025-06-20T17:00:00.000Z")]])] |} in
  post_tasks_route (rt := Sample.runtime) req
    (world_of (S := state_of Db) DatabaseStorage.empty)
  = ({| status := 201; sent := json_tasks [] |},
     world_of (S := state_of Db) DatabaseStorage.empty)
  /\ List.length (all_tasks Mem
        (store (snd (post_tasks_route (rt := Sample.runtime) req
                       (world_of (S := state_of Mem) MemStorage.new))))) = 1%nat.
Proof. split; reflexivity. Qed.

(** The route checks a submitted priority against no enum: any text is
    stored. *)
Example bulk_create_stores_any_priority_text :
  fst (post_tasks_route (rt := Sample.runtime)
         {| req_user := Some Sample.alice; req_params_id := 0;
            req_body :=
              JObj [("tasks",
                     JArr [JObj [("task_description", JStr "send the report");
                                 ("assignee", JStr "Maya");
                                 ("due_date", JStr "2025-06-20T17:00:00.000Z");
                                 ("priority", JStr "urgent")]])] |}
         (world_of (S := state_of Db) DatabaseStorage.empty))
  = {| status := 201;
       sent := json_tasks
                 [{| Task.id := 1;
                     Task.userId := 1;
                     Task.description := "send the report";
                     Task.assignee := "Maya";
                     Task.dueDateUtc := DateOf 1750438800000;
                     Task.dueDateOriginal := "2025-06-20T17:00:00.000Z";
                     Task.priority := Some "urgent";
                     Task.completed := Some false;
                     Task.createdAt := Some (DateOf 1749808838053) |}] |}.
Proof. reflexivity. Qed.

End BulkCreateRouteSamples.

(** ** Extraction *)

Lemma filter_Boolean_app {A : Type} (l1 l2 : list (option A)) :
  filter_Boolean (l1 ++ l2) = (filter_Boolean l1 ++ filter_Boolean l2)%list.
Proof. unfold filter_Boolean. apply flat_map_app. Qed.

(** The validated tasks of an array, around one of its elements. *)
Lemma validatedTasks_around (before after : list value) (task : value) :
  validatedTasks (before ++ task :: after)
  = (validatedTasks before
     ++ match validate_extracted task with
        | Some t => [t]
        | None => []
        end
     ++ validatedTasks after)%list.
Proof.
  unfold validatedTasks. rewrite map_app, filter_Boolean_app. reflexivity.
Qed.

Lemma z_enum_priority_refuses (v : value) :
  is_priority v = false -> z_enum_priority (Some v) = Thrown.
Proof.
  destruct v; try reflexivity.
  cbn [is_priority existsb z_enum_priority]. intros H.
  destruct (String.eqb s "P1"); [discriminate H|].
  destruct (String.eqb s "P2"); [discriminate H|].
  destruct (String.eqb s "P3"); [discriminate H|].
  destruct (String.eqb s "P4"); [discriminate H|].
  reflexivity.
Qed.

(** C4: an element of the model's [tasks] array whose [priority] is present
    and is not "P1", "P2", "P3" or "P4" fails [extractedTaskSchema] and is
    left out of the validated tasks, whatever its other fields; an element
    with no [priority] whose three other fields are strings is kept, with
    priority [P3]. *)
Theorem priority_invalid_dropped_missing_defaulted :
  (forall (fields : list (string * value)) (v : value) (before after : list value),
      lookup_field "priority" fields = Some v ->
      is_priority v = false ->
      extractedTaskSchema_parse (JObj fields) = Thrown
      /\ validatedTasks (before ++ JObj fields :: after)
         = (validatedTasks before ++ validatedTasks after)%list)
  /\ (forall (fields : list (string * value)) (d a dd : string)
        (before after : list value),
      lookup_field "priority" fields = None ->
      lookup_field "task_description" fields = Some (JStr d) ->
      lookup_field "assignee" fields = Some (JStr a) ->
      lookup_field "due_date" fields = Some (JStr dd) ->
      validatedTasks (before ++ JObj fields :: after)
      = (validatedTasks before
         ++ {| ExtractedTask.task_description := d;
               ExtractedTask.assignee := a;
               ExtractedTask.due_date := dd;
               ExtractedTask.priority := P3 |}
         :: validatedTasks after)%list).
Proof.
  split.
  - intros fields v before after Hp Hv.
    assert (Hparse : extractedTaskSchema_parse (JObj fields) = Thrown).
    { unfold extractedTaskSchema_parse. cbn [z_object_fields obind].
      destruct (z_string (lookup_field "task_description" fields)); [|reflexivity].
      destruct (z_string (lookup_field "assignee" fields)); [|reflexivity].
      destruct (z_string (lookup_field "due_date" fields)); [|reflexivity].
      cbn [obind]. rewrite Hp. unfold z_default.
      rewrite (z_enum_priority_refuses v Hv). reflexivity. }
    split; [exact Hparse|].
    rewrite validatedTasks_around. unfold validate_extracted. rewrite Hparse.
    reflexivity.
  - intros fields d a dd before after Hp Hd Ha Hdd.
    rewrite validatedTasks_around. unfold validate_extracted, extractedTaskSchema_parse.
    cbn [z_object_fields obind]. rewrite Hp, Hd, Ha, Hdd. reflexivity.
Qed.

(** The theorem at work, on an array of three elements: priority "P9",
    priority [null], no priority. *)
Lemma priority_invalid_dropped_missing_defaulted_witness :
  validatedTasks
    [JObj [("task_description", JStr "book a room"); ("assignee", JStr "Ann");
           ("due_date", JStr "Monday"); ("priority", JStr "P9")];
     JObj [("task_description", JStr "call the vendor"); ("assignee", JStr "Raj");
           ("due_date", JStr "Tuesday"); ("priority", JNull)];
     JObj [("task_description", JStr "update the database schema");
           ("assignee", JStr "John"); ("due_date", JStr "Friday")]]
  = [{| ExtractedTask.task_description := "update the database schema";
        ExtractedTask.assignee := "John";
        ExtractedTask.due_date := "Friday";
        ExtractedTask.priority := P3 |}].
Proof.
  destruct priority_invalid_dropped_missing_defaulted as [Hdrop Hkeep].
  destruct (Hdrop [("task_description", JStr "book a room"); ("assignee", JStr "Ann");
                   ("due_date", JStr "Monday"); ("priority", JStr "P9")]
              (JStr "P9") []
              [JObj [("task_description", JStr "call the vendor"); ("assignee", JStr "Raj");
                     ("due_date", JStr "Tuesday"); ("priority", JNull)];
               JObj [("task_description", JStr "update the database schema");
                     ("assignee", JStr "John"); ("due_date", JStr "Friday")]]
              eq_refl eq_refl) as [_ H1].
  destruct (Hdrop [("task_description", JStr "call the vendor"); ("assignee", JStr "Raj");
                   ("due_date", JStr "Tuesday"); ("priority", JNull)]
              JNull []
              [JObj [("task_description", JStr "update the database schema");
                     ("assignee", JStr "John"); ("due_date", JStr "Friday")]]
              eq_refl eq_refl) as [_ H2].
  pose proof (Hkeep [("task_description", JStr "update the database schema");
                     ("assignee", JStr "John"); ("due_date", JStr "Friday")]
                "update the database schema" "John" "Friday" [] []
                eq_refl eq_refl eq_refl eq_refl) as H3.
  cbn [app] in H1, H2, H3.
  rewrite H1. cbn [validatedTasks map filter_Boolean flat_map app] in *.
  rewrite H2. exact H3.
Defined.

Lemma transcript_guard (transcript : option value) :
  nonempty_string transcript = negb (negb (truthy transcript) || negb (typeof_string transcript)).
Proof.
  destruct transcript as [[| b | n | s | items | fields]|]; simpl;
    rewrite ?orb_true_r, ?orb_false_r, ?negb_involutive; reflexivity.
Qed.

(** C8: an authenticated extraction request whose [transcript] is missing,
    is not a string or is the empty string is answered
    400 "Transcript is required" and leaves the world as it was: no request
    went to the language model. *)
Theorem empty_transcript_rejected {rt : Runtime} {S : Type} {storage : IStorage S}
  (req : request) (user : User.t) (transcript : option value) (w : World S) :
  req_user req = Some user ->
  prop (req_body req) "transcript" = Returned transcript ->
  nonempty_string transcript = false ->
  extract_tasks_route req w
  = ({| status := 400; sent := json_error "Transcript is required" |}, w)
  /\ model_requests (snd (extract_tasks_route req w)) = model_requests w.
Proof.
  intros Hu Hp Hne.
  assert (H : extract_tasks_route req w
              = ({| status := 400; sent := json_error "Transcript is required" |}, w)).
  { unfold extract_tasks_route, requireAuth, catch_500, extract_tasks_body, bind, lift.
    rewrite Hu, Hp. rewrite transcript_guard in Hne.
    apply negb_false_iff in Hne. rewrite Hne. reflexivity. }
  rewrite H. split; reflexivity.
Qed.

Section EmptyTranscriptRejectedSample.
#[local] Existing Instance Sample.runtime.

(** The theorem at work: a body without [transcript], then one whose
    [transcript] is the empty string. *)
Lemma empty_transcript_rejected_witness :
  fst (extract_tasks_route (rt := Sample.runtime)
         {| req_user := Some Sample.alice; req_params_id := 0; req_body := JObj [] |}
         (world_of (S := state_of Db) Sample.db))
  = {| status := 400; sent := json_error "Transcript is required" |}
  /\ model_requests
       (snd (extract_tasks_route (rt := Sample.runtime)
               {| req_user := Some Sample.alice; req_params_id := 0;
                  req_body := JObj [("transcript", JStr "")] |}
               (world_of (S := state_of Db) Sample.db)))
     = [].
Proof.
  split.
  - destruct (empty_transcript_rejected (rt := Sample.runtime)
                {| req_user := Some Sample.alice; req_params_id := 0; req_body := JObj [] |}
                Sample.alice None (world_of (S := state_of Db) Sample.db)
                eq_refl eq_refl eq_refl) as [H _].
    rewrite H. reflexivity.
  - destruct (empty_transcript_rejected (rt := Sample.runtime)
                {| req_user := Some Sample.alice; req_params_id := 0;
                   req_body := JObj [("transcript", JStr "")] |}
                Sample.alice (Some (JStr "")) (world_of (S := state_of Db) Sample.db)
                eq_refl eq_refl eq_refl) as [_ H].
    exact H.
Defined.

End EmptyTranscriptRejectedSample.

(** The scenario of the specification, computed: one task, priority
    defaulted to [P3], and one request to the model. *)
Example extract_tasks_one_task :
  extract_tasks_route (rt := Sample.runtime)
    {| req_user := Some Sample.alice; req_params_id := 0;
       req_body := JObj [("transcript",
                          JStr "John will update the database schema by Friday.")] |}
    (world_of (S := state_of Db) Sample.db)
  = ({| status := 200;
        sent := json_extracted
                  [{| ExtractedTask.task_description := "update the database schema";
                      ExtractedTask.assignee := "John";
                      ExtractedTask.due_date := "Friday";
                      ExtractedTask.priority := P3 |}] None |},
     {| store := Sample.db; ticks := 0;
        model_requests := ["John will update the database schema by Friday."] |}).
Proof. reflexivity. Qed.

Section ExtractionRoute.
Context {rt : Runtime} {S : Type} {storage : IStorage S}.

(** Whoever sends it and whatever its body, a request without a non-empty
    string as [transcript] sends nothing to the language model. *)
Lemma no_model_request_without_transcript (req : request) (w : World S) :
  (forall transcript,
      prop (req_body req) "transcript" = Returned transcript ->
      nonempty_string transcript = false) ->
  snd (extract_tasks_route req w) = w.
Proof.
  intros Hne.
  unfold extract_tasks_route, requireAuth, catch_500, extract_tasks_body, bind, lift.
  destruct (req_user req); [|reflexivity].
  destruct (prop (req_body req) "transcript") as [transcript|]; [|reflexivity].
  specialize (Hne transcript eq_refl). rewrite transcript_guard in Hne.
  apply negb_false_iff in Hne. rewrite Hne. reflexivity.
Qed.

(** With a transcript, exactly one request goes to the model, and when the
    answer parses to an object with a [tasks] array the response carries its
    validated tasks. *)
Lemma extract_tasks_route_validated (req : request) (user : User.t) (text content : string)
  (result : value) (items : list value) (w : World S) :
  req_user req = Some user ->
  prop (req_body req) "transcript" = Returned (Some (JStr text)) ->
  text <> "" ->
  chat_completions_create system_prompt text = Returned (Some content) ->
  JSON_parse (string_or content "{}") = Returned result ->
  prop result "tasks" = Returned (Some (JArr items)) ->
  extract_tasks_route req w
  = ({| status := 200;
        sent := match validatedTasks items with
                | [] => json_extracted [] (Some "No tasks found")
                | _ :: _ => json_extracted (validatedTasks items) None
                end |},
     {| store := store w; ticks := ticks w; model_requests := text :: model_requests w |}).
Proof.
  intros Hu Hp Hne Hc Hj Ht.
  unfold extract_tasks_route, requireAuth, catch_500, extract_tasks_body, bind, lift,
    openai_create.
  rewrite Hu, Hp. cbn [truthy typeof_string string_content].
  apply String.eqb_neq in Hne. rewrite Hne. cbn [negb orb].
  rewrite Hc, Hj, Ht. cbn [truthy].
  destruct (validatedTasks items); reflexivity.
Qed.

End ExtractionRoute.

(** ** The working set of the review modal *)

Lemma filter_indexed_keep_all {A : Type} (f : A -> nat -> bool) (l : list A) :
  forall i, (forall x j, (i <= j)%nat -> f x j = true) -> TaskReviewModal.filter_indexed f i l = l.
Proof.
  induction l as [|x l IH]; intros i Hf; simpl; [reflexivity|].
  rewrite (Hf x i (Nat.le_refl i)). f_equal.
  apply IH. intros y j Hj. apply Hf. lia.
Qed.

(** Filtering out the element at distance [i] from the current index. *)
Lemma filter_indexed_remove {A : Type} (l : list A) :
  forall k i,
    TaskReviewModal.filter_indexed (fun _ j => negb (Nat.eqb j (k + i))) k l
    = (firstn i l ++ skipn (Datatypes.S i) l)%list.
Proof.
  induction l as [|x l IH]; intros k i.
  - destruct i; reflexivity.
  - cbn [TaskReviewModal.filter_indexed]. destruct i as [|i].
    + rewrite Nat.add_0_r, Nat.eqb_refl. cbn [negb firstn skipn app].
      apply filter_indexed_keep_all. intros _ j Hj.
      apply negb_true_iff, Nat.eqb_neq. lia.
    + destruct (Nat.eqb_spec k (k + Datatypes.S i)) as [E|_]; [lia|].
      cbn [negb firstn skipn app]. f_equal.
      replace (k + Datatypes.S i)%nat with (Datatypes.S k + i)%nat by lia.
      apply IH.
Qed.

(** C6: removing the candidate at index [index] and then appending gives
    the candidates before [index], then those after it, in their order,
    then the blank candidate, which is last.  (At an index past the end
    nothing is removed, and the equation still holds.) *)
Theorem remove_then_append (tasks : list ExtractedTask.t) (index : nat) :
  TaskReviewModal.addNewTask (TaskReviewModal.removeTask index tasks)
  = ((firstn index tasks ++ skipn (Datatypes.S index) tasks)
     ++ [{| ExtractedTask.task_description := "";
            ExtractedTask.assignee := "";
            ExtractedTask.due_date := "";
            ExtractedTask.priority := P3 |}])%list.
Proof.
  unfold TaskReviewModal.addNewTask, TaskReviewModal.removeTask.
  pose proof (filter_indexed_remove tasks 0 index) as H. cbn [Nat.add] in H.
  rewrite H. reflexivity.
Qed.

(** C5: on the empty working set [handleApproveAll] shows the toast
    "No tasks to approve" and starts no mutation: the working set stays
    empty, no bulk-create request is sent, and the server's world (its
    storage included) is what it was. *)
Theorem approve_all_on_empty_set {rt : Runtime} {S : Type} {storage : IStorage S}
  (session : option User.t) (w : World S) :
  TaskReviewModal.handleApproveAll []
  = ([], [TaskReviewModal.toast "No tasks to approve"
            "Add at least one task before approving." true])
  /\ TaskReviewModal.requests_sent session (snd (TaskReviewModal.handleApproveAll [])) = []
  /\ TaskReviewModal.perform session (snd (TaskReviewModal.handleApproveAll [])) w = w.
Proof. repeat split; reflexivity. Qed.

(** On a working set that is not empty, the whole set goes out in one
    bulk-create request. *)
Lemma approve_all_on_nonempty_set (session : option User.t) (task : ExtractedTask.t)
  (tasks : list ExtractedTask.t) :
  TaskReviewModal.requests_sent session
    (snd (TaskReviewModal.handleApproveAll (task :: tasks)))
  = [TaskReviewModal.bulk_create_request session (task :: tasks)].
Proof.
  unfold TaskReviewModal.handleApproveAll.
  cbn [List.length]. rewrite Nat2Z.inj_succ.
  destruct (Z.eqb_spec (Z.succ (Z.of_nat (List.length tasks))) 0) as [E|_]; [lia|].
  reflexivity.
Qed.

(** ** The task list *)

Section TaskList.
Context {rt : Runtime} {S : Type} {storage : IStorage S}.

Lemma map_route_cons {A B : Type} (f : A -> M S B) (a : A) (rest : list A) (w : World S) :
  map_route f (a :: rest) w
  = match f a w with
    | (Returned b, w') =>
        match map_route f rest w' with
        | (Returned bs, w'') => (Returned (b :: bs), w'')
        | (Thrown, w'') => (Thrown, w'')
        end
    | (Thrown, w') => (Thrown, w')
    end.
Proof.
  cbn [map_route]. unfold bind, ret.
  destruct (f a w) as [[b|] w']; [|reflexivity].
  destruct (map_route f rest w') as [[bs|] w'']; reflexivity.
Qed.

Lemma map_route_rendered (timezone : string) (tasks : list Task.t) (w : World S) :
  Forall (fun task => isNaN_getTime (Task.dueDateUtc task) = false) tasks ->
  exists rendered,
    map_route (fun task =>
                 bind (lift (convertUtcToLocal (Task.dueDateUtc task) timezone))
                      (fun dueDateLocal => ret (task, dueDateLocal))) tasks w
    = (Returned rendered, w)
    /\ Forall2 (fun task r =>
                  fst r = task
                  /\ toISOString (Task.dueDateUtc task) = Returned (snd r)) tasks rendered.
Proof.
  induction 1 as [|task tasks Hv _ IH].
  - exists []. split; [reflexivity | constructor].
  - destruct IH as (rendered & Hrun & Hall).
    destruct (Task.dueDateUtc task) as [t|] eqn:Hd; [|discriminate Hv].
    exists ((task, iso_string t) :: rendered). split.
    + match goal with |- context [map_route ?g _ _] => set (f := g) in * end.
      assert (Hf : f task w = (Returned (task, iso_string t), w))
        by (subst f; unfold bind, lift, convertUtcToLocal, ret; rewrite Hd; reflexivity).
      rewrite map_route_cons, Hf, Hrun. reflexivity.
    + constructor; [|exact Hall]. rewrite Hd. split; reflexivity.
Qed.

End TaskList.

(** C9, as the code has it: the string attached to a task of the list is
    the ISO rendering, in UTC, of its stored due date.  The caller's time
    zone is handed to [convertUtcToLocal] and not used: the same request
    from a user with any other [timezone] gets the same response. *)
Theorem due_date_rendering_ignores_timezone {S : Type}
  {storage : IStorage S} (user : User.t) (timezone : string) (id : Z) (body : value)
  (w : World S) :
  let req := fun tz =>
    {| req_user := Some {| User.id := User.id user;
                           User.username := User.username user;
                           User.timezone := tz |};
       req_params_id := id; req_body := body |} in
  (forall utcDate tz, convertUtcToLocal utcDate tz = toISOString utcDate)
  /\ get_tasks_route (req timezone) w = get_tasks_route (req (User.timezone user)) w
  /\ (Forall (fun task => isNaN_getTime (Task.dueDateUtc task) = false)
             (getTasksByUserId (User.id user) (store w)) ->
      exists rendered,
        get_tasks_route (req timezone) w
        = ({| status := 200; sent := json_tasks_local rendered |}, w)
        /\ Forall2 (fun task r =>
                      fst r = task
                      /\ toISOString (Task.dueDateUtc task) = Returned (snd r))
                   (getTasksByUserId (User.id user) (store w)) rendered).
Proof.
  intros req. split; [reflexivity|]. split; [reflexivity|].
  intros Hv.
  destruct (map_route_rendered (string_or timezone "UTC") _ w Hv)
    as (rendered & Hrun & Hall).
  exists rendered. split; [|exact Hall].
  subst req. unfold get_tasks_route, requireAuth, catch_500, get_tasks_body.
  cbn [req_user User.id User.timezone].
  unfold storage_getTasksByUserId, bind in *. rewrite Hrun. reflexivity.
Qed.

(** The theorem at work: alice, whose zone is Asia/Tokyo, asked as if from
    Europe/Paris. *)
Lemma due_date_rendering_ignores_timezone_witness :
  exists rendered,
    get_tasks_route
      {| req_user := Some {| User.id := 1; User.username := "alice";
                             User.timezone := "Europe/Paris" |};
         req_params_id := 0; req_body := JNull |}
      (world_of (S := state_of Mem) Sample.two_owners)
    = ({| status := 200; sent := json_tasks_local rendered |},
       world_of (S := state_of Mem) Sample.two_owners)
    /\ Forall2 (fun task r =>
                  fst r = task
                  /\ toISOString (Task.dueDateUtc task) = Returned (snd r))
               [Sample.task_of 1 1] rendered.
Proof.
  destruct (due_date_rendering_ignores_timezone
              Sample.alice "Europe/Paris" 0 JNull
              (world_of (S := state_of Mem) Sample.two_owners)) as (_ & _ & H).
  apply H. repeat constructor.
Defined.

(** C9 as stated fails: for the same stored instant, 2025-06-20 17:00 UTC,
    a caller in Asia/Tokyo (where it is 02:00 on the 21st) and a caller in
    America/New_York (where it is 13:00 on the 20th) both receive the UTC
    rendering. *)
Lemma due_date_rendering_same_in_tokyo_and_new_york :
  User.timezone Sample.alice = "Asia/Tokyo"
  /\ User.timezone Sample.bob = "America/New_York"
  /\ fst (get_tasks_route
            {| req_user := Some Sample.alice; req_params_id := 0; req_body := JNull |}
            (world_of (S := state_of Mem) Sample.two_owners))
     = {| status := 200;
          sent := json_tasks_local [(Sample.task_of 1 1, "2025-06-20T17:00:00.000Z")] |}
  /\ fst (get_tasks_route
            {| req_user := Some Sample.bob; req_params_id := 0; req_body := JNull |}
            (world_of (S := state_of Mem) Sample.two_owners))
     = {| status := 200;
          sent := json_tasks_local [(Sample.task_of 2 2, "2025-06-20T17:00:00.000Z")] |}.
Proof. repeat split; reflexivity. Qed.

(** ** The defaults of an insert *)

(** An insert without [priority]: the database fills in 'P3', [MemStorage]
    stores [undefined]. *)
Example createTask_defaults_differ :
  let insertTask :=
    {| InsertTask.userId := 1; InsertTask.description := "d";
       InsertTask.assignee := "a"; InsertTask.dueDateUtc := DateOf 0;
       InsertTask.dueDateOriginal := "x"; InsertTask.priority := None;
       InsertTask.completed := Some false |} in
  Task.priority (fst (MemStorage.createTask insertTask 0 MemStorage.new)) = None
  /\ exists task,
       fst (DatabaseStorage.createTask (rt := Sample.runtime) insertTask 0
              DatabaseStorage.empty) = Returned task
       /\ Task.priority task = Some "P3".
Proof. split; [reflexivity|]. eexists. split; reflexivity. Qed.

(* ===================================================================== *)
(** * Further properties of the storages *)
(* ===================================================================== *)

(** ** Create, then look up *)



(** A description with a NUL character: the database refuses the insert,
    and the table stays as it was. *)
Example createTask_text_the_database_refuses :
  DatabaseStorage.createTask (rt := Sample.runtime)
    {| InsertTask.userId := 2;
       InsertTask.description := String Ascii.zero "book a room";
       InsertTask.assignee := "Ann"; InsertTask.dueDateUtc := DateOf 0;
       InsertTask.dueDateOriginal := "Monday";
       InsertTask.priority := None;
       InsertTask.completed := None |} 5 Sample.db
  = (Thrown, Sample.db).
Proof. reflexivity. Qed.

(** ** Update and delete by the owner *)

(** In either storage, [updateTask] called by the owner of the stored task
    with updates that the storage takes ([MemStorage] takes all updates,
    [DatabaseStorage] those that set a column and carry no value that
    PostgreSQL refuses) returns the task with the updates applied, stores
    it under the same id and leaves every other record as it was.  With
    updates that the storage refuses, [updateTask] throws and the storage
    stays as it was. *)
Theorem updateTask_by_owner {rt : Runtime} (b : backend) (id : Z) (updates : UpdateTask.t)
  (s : state_of b) (task : Task.t) :
  stored b id s = Some task ->
  if storage_refuses_update b updates
  then updateTask id (Task.userId task) updates s = (Thrown, s)
  else
    let s' := snd (updateTask id (Task.userId task) updates s) in
    fst (updateTask id (Task.userId task) updates s)
    = Returned (Some (apply_updates task updates))
    /\ stored b id s' = Some (apply_updates task updates)
    /\ (forall id', id' <> id -> stored b id' s' = stored b id' s).
Proof.
  intros Hst. destruct (storage_refuses_update b updates) eqn:Er.
  - now apply updateTask_refused.
  - intros s'. subst s'. split; [|split].
    + destruct b; cbn [stored] in Hst.
      * rewrite MemStorage_updateTask_returns. cbn [fst].
        unfold MemStorage.updateTask. rewrite Hst, Z.eqb_refl. reflexivity.
      * cbn. rewrite (DatabaseStorage_updateTask_taken _ _ _ _ Er), Hst, Z.eqb_refl.
        reflexivity.
    + destruct b; cbn [stored] in *.
      * rewrite MemStorage_updateTask_returns. cbn [snd].
        unfold MemStorage.updateTask. rewrite Hst, Z.eqb_refl.
        cbn [negb snd MemStorage.tasks]. apply JsMap_get_set_same.
      * cbn. rewrite (DatabaseStorage_updateTask_taken _ _ _ _ Er).
        cbn [snd DatabaseStorage.tasks]. rewrite find_after_update, Hst. reflexivity.
    + intros id' Hne.
      destruct (stored_after_update b id (Task.userId task) updates s id')
        as [H | [E _]]; [exact H | contradiction].
Qed.

Lemma updateTask_by_owner_witness :
  stored Db 1 (snd (DatabaseStorage.updateTask (rt := Sample.runtime) 1 1
                      Sample.mark_completed Sample.db))
  = Some Sample.completed_task.
Proof.
  pose proof (updateTask_by_owner (rt := Sample.runtime) Db 1 Sample.mark_completed
                Sample.db (Sample.task_of 1 1) eq_refl) as H.
  cbn [storage_refuses_update DatabaseStorage.no_values_to_set Sample.mark_completed
       UpdateTask.description UpdateTask.assignee UpdateTask.dueDateUtc
       UpdateTask.dueDateOriginal UpdateTask.priority UpdateTask.completed
       DatabaseStorage.refuses_update DatabaseStorage.refuses_text_if_any
       DatabaseStorage.refuses_timestamp_if_any orb] in H.
  destruct H as (_ & H & _). exact H.
Defined.

(** Updates that set no column, and updates with a text that holds a NUL
    character: [DatabaseStorage] throws, [MemStorage] answers. *)
Example updateTask_the_database_refuses :
  let nothing :=
    {| UpdateTask.description := None; UpdateTask.assignee := None;
       UpdateTask.dueDateUtc := None; UpdateTask.dueDateOriginal := None;
       UpdateTask.priority := None; UpdateTask.completed := None |} in
  let nul :=
    {| UpdateTask.description := Some (String Ascii.zero "x");
       UpdateTask.assignee := None;
       UpdateTask.dueDateUtc := None; UpdateTask.dueDateOriginal := None;
       UpdateTask.priority := None; UpdateTask.completed := None |} in
  DatabaseStorage.updateTask (rt := Sample.runtime) 1 1 nothing Sample.db
  = (Thrown, Sample.db)
  /\ DatabaseStorage.updateTask (rt := Sample.runtime) 1 1 nul Sample.db
     = (Thrown, Sample.db)
  /\ fst (MemStorage.updateTask 1 1 nothing Sample.mem) = Some (Sample.task_of 1 1).
Proof. repeat split; reflexivity. Qed.

(** After an update, the database lists the updated row after the rows it
    left alone; the [Map] keeps the entry at its place. *)
Example updateTask_order_of_the_listing :
  let rows := [Sample.task_of 1 1; Sample.task_of 2 1] in
  DatabaseStorage.getTasksByUserId 1
    (snd (DatabaseStorage.updateTask (rt := Sample.runtime) 1 1 Sample.mark_completed
            {| DatabaseStorage.tasks := rows; DatabaseStorage.tasks_id_seq := 3 |}))
  = [Sample.task_of 2 1; Sample.completed_task]
  /\ MemStorage.getTasksByUserId 1
       (snd (MemStorage.updateTask 1 1 Sample.mark_completed
               {| MemStorage.tasks := entries_of rows; MemStorage.currentTaskId := 3 |}))
     = [Sample.completed_task; Sample.task_of 2 1].
Proof. split; reflexivity. Qed.

(** In either storage whose ids are not in use twice, [deleteTask] called
    by the owner of the stored task returns [true], leaves no record under
    the id and leaves every other record as it was. *)
Theorem deleteTask_by_owner {rt : Runtime} (b : backend) (id : Z) (s : state_of b)
  (task : Task.t) :
  NoDup (ids_of b s) ->
  stored b id s = Some task ->
  let s' := snd (deleteTask id (Task.userId task) s) in
  fst (deleteTask id (Task.userId task) s) = true
  /\ stored b id s' = None
  /\ (forall id', id' <> id -> stored b id' s' = stored b id' s).
Proof.
  intros Hnd Hst s'. subst s'. split; [|split].
  - destruct b; cbn [stored deleteTask backend_storage MemStorage_IStorage
                       DatabaseStorage_IStorage] in *.
    + unfold MemStorage.deleteTask, JsMap.delete. rewrite Hst, Z.eqb_refl. reflexivity.
    + destruct (find_Some_filter _ _ _ Hst) as [rest Hf].
      unfold DatabaseStorage.deleteTask, DatabaseStorage.delete_where_id.
      rewrite Hf. cbn [fst List.length]. rewrite Z.eqb_refl. reflexivity.
  - destruct b; cbn [stored ids_of deleteTask backend_storage MemStorage_IStorage
                       DatabaseStorage_IStorage] in *.
    + unfold MemStorage.deleteTask, JsMap.delete. rewrite Hst, Z.eqb_refl. cbn.
      now apply JsMap_get_remove_same.
    + unfold DatabaseStorage.deleteTask, DatabaseStorage.delete_where_id. cbn.
      apply find_after_delete.
  - intros id' Hne.
    destruct (stored_after_delete b id (Task.userId task) s id' Hnd)
      as [H | [E _]]; [exact H | contradiction].
Qed.

Lemma deleteTask_by_owner_witness :
  fst (DatabaseStorage.deleteTask 1 1 Sample.db) = true
  /\ stored Db 1 (snd (DatabaseStorage.deleteTask 1 1 Sample.db)) = None.
Proof.
  destruct (deleteTask_by_owner (rt := Sample.runtime) Db 1 Sample.db (Sample.task_of 1 1))
    as (H1 & H2 & _).
  - repeat constructor. intros [].
  - reflexivity.
  - split; [exact H1 | exact H2].
Defined.

(** ** Ids are not reused, owners stay the same *)

(** A call that creates a task gives it the next id, which moves on. *)
Lemma run_call_created {rt : Runtime} (b : backend) (c : call) (s : state_of b) :
  match fst (run_call c s) with
  | answer_created task =>
      Task.id task = next_id b s /\ next_id b (snd (run_call c s)) = next_id b s + 1
  | _ => True
  end.
Proof.
  destruct c as [userId | insertTask now | id userId updates | id userId];
    cbn [run_call].
  - exact I.
  - destruct (createTask insertTask now s) as [[task|] s'] eqn:E; cbn [fst snd];
      [|exact I].
    destruct (stored_after_create b _ _ _ _ _ E) as (Hid & Hnext & _). now split.
  - destruct (updateTask id userId updates s) as [[r|] s']; exact I.
  - destruct (deleteTask id userId s) as [r s']; exact I.
Qed.

(** The ids handed out by a sequence of calls are pairwise distinct, and
    none of them is among the ids [seen] below the next id at the start. *)
Lemma created_ids_fresh {rt : Runtime} (b : backend) (calls : list call) :
  forall (s : state_of b) (seen : list Z),
    NoDup seen ->
    Forall (fun id => id < next_id b s) seen ->
    NoDup (seen ++ created_ids (fst (run_calls calls s)))%list.
Proof.
  induction calls as [|c calls IH]; intros s seen Hnd Hlt.
  - cbn. now rewrite app_nil_r.
  - rewrite run_calls_cons. cbn [fst created_ids flat_map].
    fold (created_ids (fst (run_calls calls (snd (run_call c s))))).
    assert (Hlt' : Forall (fun id => id < next_id b (snd (run_call c s))) seen).
    { revert Hlt. apply Forall_impl. intros id H.
      pose proof (next_id_step b c s). lia. }
    pose proof (run_call_created b c s) as Hc.
    destruct (fst (run_call c s)) as [tasks | task | r | r |]; cbn [app];
      try (apply IH; assumption).
    destruct Hc as [Hid Hnext].
    change (seen ++ Task.id task :: ?l)%list with (seen ++ [Task.id task] ++ l)%list.
    rewrite app_assoc. apply IH.
    + apply NoDup_app; [exact Hnd | repeat constructor; intros [] |].
      intros a Hin [<-|[]]. rewrite Forall_forall in Hlt.
      specialize (Hlt _ Hin). lia.
    + apply Forall_app. split; [exact Hlt'|].
      constructor; [lia | constructor].
Qed.

(** In either storage, every sequence of calls keeps the ids in use
    distinct and below the next id, and never hands out an id twice: the
    ids of the tasks it creates are pairwise distinct, and none of them is
    an id that was in use at the start, whether or not the task stored
    under it has been deleted since. *)
Theorem ids_wellformed_kept {rt : Runtime} (b : backend) (calls : list call)
  (s : state_of b) :
  ids_wellformed b s ->
  ids_wellformed b (snd (run_calls calls s))
  /\ NoDup (ids_of b s ++ created_ids (fst (run_calls calls s)))%list.
Proof.
  intros H. split.
  - revert s H. induction calls as [|c calls IH]; intros s H; [exact H|].
    rewrite run_calls_cons. cbn [snd]. apply IH, ids_wellformed_step, H.
  - destruct H as [Hnd Hlt]. apply created_ids_fresh; [exact Hnd|].
    apply Forall_forall. intros id Hin. now apply ids_below_next_lt.
Qed.

Lemma ids_wellformed_kept_witness :
  let insertTask :=
    {| InsertTask.userId := 2; InsertTask.description := "d";
       InsertTask.assignee := "a"; InsertTask.dueDateUtc := DateOf 0;
       InsertTask.dueDateOriginal := "x"; InsertTask.priority := None;
       InsertTask.completed := None |} in
  NoDup (ids_of Mem Sample.two_owners
         ++ created_ids
              (fst (run_calls [call_deleteTask 2 2; call_createTask insertTask 7;
                               call_deleteTask 3 2; call_createTask insertTask 8]
                      Sample.two_owners)))%list.
Proof.
  intros insertTask.
  apply (ids_wellformed_kept (rt := Sample.runtime) Mem
           [call_deleteTask 2 2; call_createTask insertTask 7;
            call_deleteTask 3 2; call_createTask insertTask 8] Sample.two_owners).
  split.
  - repeat constructor; cbn; intuition discriminate.
  - repeat constructor.
Defined.

(** The owner of a stored id, if any. *)
Lemma owner_step {rt : Runtime} (b : backend) (c : call) (s : state_of b) (id owner : Z) :
  ids_wellformed b s ->
  id < next_id b s ->
  (forall task, stored b id s = Some task -> Task.userId task = owner) ->
  id < next_id b (snd (run_call c s))
  /\ (forall task, stored b id (snd (run_call c s)) = Some task ->
        Task.userId task = owner).
Proof.
  intros [Hnd Hlt] Hid Hown.
  split; [pose proof (next_id_step b c s); lia|].
  destruct c as [userId | insertTask now | id0 userId updates | id0 userId].
  - exact Hown.
  - destruct (run_call_createTask b insertTask now s) as [-> | (task & s' & E & ->)];
      [exact Hown|].
    destruct (stored_after_create b _ _ _ _ _ E) as (_ & _ & _ & Hother).
    cbn [snd]. intros task' H. apply Hown. rewrite <- H. symmetry.
    apply Hother. lia.
  - rewrite run_call_updateTask. intros task' H.
    destruct (stored_after_update b id0 userId updates s id)
      as [Hst | (_ & t & Ht & Hst)].
    + apply Hown. now rewrite <- Hst.
    + rewrite Hst in H. injection H as <-. cbn [apply_updates Task.userId]. auto.
  - rewrite run_call_deleteTask. intros task' H.
    destruct (stored_after_delete b id0 userId s id Hnd) as [Hst | [_ Hst]].
    + apply Hown. now rewrite <- Hst.
    + congruence.
Qed.

(** In either storage, no sequence of calls changes the owner of a stored
    id: whatever task is found under the id afterwards belongs to the user
    the task stored there at first belonged to (ids are not reused, and an
    update never writes [userId]). *)
Theorem owner_never_changes {rt : Runtime} (b : backend) (calls : list call)
  (s : state_of b) (id : Z) (task task' : Task.t) :
  ids_wellformed b s ->
  stored b id s = Some task ->
  stored b id (snd (run_calls calls s)) = Some task' ->
  Task.userId task' = Task.userId task.
Proof.
  intros Hwf Hst.
  assert (Hid : id < next_id b s)
    by (destruct Hwf as [_ Hlt]; eapply ids_below_next_lt, stored_In_ids; eauto).
  assert (Hown : forall t, stored b id s = Some t -> Task.userId t = Task.userId task)
    by (intros t Ht; congruence).
  clear Hst. revert s Hwf Hid Hown.
  induction calls as [|c calls IH]; intros s Hwf Hid Hown H.
  - apply Hown, H.
  - rewrite run_calls_cons in H. cbn [snd] in H.
    destruct (owner_step b c s id (Task.userId task) Hwf Hid Hown) as [Hid' Hown'].
    exact (IH _ (ids_wellformed_step b c s Hwf) Hid' Hown' H).
Qed.

Lemma owner_never_changes_witness :
  Task.userId Sample.completed_task = Task.userId (Sample.task_of 1 1).
Proof.
  apply (owner_never_changes (rt := Sample.runtime) Db
           [call_updateTask 1 2 Sample.mark_completed; call_deleteTask 5 1]
           Sample.db 1 (Sample.task_of 1 1) Sample.completed_task).
  - split; repeat constructor. intros [].
  - reflexivity.
  - reflexivity.
Defined.

(** ** [MemStorage] and callers who are not the owner *)

(** Any sequence of [updateTask] and [deleteTask] calls on [MemStorage],
    each on a stored task by someone who is not its owner, is answered
    "not found" throughout and leaves the storage exactly as it was. *)
Theorem MemStorage_ignores_non_owners (calls : list call) (m : MemStorage.t) :
  Forall (by_non_owner m) calls ->
  run_calls calls m = (map not_found_answer calls, m).
Proof.
  induction 1 as [|c calls Hc _ IH]; [reflexivity|].
  assert (Hstep : run_call c m = (not_found_answer c, m)).
  { destruct c as [userId | insertTask now | id userId updates | id userId];
      cbn [by_non_owner] in Hc; try contradiction;
      destruct (JsMap.get id (MemStorage.tasks m)) as [task|] eqn:E; try contradiction;
      destruct (MemStorage_non_owner_unchanged m id userId
                  {| UpdateTask.description := None; UpdateTask.assignee := None;
                     UpdateTask.dueDateUtc := None; UpdateTask.dueDateOriginal := None;
                     UpdateTask.priority := None; UpdateTask.completed := None |}
                  task E Hc) as [_ Hd].
    - destruct (MemStorage_non_owner_unchanged m id userId updates task E Hc) as [Hu _].
      cbn [run_call updateTask MemStorage_IStorage]. now rewrite Hu.
    - cbn [run_call deleteTask MemStorage_IStorage]. now rewrite Hd. }
  rewrite run_calls_cons, Hstep. cbn [fst snd]. rewrite IH. reflexivity.
Qed.

Lemma MemStorage_ignores_non_owners_witness :
  run_calls [call_updateTask 1 2 Sample.mark_completed; call_deleteTask 1 2;
             call_deleteTask 2 1] Sample.two_owners
  = ([answer_updated None; answer_deleted false; answer_deleted false],
     Sample.two_owners).
Proof.
  apply (MemStorage_ignores_non_owners
           [call_updateTask 1 2 Sample.mark_completed; call_deleteTask 1 2;
            call_deleteTask 2 1] Sample.two_owners).
  repeat constructor; cbn; discriminate.
Defined.

(** ** What the owner's update and delete answer *)

Lemma owner_update_result {rt : Runtime} (b : backend) (id : Z) (updates : UpdateTask.t)
  (s : state_of b) (task : Task.t) :
  stored b id s = Some task ->
  storage_refuses_update b updates = false ->
  fst (updateTask id (Task.userId task) updates s)
  = Returned (Some (apply_updates task updates))
  /\ stored b id (snd (updateTask id (Task.userId task) updates s))
     = Some (apply_updates task updates).
Proof.
  intros Hst Er. destruct b; cbn [stored] in *.
  - rewrite MemStorage_updateTask_returns. cbn [fst snd].
    unfold MemStorage.updateTask. rewrite Hst, Z.eqb_refl.
    cbn [negb fst snd MemStorage.tasks].
    split; [reflexivity | apply JsMap_get_set_same].
  - cbn. rewrite (DatabaseStorage_updateTask_taken _ _ _ _ Er), Hst, Z.eqb_refl.
    cbn [fst snd DatabaseStorage.tasks]. rewrite find_after_update, Hst.
    split; reflexivity.
Qed.

Lemma owner_delete_result {rt : Runtime} (b : backend) (id : Z) (s : state_of b)
  (task : Task.t) :
  NoDup (ids_of b s) ->
  stored b id s = Some task ->
  fst (deleteTask id (Task.userId task) s) = true
  /\ stored b id (snd (deleteTask id (Task.userId task) s)) = None.
Proof.
  intros Hnd Hst.
  destruct b; cbn [stored ids_of deleteTask backend_storage MemStorage_IStorage
                     DatabaseStorage_IStorage] in *.
  - unfold MemStorage.deleteTask, JsMap.delete. rewrite Hst, Z.eqb_refl. cbn.
    split; [reflexivity | now apply JsMap_get_remove_same].
  - destruct (find_Some_filter _ _ _ Hst) as [rest Hf].
    unfold DatabaseStorage.deleteTask, DatabaseStorage.delete_where_id.
    rewrite Hf. cbn [fst snd List.length DatabaseStorage.tasks]. rewrite Z.eqb_refl.
    split; [reflexivity | apply find_after_delete].
Qed.

(** ** Where the two storages agree *)





Section Agreement.
Context {rt : Runtime}.



End Agreement.



(** ** Users *)

Lemma find_app_first {A : Type} (f : A -> bool) (l : list A) (a : A) :
  find f (l ++ [a])
  = match find f l with
    | Some x => Some x
    | None => if f a then Some a else None
    end.
Proof.
  induction l as [|x l IH]; cbn [app find]; [reflexivity|].
  destruct (f x); [reflexivity | exact IH].
Qed.

(** [MemStorage.createUser] stores the user it returns under a new id and
    leaves the other users as they were; it does not look at the username:
    when the name is already taken the new user is stored all the same,
    and [getUserByUsername] goes on returning the earlier user. *)
Theorem MemStorage_createUser_then_get (insertUser : InsertUser.t) (now : Z)
  (this : MemStorageUsers.t) :
  Forall (fun k => k < MemStorageUsers.currentUserId this)
         (JsMap.keys (MemStorageUsers.users this)) ->
  let user := fst (MemStorageUsers.createUser insertUser now this) in
  let this' := snd (MemStorageUsers.createUser insertUser now this) in
  StoredUser.id user = MemStorageUsers.currentUserId this
  /\ MemStorageUsers.getUser (StoredUser.id user) this' = Some user
  /\ (forall id, id <> StoredUser.id user ->
        MemStorageUsers.getUser id this' = MemStorageUsers.getUser id this)
  /\ MemStorageUsers.getUserByUsername (InsertUser.username insertUser) this'
     = match MemStorageUsers.getUserByUsername (InsertUser.username insertUser) this with
       | Some earlier => Some earlier
       | None => Some user
       end.
Proof.
  intros Hids user this'. subst user this'.
  unfold MemStorageUsers.createUser, MemStorageUsers.getUser,
    MemStorageUsers.getUserByUsername.
  cbn [fst snd StoredUser.id MemStorageUsers.users].
  split; [reflexivity|]. split; [apply JsMap_get_set_same|].
  split; [intros id Hne; now apply JsMap_get_set_other|].
  rewrite (JsMap_set_fresh _ _ _ Hids). unfold JsMap.values.
  rewrite map_app. cbn [map snd]. rewrite find_app_first.
  cbn [StoredUser.username]. rewrite String.eqb_refl. reflexivity.
Qed.

Lemma MemStorage_createUser_then_get_witness :
  let first := fst (MemStorageUsers.createUser
                      {| InsertUser.username := "ann"; InsertUser.password := "p1";
                         InsertUser.timezone := None |} 5 MemStorageUsers.new) in
  let this := snd (MemStorageUsers.createUser
                     {| InsertUser.username := "ann"; InsertUser.password := "p1";
                        InsertUser.timezone := None |} 5 MemStorageUsers.new) in
  MemStorageUsers.getUserByUsername "ann"
    (snd (MemStorageUsers.createUser
            {| InsertUser.username := "ann"; InsertUser.password := "p2";
               InsertUser.timezone := Some "Asia/Tokyo" |} 6 this))
  = Some first.
Proof.
  intros first this.
  destruct (MemStorage_createUser_then_get
              {| InsertUser.username := "ann"; InsertUser.password := "p2";
                 InsertUser.timezone := Some "Asia/Tokyo" |} 6 this) as (_ & _ & _ & H).
  - repeat constructor.
  - exact H.
Defined.

(* ===================================================================== *)
(** * Further properties of the routes *)
(* ===================================================================== *)

Section RouteWorlds.
Context {rt : Runtime} {S : Type} {storage : IStorage S}.

Lemma serve_unauthenticated (r : route) (req : request) (w : World S) :
  req_user req = None -> serve r req w = (unauthenticated, w).
Proof.
  intros H. destruct r; cbn [serve];
    unfold extract_tasks_route, get_tasks_route, post_tasks_route, put_task_route,
      delete_task_route, requireAuth; rewrite H; reflexivity.
Qed.

Lemma serve_all_cons (r : route) (req : request) (rest : list (route * request))
  (w : World S) :
  serve_all ((r, req) :: rest) w
  = (fst (serve r req w) :: fst (serve_all rest (snd (serve r req w))),
     snd (serve_all rest (snd (serve r req w)))).
Proof.
  cbn [serve_all]. destruct (serve r req w) as [res w']. cbn [fst snd].
  destruct (serve_all rest w') as [responses w'']. reflexivity.
Qed.

Lemma map_route_world {A B : Type} (f : A -> M S B) (l : list A) :
  (forall a w, snd (f a w) = w) -> forall w, snd (map_route f l w) = w.
Proof.
  intros Hf. induction l as [|a l IH]; intros w; [reflexivity|].
  rewrite map_route_cons. specialize (Hf a w).
  destruct (f a w) as [[b|] w']; cbn [snd] in Hf; subst w'; [|reflexivity].
  specialize (IH w).
  destruct (map_route f l w) as [[bs|] w']; cbn [snd] in IH; subst w'; reflexivity.
Qed.

(** The task list reads: it leaves the world as it was. *)
Lemma get_tasks_route_world (req : request) (w : World S) :
  snd (get_tasks_route req w) = w.
Proof.
  unfold get_tasks_route, requireAuth.
  destruct (req_user req) as [user|]; [|reflexivity].
  unfold catch_500, get_tasks_body, bind at 1, storage_getTasksByUserId.
  unfold bind at 1.
  match goal with
  | |- context [map_route ?f ?l w] =>
      assert (H : snd (map_route f l w) = w);
      [ apply map_route_world; intros a w0; unfold bind, lift, ret;
        destruct (convertUtcToLocal _ _); reflexivity
      | destruct (map_route f l w) as [[rendered|] w']; cbn [snd] in H; subst w';
        reflexivity ]
  end.
Qed.

(** The extraction never touches the storage or the clock, and sends at
    most one request to the model. *)
Lemma extract_tasks_route_world (req : request) (w : World S) :
  snd (extract_tasks_route req w) = w
  \/ exists text,
       prop (req_body req) "transcript" = Returned (Some (JStr text))
       /\ text <> ""
       /\ snd (extract_tasks_route req w)
          = {| store := store w; ticks := ticks w;
               model_requests := text :: model_requests w |}.
Proof.
  unfold extract_tasks_route, requireAuth.
  destruct (req_user req) as [user|]; [|left; reflexivity].
  unfold catch_500, extract_tasks_body, bind, lift, openai_create.
  destruct (prop (req_body req) "transcript") as [transcript|]; [|left; reflexivity].
  destruct (nonempty_string transcript) eqn:Hne.
  - pose proof Hne as Hg. rewrite transcript_guard in Hg.
    apply negb_true_iff in Hg. rewrite Hg.
    destruct transcript as [[| bl | n | text | items | fields]|]; try discriminate Hne.
    right. exists text. split; [reflexivity|]. split.
    + intros ->. discriminate Hne.
    + cbn [string_content].
      destruct (chat_completions_create system_prompt text) as [content|]; [|reflexivity].
      destruct (JSON_parse _) as [result|]; [|reflexivity].
      destruct (prop result "tasks") as [tasks_field|]; [|reflexivity].
      destruct (if truthy tasks_field then tasks_field else Some (JArr []))
        as [[| bl | n | s0 | items | fields]|]; try reflexivity.
      destruct (Z.of_nat (List.length (validatedTasks items)) =? 0); reflexivity.
  - rewrite transcript_guard in Hne.
    apply negb_false_iff in Hne. rewrite Hne. left. reflexivity.
Qed.

Lemma put_task_route_world (caller : User.t) (id : Z) (body : value) (w : World S) :
  snd (put_task_route {| req_user := Some caller; req_params_id := id; req_body := body |} w)
  = match updateTaskSchema_parse body with
    | Returned updates =>
        {| store := snd (updateTask id (User.id caller) updates (store w));
           ticks := ticks w; model_requests := model_requests w |}
    | Thrown => w
    end.
Proof.
  unfold put_task_route, requireAuth, catch_500, put_task_body, bind, lift; simpl.
  destruct (updateTaskSchema_parse body) as [updates|] eqn:Hp; [|reflexivity].
  rewrite (updateTaskSchema_parse_no_date _ _ Hp).
  unfold ret, storage_updateTask.
  destruct (updateTask id (User.id caller) updates (store w)) as [[[task|]|] s'];
    reflexivity.
Qed.

Lemma delete_task_route_world (caller : User.t) (id : Z) (body : value) (w : World S) :
  snd (delete_task_route {| req_user := Some caller; req_params_id := id;
                            req_body := body |} w)
  = {| store := snd (deleteTask id (User.id caller) (store w));
       ticks := ticks w; model_requests := model_requests w |}.
Proof.
  unfold delete_task_route, requireAuth, catch_500, delete_task_body, bind,
    storage_deleteTask; simpl.
  destruct (deleteTask id (User.id caller) (store w)) as [[|] s']; reflexivity.
Qed.

End RouteWorlds.

(** ** Authentication *)

(** Requests without a session, to whichever of the five routes and with
    whatever body, are all answered 401 "Authentication required", and
    leave the world as it was: nothing stored, nothing sent to the
    model. *)
Theorem unauthenticated_requests_change_nothing {rt : Runtime} {S : Type}
  {storage : IStorage S} (requests : list (route * request)) (w : World S) :
  Forall (fun r => req_user (snd r) = None) requests ->
  serve_all requests w = (map (fun _ => unauthenticated) requests, w).
Proof.
  induction 1 as [|[r req] requests Hr _ IH]; [reflexivity|].
  rewrite serve_all_cons, (serve_unauthenticated r req w Hr). cbn [fst snd].
  rewrite IH. reflexivity.
Qed.

Section UnauthenticatedRequestsChangeNothingSample.
#[local] Existing Instance Sample.runtime.

Lemma unauthenticated_requests_change_nothing_witness :
  serve_all (rt := Sample.runtime)
    [(POST_extract_tasks, Dashboard.extract_request None "Ann books a room.");
     (DELETE_tasks_id, Dashboard.delete_request None 1);
     (PUT_tasks_id, Dashboard.toggle_request None (Sample.task_of 1 1))]
    (world_of (S := state_of Db) Sample.db)
  = ([unauthenticated; unauthenticated; unauthenticated],
     world_of (S := state_of Db) Sample.db).
Proof.
  apply (unauthenticated_requests_change_nothing (rt := Sample.runtime)
           [(POST_extract_tasks, Dashboard.extract_request None "Ann books a room.");
            (DELETE_tasks_id, Dashboard.delete_request None 1);
            (PUT_tasks_id, Dashboard.toggle_request None (Sample.task_of 1 1))]).
  repeat constructor.
Defined.

End UnauthenticatedRequestsChangeNothingSample.

(** ** Extraction *)

(** Whatever the request and whatever the model answers, the extraction
    route leaves the storage and the clock alone and sends the model at
    most one request, which is the submitted transcript. *)
Theorem extraction_touches_only_the_model {rt : Runtime} {S : Type}
  {storage : IStorage S} (req : request) (w : World S) :
  let w' := snd (extract_tasks_route req w) in
  store w' = store w
  /\ ticks w' = ticks w
  /\ (model_requests w' = model_requests w
      \/ exists text,
           prop (req_body req) "transcript" = Returned (Some (JStr text))
           /\ model_requests w' = text :: model_requests w).
Proof.
  intros w'. subst w'.
  destruct (extract_tasks_route_world req w) as [-> | (text & Hp & _ & ->)].
  - repeat split. left. reflexivity.
  - repeat split. right. exists text. split; [exact Hp | reflexivity].
Qed.

(** When the call to the model fails, or its answer is not JSON, or is
    [null], or carries under [tasks] something truthy that is not an
    array, the route answers 500 "Failed to extract tasks" and nothing
    else: no part of the answer reaches the caller. *)
Theorem extraction_upstream_failure {rt : Runtime} {S : Type} {storage : IStorage S}
  (req : request) (user : User.t) (text : string) (w : World S) :
  req_user req = Some user ->
  prop (req_body req) "transcript" = Returned (Some (JStr text)) ->
  text <> "" ->
  (chat_completions_create system_prompt text = Thrown
   \/ exists content,
        chat_completions_create system_prompt text = Returned content
        /\ (JSON_parse (string_or (match content with Some c => c | None => "" end) "{}")
            = Thrown
            \/ exists result,
                 JSON_parse (string_or (match content with Some c => c | None => "" end)
                                       "{}") = Returned result
                 /\ (prop result "tasks" = Thrown
                     \/ exists tasks_field,
                          prop result "tasks" = Returned tasks_field
                          /\ truthy tasks_field = true
                          /\ isArray tasks_field = false))) ->
  extract_tasks_route req w
  = ({| status := 500; sent := json_error "Failed to extract tasks" |},
     {| store := store w; ticks := ticks w; model_requests := text :: model_requests w |}).
Proof.
  intros Hu Hp Hne Hfail.
  unfold extract_tasks_route, requireAuth, catch_500, extract_tasks_body, bind, lift,
    openai_create.
  rewrite Hu, Hp. cbn [truthy typeof_string string_content].
  apply String.eqb_neq in Hne. rewrite Hne. cbn [negb orb].
  destruct Hfail as [-> | (content & -> & [-> | (result & -> & [-> | (tf & -> & Ht & Ha)])])];
    try reflexivity.
  rewrite Ht. destruct tf as [[| bl | n | s0 | items | fields]|]; try reflexivity.
  discriminate Ha.
Qed.

Section ExtractionUpstreamFailureSample.
#[local] Existing Instance Sample.runtime.

Lemma extraction_upstream_failure_witness :
  fst (extract_tasks_route
         (rt := {| clock := fun _ => 0; LocalTZA := fun _ _ => 0;
                   Date_new := fun _ => InvalidDate;
                   JSON_parse := fun _ => Thrown;
                   chat_completions_create := fun _ _ => Returned (Some "Sorry,");
                   pg_refuses_text := fun _ => false;
                   pg_refuses_timestamp := fun _ => false |})
         (Dashboard.extract_request (Some Sample.alice) "Ann books a room.")
         (world_of (S := state_of Db) Sample.db))
  = {| status := 500; sent := json_error "Failed to extract tasks" |}.
Proof.
  rewrite (extraction_upstream_failure
             (rt := {| clock := fun _ => 0; LocalTZA := fun _ _ => 0;
                       Date_new := fun _ => InvalidDate;
                       JSON_parse := fun _ => Thrown;
                       chat_completions_create := fun _ _ => Returned (Some "Sorry,");
                       pg_refuses_text := fun _ => false;
                       pg_refuses_timestamp := fun _ => false |})
             (Dashboard.extract_request (Some Sample.alice) "Ann books a room.")
             Sample.alice "Ann books a room."
             (world_of (S := state_of Db) Sample.db) eq_refl eq_refl).
  - reflexivity.
  - discriminate.
  - right. exists (Some "Sorry,"). split; [reflexivity|]. left. reflexivity.
Defined.

End ExtractionUpstreamFailureSample.

Lemma validatedTasks_all_refused (items : list value) :
  Forall (fun item => extractedTaskSchema_parse item = Thrown) items ->
  validatedTasks items = [].
Proof.
  induction 1 as [|item items Hi _ IH]; [reflexivity|].
  change (item :: items) with ([] ++ item :: items)%list.
  rewrite validatedTasks_around. unfold validate_extracted. rewrite Hi. exact IH.
Qed.

(** An answer of the model that is an object without [tasks] (or with a
    falsy one: [null], [false], 0, the empty string), or whose [tasks] is an
    array with no element the schema accepts, is not an error: the route
    answers 200 with no task and the message "No tasks found". *)
Theorem extraction_without_tasks {rt : Runtime} {S : Type} {storage : IStorage S}
  (req : request) (user : User.t) (text : string) (content : option string)
  (result : value) (tasks_field : option value) (w : World S) :
  req_user req = Some user ->
  prop (req_body req) "transcript" = Returned (Some (JStr text)) ->
  text <> "" ->
  chat_completions_create system_prompt text = Returned content ->
  JSON_parse (string_or (match content with Some c => c | None => "" end) "{}")
  = Returned result ->
  prop result "tasks" = Returned tasks_field ->
  (truthy tasks_field = false
   \/ exists items,
        tasks_field = Some (JArr items)
        /\ Forall (fun item => extractedTaskSchema_parse item = Thrown) items) ->
  fst (extract_tasks_route req w)
  = {| status := 200; sent := json_extracted [] (Some "No tasks found") |}.
Proof.
  intros Hu Hp Hne Hc Hj Ht Hno.
  unfold extract_tasks_route, requireAuth, catch_500, extract_tasks_body, bind, lift,
    openai_create.
  rewrite Hu, Hp. cbn [truthy typeof_string string_content].
  apply String.eqb_neq in Hne. rewrite Hne. cbn [negb orb].
  rewrite Hc, Hj, Ht.
  destruct Hno as [-> | (items & -> & Hall)].
  - reflexivity.
  - cbn [truthy]. rewrite (validatedTasks_all_refused items Hall). reflexivity.
Qed.

Section ExtractionWithoutTasksSample.
#[local] Existing Instance Sample.runtime.

(** The sample model answers [null] (no content): the route reads "{}". *)
Lemma extraction_without_tasks_witness :
  fst (extract_tasks_route
         (rt := {| clock := fun _ => 0; LocalTZA := fun _ _ => 0;
                   Date_new := fun _ => InvalidDate;
                   JSON_parse := Sample.runtime.(JSON_parse);
                   chat_completions_create := fun _ _ => Returned None;
                   pg_refuses_text := fun _ => false;
                   pg_refuses_timestamp := fun _ => false |})
         (Dashboard.extract_request (Some Sample.alice) "Nothing to do.")
         (world_of (S := state_of Db) Sample.db))
  = {| status := 200; sent := json_extracted [] (Some "No tasks found") |}.
Proof.
  apply (extraction_without_tasks
           (rt := {| clock := fun _ => 0; LocalTZA := fun _ _ => 0;
                     Date_new := fun _ => InvalidDate;
                     JSON_parse := Sample.runtime.(JSON_parse);
                     chat_completions_create := fun _ _ => Returned None;
                     pg_refuses_text := fun _ => false;
                     pg_refuses_timestamp := fun _ => false |})
           (Dashboard.extract_request (Some Sample.alice) "Nothing to do.")
           Sample.alice "Nothing to do." None (JObj []) None
           (world_of (S := state_of Db) Sample.db));
    try reflexivity.
  - discriminate.
  - left. reflexivity.
Defined.

End ExtractionWithoutTasksSample.

Lemma z_enum_priority_to_string (p : Priority) :
  z_enum_priority (Some (JStr (Priority_to_string p))) = Returned p.
Proof. destruct p; reflexivity. Qed.

Lemma extractedTaskSchema_parse_to_json (task : ExtractedTask.t) :
  extractedTaskSchema_parse (TaskReviewModal.to_json task) = Returned task.
Proof.
  destruct task as [d a dd p].
  unfold extractedTaskSchema_parse, TaskReviewModal.to_json.
  cbn [z_object_fields obind lookup_field String.eqb Ascii.eqb Bool.eqb
       ExtractedTask.task_description ExtractedTask.assignee ExtractedTask.due_date
       ExtractedTask.priority z_string z_default].
  rewrite z_enum_priority_to_string. reflexivity.
Qed.

(** Serialising and validating again is the identity: a list of validated
    tasks sent as JSON and run through the validation of the extraction
    route comes back as it was, none dropped, none duplicated, in the same
    order. *)
Theorem validated_tasks_round_trip (tasks : list ExtractedTask.t) :
  validatedTasks (map TaskReviewModal.to_json tasks) = tasks.
Proof.
  induction tasks as [|task tasks IH]; [reflexivity|].
  cbn [map]. change (TaskReviewModal.to_json task :: map TaskReviewModal.to_json tasks)
    with ([] ++ TaskReviewModal.to_json task :: map TaskReviewModal.to_json tasks)%list.
  rewrite validatedTasks_around. unfold validate_extracted.
  rewrite extractedTaskSchema_parse_to_json, IH. reflexivity.
Qed.

(** ** Bulk creation *)

Lemma Forall2_created_from_owner (user : User.t) (items : list value)
  (created : list Task.t) :
  Forall2 (created_from user) items created ->
  Forall (fun task => Task.userId task = User.id user
                      /\ isNaN_getTime (Task.dueDateUtc task) = false) created.
Proof.
  induction 1 as [|item task items created H _ IH]; constructor; [|exact IH].
  destruct H as (Hu & _ & _ & _ & _ & Hv & _). split; assumption.
Qed.

(** What the bulk-create route does to the storage, whatever the body. *)
Lemma post_tasks_route_adds {rt : Runtime} (b : backend) (req : request)
  (user : User.t) (w : World (state_of b)) :
  req_user req = Some user ->
  ids_below_next b (store w) ->
  exists created,
    all_tasks b (store (snd (post_tasks_route req w)))
    = (all_tasks b (store w) ++ created)%list
    /\ Forall (fun task => Task.userId task = User.id user
                           /\ isNaN_getTime (Task.dueDateUtc task) = false) created
    /\ ids_below_next b (store (snd (post_tasks_route req w)))
    /\ model_requests (snd (post_tasks_route req w)) = model_requests w.
Proof.
  intros Hu Hids.
  unfold post_tasks_route, requireAuth, catch_500, post_tasks_body, bind, lift.
  rewrite Hu.
  destruct (prop (req_body req) "tasks") as [tasks_field|].
  2: { exists []. rewrite app_nil_r. repeat split; [constructor | assumption]. }
  destruct (isArray tasks_field) eqn:Ha; cbn [negb].
  2: { exists []. rewrite app_nil_r. repeat split; [constructor | assumption]. }
  destruct (create_loop_spec b user (array_items tasks_field) [] w Hids)
    as (kept & new & w' & Hrun & Hall & _ & Hstore & Hids' & Hm).
  rewrite Hrun. cbn. exists new. repeat split; try assumption.
  eapply Forall2_created_from_owner, Hall.
Qed.



(** A body whose [tasks] is missing or is not an array is answered
    400 "Tasks array is required", and nothing is stored. *)
Theorem bulk_create_requires_array {rt : Runtime} {S : Type} {storage : IStorage S}
  (req : request) (user : User.t) (tasks_field : option value) (w : World S) :
  req_user req = Some user ->
  prop (req_body req) "tasks" = Returned tasks_field ->
  isArray tasks_field = false ->
  post_tasks_route req w
  = ({| status := 400; sent := json_error "Tasks array is required" |}, w).
Proof.
  intros Hu Hp Ha.
  unfold post_tasks_route, requireAuth, catch_500, post_tasks_body, bind, lift.
  rewrite Hu, Hp, Ha. reflexivity.
Qed.

Section BulkCreateRequiresArraySample.
#[local] Existing Instance Sample.runtime.

Lemma bulk_create_requires_array_witness :
  post_tasks_route (rt := Sample.runtime)
    {| req_user := Some Sample.alice; req_params_id := 0;
       req_body := JObj [("tasks", JObj [("0", TaskReviewModal.to_json
                                                 TaskReviewModal.newTask)])] |}
    (world_of (S := state_of Db) Sample.db)
  = ({| status := 400; sent := json_error "Tasks array is required" |},
     world_of (S := state_of Db) Sample.db).
Proof.
  apply (bulk_create_requires_array (rt := Sample.runtime)
           {| req_user := Some Sample.alice; req_params_id := 0;
              req_body := JObj [("tasks", JObj [("0", TaskReviewModal.to_json
                                                        TaskReviewModal.newTask)])] |}
           Sample.alice
           (Some (JObj [("0", TaskReviewModal.to_json TaskReviewModal.newTask)])));
    reflexivity.
Defined.

End BulkCreateRequiresArraySample.

(** ** Due dates stay valid, and the task list never fails *)

Lemma dates_valid_after_update {rt : Runtime} (b : backend) (id userId : Z)
  (updates : UpdateTask.t) (s : state_of b) :
  UpdateTask.dueDateUtc updates = None ->
  dates_valid b s -> dates_valid b (snd (updateTask id userId updates s)).
Proof.
  intros Hnone. unfold dates_valid. apply all_tasks_after_update.
  intros task. cbn [apply_updates Task.dueDateUtc]. now rewrite Hnone.
Qed.

Lemma dates_valid_after_delete {rt : Runtime} (b : backend) (id userId : Z)
  (s : state_of b) :
  dates_valid b s -> dates_valid b (snd (deleteTask id userId s)).
Proof. unfold dates_valid. apply all_tasks_after_delete. Qed.

(** Each route keeps the stored due dates valid and the ids below the next
    one. *)
Lemma serve_keeps_dates_valid {rt : Runtime} (b : backend) (r : route) (req : request)
  (w : World (state_of b)) :
  dates_valid b (store w) /\ ids_below_next b (store w) ->
  dates_valid b (store (snd (serve r req w)))
  /\ ids_below_next b (store (snd (serve r req w))).
Proof.
  intros [Hv Hids].
  destruct (req_user req) as [user|] eqn:Hu;
    [|rewrite (serve_unauthenticated r req w Hu); split; assumption].
  destruct r; cbn [serve].
  - destruct (extract_tasks_route_world req w) as [-> | (text & _ & _ & ->)];
      split; assumption.
  - rewrite get_tasks_route_world. split; assumption.
  - destruct (post_tasks_route_adds b req user w Hu Hids)
      as (created & Hall & Hown & Hids' & _).
    split; [|exact Hids']. unfold dates_valid. rewrite Hall.
    apply Forall_app. split; [exact Hv|].
    revert Hown. apply Forall_impl. intros t [_ H]. exact H.
  - destruct req as [u id body]. cbn [req_user] in Hu. subst u.
    rewrite put_task_route_world.
    destruct (updateTaskSchema_parse body) as [updates|] eqn:Hp; [|split; assumption].
    cbn [store]. split.
    + apply dates_valid_after_update;
        [exact (updateTaskSchema_parse_no_date _ _ Hp) | exact Hv].
    + now apply ids_below_next_after_update.
  - destruct req as [u id body]. cbn [req_user] in Hu. subst u.
    rewrite delete_task_route_world. cbn [store]. split.
    + now apply dates_valid_after_delete.
    + now apply ids_below_next_after_delete.
Qed.

Lemma serve_all_keeps_dates_valid {rt : Runtime} (b : backend)
  (requests : list (route * request)) :
  forall w : World (state_of b),
    dates_valid b (store w) /\ ids_below_next b (store w) ->
    dates_valid b (store (snd (serve_all requests w)))
    /\ ids_below_next b (store (snd (serve_all requests w))).
Proof.
  induction requests as [|[r req] requests IH]; intros w H; [exact H|].
  rewrite serve_all_cons. cbn [snd]. apply IH, serve_keeps_dates_valid, H.
Qed.

(** After any sequence of requests to the five routes, from a storage
    whose due dates are valid (the empty one, for instance), the task list
    of an authenticated user never fails: it answers 200 with exactly the
    tasks the storage lists for that user, in that order, every one of them
    owned by the user and with the ISO string of its due date. *)
Theorem task_list_after_any_requests {rt : Runtime} (b : backend)
  (requests : list (route * request)) (user : User.t) (id : Z) (body : value)
  (w : World (state_of b)) :
  dates_valid b (store w) ->
  ids_below_next b (store w) ->
  let w' := snd (serve_all requests w) in
  exists rendered,
    get_tasks_route {| req_user := Some user; req_params_id := id; req_body := body |} w'
    = ({| status := 200; sent := json_tasks_local rendered |}, w')
    /\ map fst rendered = getTasksByUserId (User.id user) (store w')
    /\ Forall (fun r => Task.userId (fst r) = User.id user
                        /\ toISOString (Task.dueDateUtc (fst r)) = Returned (snd r))
              rendered.
Proof.
  intros Hv Hids w'.
  destruct (serve_all_keeps_dates_valid b requests w (conj Hv Hids)) as [Hv' _].
  fold w' in Hv'.
  assert (Hmine : Forall (fun task => isNaN_getTime (Task.dueDateUtc task) = false)
                    (getTasksByUserId (User.id user) (store w'))).
  { rewrite getTasksByUserId_filter. apply Forall_forall. intros t Hin.
    apply filter_In in Hin as [Hin _]. revert t Hin. apply Forall_forall, Hv'. }
  destruct (map_route_rendered (string_or (User.timezone user) "UTC") _ w' Hmine)
    as (rendered & Hrun & Hall).
  exists rendered. split; [|split].
  - unfold get_tasks_route, requireAuth, catch_500, get_tasks_body.
    cbn [req_user]. unfold storage_getTasksByUserId, bind in *. rewrite Hrun. reflexivity.
  - clear Hrun. induction Hall as [|t r ts rs [Hf _] _ IH]; [reflexivity|].
    cbn [map]. rewrite Hf. f_equal. apply IH.
    inversion Hmine; assumption.
  - assert (Hown : Forall (fun task => Task.userId task = User.id user)
                     (getTasksByUserId (User.id user) (store w'))).
    { rewrite getTasksByUserId_filter. apply Forall_forall. intros t Hin.
      apply filter_In in Hin as [_ E]. now apply Z.eqb_eq in E. }
    clear Hrun Hmine. revert Hown.
    induction Hall as [|t r ts rs [Hf Hiso] _ IH]; intros Hown; constructor.
    + inversion Hown; subst. split; [assumption|]. exact Hiso.
    + apply IH. inversion Hown; assumption.
Qed.

Section TaskListAfterAnyRequestsSample.
#[local] Existing Instance Sample.runtime.

Lemma task_list_after_any_requests_witness :
  exists rendered,
    fst (get_tasks_route
           {| req_user := Some Sample.bob; req_params_id := 0; req_body := JObj [] |}
           (snd (serve_all (rt := Sample.runtime)
                   [(POST_tasks, TaskReviewModal.bulk_create_request (Some Sample.bob)
                                   [TaskReviewModal.newTask]);
                    (PUT_tasks_id, Dashboard.toggle_request (Some Sample.alice)
                                     (Sample.task_of 1 1))]
                   (world_of (S := state_of Db) Sample.db))))
    = {| status := 200; sent := json_tasks_local rendered |}
    /\ List.length rendered = 1%nat.
Proof.
  destruct (task_list_after_any_requests (rt := Sample.runtime) Db
              [(POST_tasks, TaskReviewModal.bulk_create_request (Some Sample.bob)
                              [TaskReviewModal.newTask]);
               (PUT_tasks_id, Dashboard.toggle_request (Some Sample.alice)
                                (Sample.task_of 1 1))]
              Sample.bob 0 (JObj []) (world_of (S := state_of Db) Sample.db))
    as (rendered & Hrun & Hmap & _).
  - repeat constructor.
  - repeat constructor.
  - exists rendered. rewrite Hrun. split; [reflexivity|].
    rewrite <- (length_map fst), Hmap. reflexivity.
Defined.

End TaskListAfterAnyRequestsSample.

(** ** Updates and deletes through the routes *)

Lemma updateTaskSchema_refuses_date (fields : list (string * value)) (v : value) :
  lookup_field "dueDateUtc" fields = Some v ->
  updateTaskSchema_parse (JObj fields) = Thrown.
Proof.
  intros H. unfold updateTaskSchema_parse. cbn [z_object_fields obind].
  destruct (z_optional z_string (lookup_field "description" fields)); [|reflexivity].
  destruct (z_optional z_string (lookup_field "assignee" fields)); [|reflexivity].
  cbn [obind]. rewrite H. reflexivity.
Qed.

(** A body that carries [dueDateUtc], whatever its value, is refused by
    [updateTaskSchema] (JSON has no dates): the route answers
    500 "Failed to update task" and nothing is written.  The due date of a
    stored task cannot be changed through this route. *)
Theorem put_with_due_date_is_refused {rt : Runtime} {S : Type} {storage : IStorage S}
  (user : User.t) (id : Z) (fields : list (string * value)) (v : value) (w : World S) :
  lookup_field "dueDateUtc" fields = Some v ->
  put_task_route {| req_user := Some user; req_params_id := id; req_body := JObj fields |} w
  = ({| status := 500; sent := json_error "Failed to update task" |}, w).
Proof.
  intros H. unfold put_task_route, requireAuth, catch_500, put_task_body, bind, lift.
  cbn [req_user req_body]. rewrite (updateTaskSchema_refuses_date fields v H).
  reflexivity.
Qed.

Section PutWithDueDateIsRefusedSample.
#[local] Existing Instance Sample.runtime.

Lemma put_with_due_date_is_refused_witness :
  put_task_route (rt := Sample.runtime)
    {| req_user := Some Sample.alice; req_params_id := 1;
       req_body := JObj [("dueDateUtc", JStr "2025-06-20T17:00:00.000Z")] |}
    (world_of (S := state_of Db) Sample.db)
  = ({| status := 500; sent := json_error "Failed to update task" |},
     world_of (S := state_of Db) Sample.db).
Proof.
  apply (put_with_due_date_is_refused (rt := Sample.runtime) Sample.alice 1
           [("dueDateUtc", JStr "2025-06-20T17:00:00.000Z")]
           (JStr "2025-06-20T17:00:00.000Z")).
  reflexivity.
Defined.

End PutWithDueDateIsRefusedSample.

(** The same identity, owner, creation time and due date. *)
Lemma same_identity_after_update (task : Task.t) (updates : UpdateTask.t) :
  UpdateTask.dueDateUtc updates = None ->
  same_identity task (apply_updates task updates).
Proof.
  intros H. unfold same_identity.
  cbn [apply_updates Task.id Task.userId Task.createdAt Task.dueDateUtc].
  rewrite H. repeat split.
Qed.

(** Whoever sends it and whatever its body, an update request neither adds
    nor removes a task, and changes of no stored task the id, the owner,
    the creation time or the due date: an id is in use afterwards exactly
    when it was in use before, and the task found under it afterwards has
    those four of the task that was there before. *)
Theorem put_keeps_id_owner_and_due_date {rt : Runtime} (b : backend) (req : request)
  (w : World (state_of b)) (id : Z) :
  match stored b id (store w), stored b id (store (snd (put_task_route req w))) with
  | Some task, Some task' => same_identity task task'
  | None, None => True
  | _, _ => False
  end.
Proof.
  assert (Hsame : forall s, stored b id s = stored b id (store w) ->
            match stored b id (store w), stored b id s with
            | Some task, Some task' => same_identity task task'
            | None, None => True
            | _, _ => False
            end).
  { intros s ->. destruct (stored b id (store w)); [|exact I].
    unfold same_identity. repeat split. }
  destruct req as [[user|] id0 body].
  2: { apply Hsame. reflexivity. }
  rewrite put_task_route_world.
  destruct (updateTaskSchema_parse body) as [updates|] eqn:Hp;
    [|apply Hsame; reflexivity].
  cbn [store].
  destruct (stored_after_update b id0 (User.id user) updates (store w) id)
    as [H | (_ & task & Hst & Hnew)].
  - apply Hsame, H.
  - rewrite Hst, Hnew.
    apply same_identity_after_update, (updateTaskSchema_parse_no_date _ _ Hp).
Qed.

Section PutKeepsIdOwnerAndDueDateSample.
#[local] Existing Instance Sample.runtime.

(** User 2 sends an update of task 1 of user 1 that names [userId] and
    [id]: in the database the task is completed afterwards, and still task
    1 of user 1. *)
Lemma put_keeps_id_owner_and_due_date_witness :
  let req := {| req_user := Some Sample.bob; req_params_id := 1;
                req_body := JObj [("completed", JBool true); ("userId", JStr "2");
                                  ("id", JStr "7")] |} in
  stored Db 1 (store (snd (put_task_route (rt := Sample.runtime) req
                             (world_of (S := state_of Db) Sample.db))))
  = Some Sample.completed_task
  /\ same_identity (Sample.task_of 1 1) Sample.completed_task.
Proof.
  intros req. split; [reflexivity|].
  exact (put_keeps_id_owner_and_due_date (rt := Sample.runtime) Db req
           (world_of (S := state_of Db) Sample.db) 1).
Defined.

End PutKeepsIdOwnerAndDueDateSample.

(** ** The dashboard's toggle and delete, the edit modal's save *)

Lemma toggle_body_parse (c : bool) :
  updateTaskSchema_parse (JObj [("completed", JBool c)]) = Returned (completed_updates c).
Proof. reflexivity. Qed.

(** The owner's PUT with a body that parses to updates that the storage
    takes: the response and the stored task. *)
Lemma put_by_owner {rt : Runtime} (b : backend) (user : User.t) (id : Z) (body : value)
  (updates : UpdateTask.t) (task : Task.t) (w : World (state_of b)) :
  stored b id (store w) = Some task ->
  Task.userId task = User.id user ->
  updateTaskSchema_parse body = Returned updates ->
  storage_refuses_update b updates = false ->
  let r := put_task_route {| req_user := Some user; req_params_id := id;
                             req_body := body |} w in
  fst r = {| status := 200; sent := json_task (apply_updates task updates) |}
  /\ stored b id (store (snd r)) = Some (apply_updates task updates)
  /\ ticks (snd r) = ticks w
  /\ model_requests (snd r) = model_requests w.
Proof.
  intros Hst Hown Hp Er r. subst r.
  rewrite put_task_route_response, put_task_route_world, Hp. rewrite <- Hown.
  destruct (owner_update_result b id updates (store w) task Hst Er) as [-> Hnew].
  cbn [store ticks model_requests]. repeat split. exact Hnew.
Qed.

(** A PUT with a body that parses to updates that the storage refuses:
    500, and the world stays as it was. *)
Lemma put_refused {rt : Runtime} (b : backend) (user : User.t) (id : Z) (body : value)
  (updates : UpdateTask.t) (w : World (state_of b)) :
  updateTaskSchema_parse body = Returned updates ->
  storage_refuses_update b updates = true ->
  put_task_route {| req_user := Some user; req_params_id := id; req_body := body |} w
  = ({| status := 500; sent := json_error "Failed to update task" |}, w).
Proof.
  intros Hp Er. apply injective_projections.
  - rewrite put_task_route_response, Hp.
    rewrite (updateTask_refused b (store w) id (User.id user) updates Er). reflexivity.
  - rewrite put_task_route_world, Hp.
    rewrite (updateTask_refused b (store w) id (User.id user) updates Er).
    destruct w. reflexivity.
Qed.

Lemma completed_updates_taken {rt : Runtime} (b : backend) (c : bool) :
  storage_refuses_update b (completed_updates c) = false.
Proof. destruct b; reflexivity. Qed.

(** The dashboard's toggle, sent by the owner for a task as it is stored:
    the route answers 200 with the task's [completed] negated and nothing
    else changed, and stores it; toggling the task that came back gives
    the first task again. *)
Theorem toggle_twice_restores {rt : Runtime} (b : backend) (user : User.t)
  (task : Task.t) (c : bool) (w : World (state_of b)) :
  stored b (Task.id task) (store w) = Some task ->
  Task.userId task = User.id user ->
  Task.completed task = Some c ->
  let toggled := apply_updates task (completed_updates (negb c)) in
  let r1 := put_task_route (Dashboard.toggle_request (Some user) task) w in
  let r2 := put_task_route (Dashboard.toggle_request (Some user) toggled) (snd r1) in
  fst r1 = {| status := 200; sent := json_task toggled |}
  /\ stored b (Task.id task) (store (snd r1)) = Some toggled
  /\ fst r2 = {| status := 200; sent := json_task task |}
  /\ stored b (Task.id task) (store (snd r2)) = Some task.
Proof.
  intros Hst Hown Hc toggled r1 r2.
  assert (Hn : Dashboard.not_completed task = negb c)
    by (unfold Dashboard.not_completed; now rewrite Hc).
  destruct (put_by_owner b user (Task.id task) (JObj [("completed", JBool (negb c))])
              (completed_updates (negb c)) task w Hst Hown (toggle_body_parse _)
              (completed_updates_taken b _))
    as (H1 & H1' & _).
  assert (E1 : r1 = put_task_route {| req_user := Some user; req_params_id := Task.id task;
                                      req_body := JObj [("completed", JBool (negb c))] |} w)
    by (subst r1; unfold Dashboard.toggle_request; now rewrite Hn).
  rewrite <- E1 in H1, H1'.
  assert (Hback : apply_updates toggled (completed_updates c) = task).
  { subst toggled. destruct task. cbn in Hc. subst. reflexivity. }
  assert (Hn2 : Dashboard.not_completed toggled = c)
    by (subst toggled; unfold Dashboard.not_completed; cbn; apply negb_involutive).
  destruct (put_by_owner b user (Task.id task) (JObj [("completed", JBool c)])
              (completed_updates c) toggled (snd r1) H1' Hown (toggle_body_parse _)
              (completed_updates_taken b _))
    as (H2 & H2' & _).
  assert (E2 : r2 = put_task_route {| req_user := Some user; req_params_id := Task.id task;
                                      req_body := JObj [("completed", JBool c)] |} (snd r1))
    by (subst r2; unfold Dashboard.toggle_request; now rewrite Hn2).
  rewrite <- E2, Hback in H2, H2'.
  repeat split; assumption.
Qed.

Lemma toggle_twice_restores_witness :
  fst (put_task_route (rt := Sample.runtime)
         (Dashboard.toggle_request (Some Sample.alice) (Sample.task_of 1 1))
         (world_of (S := state_of Mem) Sample.two_owners))
  = {| status := 200; sent := json_task Sample.completed_task |}.
Proof.
  destruct (toggle_twice_restores (rt := Sample.runtime) Mem Sample.alice
              (Sample.task_of 1 1) false
              (world_of (S := state_of Mem) Sample.two_owners)
              eq_refl eq_refl eq_refl) as (H & _).
  exact H.
Defined.

Lemma save_body_parse (session : option User.t) (task : Task.t)
  (form : TaskEditModal.formData) :
  updateTaskSchema_parse (req_body (TaskEditModal.save_request session task form))
  = Returned (saved_updates form).
Proof.
  unfold TaskEditModal.save_request, saved_updates. cbn [req_body].
  destruct (TaskEditModal.priority form); reflexivity.
Qed.

(** Saving the edit modal with a description that is not blank sends one
    update request.  Sent by the owner with texts that the storage takes
    ([MemStorage] takes every text), it replaces the stored task's
    description and assignee (and its priority, when the form has one) and
    leaves its due date, its due-date text and its completion as they
    were, whatever was typed in the form's due-date field.  With a text
    that the storage refuses the request is answered
    500 "Failed to update task" and nothing changes. *)
Theorem edit_save_keeps_due_date {rt : Runtime} (trim : string -> string) (b : backend)
  (user : User.t) (task current : Task.t) (form : TaskEditModal.formData)
  (w : World (state_of b)) :
  stored b (Task.id task) (store w) = Some current ->
  Task.userId current = User.id user ->
  trim (TaskEditModal.description form) <> "" ->
  let req := TaskEditModal.save_request (Some user) task form in
  TaskEditModal.handleSave trim (Some user) task form = [TaskEditModal.mutate req]
  /\ if storage_refuses_update b (saved_updates form)
     then put_task_route req w
          = ({| status := 500; sent := json_error "Failed to update task" |}, w)
     else exists saved,
       fst (put_task_route req w) = {| status := 200; sent := json_task saved |}
       /\ stored b (Task.id task) (store (snd (put_task_route req w))) = Some saved
       /\ Task.description saved = TaskEditModal.description form
       /\ Task.assignee saved = TaskEditModal.assignee form
       /\ Task.priority saved
          = match TaskEditModal.priority form with
            | Some p => Some p
            | None => Task.priority current
            end
       /\ Task.dueDateUtc saved = Task.dueDateUtc current
       /\ Task.dueDateOriginal saved = Task.dueDateOriginal current
       /\ Task.completed saved = Task.completed current.
Proof.
  intros Hst Hown Htrim req. subst req. split.
  - unfold TaskEditModal.handleSave. apply String.eqb_neq in Htrim. now rewrite Htrim.
  - destruct (storage_refuses_update b (saved_updates form)) eqn:Er.
    + apply (put_refused b user (Task.id task)
               (req_body (TaskEditModal.save_request (Some user) task form))
               (saved_updates form) w (save_body_parse _ _ _) Er).
    + destruct (put_by_owner b user (Task.id task)
                  (req_body (TaskEditModal.save_request (Some user) task form))
                  (saved_updates form) current w Hst Hown (save_body_parse _ _ _) Er)
        as (H1 & H2 & _).
      exists (apply_updates current (saved_updates form)).
      split; [exact H1|]. split; [exact H2|]. repeat split.
Qed.

Section EditSaveKeepsDueDateSample.
#[local] Existing Instance Sample.runtime.

Lemma edit_save_keeps_due_date_witness :
  exists saved,
    fst (put_task_route (rt := Sample.runtime)
           (TaskEditModal.save_request (Some Sample.alice) (Sample.task_of 1 1)
              (TaskEditModal.updateFormData TaskEditModal.field_dueDateLocal
                 "Tomorrow at 5pm"
                 (TaskEditModal.load (Sample.task_of 1 1, "2025-06-20T17:00:00.000Z"))))
           (world_of (S := state_of Db) Sample.db))
    = {| status := 200; sent := json_task saved |}
    /\ Task.dueDateUtc saved = DateOf 1750438800000
    /\ Task.dueDateOriginal saved = "Friday".
Proof.
  destruct (edit_save_keeps_due_date (rt := Sample.runtime) (fun s => s) Db Sample.alice
              (Sample.task_of 1 1) (Sample.task_of 1 1)
              (TaskEditModal.updateFormData TaskEditModal.field_dueDateLocal
                 "Tomorrow at 5pm"
                 (TaskEditModal.load (Sample.task_of 1 1, "2025-06-20T17:00:00.000Z")))
              (world_of (S := state_of Db) Sample.db) eq_refl eq_refl)
    as (_ & H).
  - discriminate.
  - destruct H as (saved & H1 & _ & _ & _ & _ & Hd & Ho & _).
    exists saved. split; [exact H1|]. split; [exact Hd | exact Ho].
Defined.

(** The edit modal's save with a NUL character in the description: the
    database refuses the update and the route answers 500. *)
Example edit_save_text_the_database_refuses :
  fst (put_task_route (rt := Sample.runtime)
         (TaskEditModal.save_request (Some Sample.alice) (Sample.task_of 1 1)
            (TaskEditModal.updateFormData TaskEditModal.field_description
               (String Ascii.zero "x")
               (TaskEditModal.load (Sample.task_of 1 1, "2025-06-20T17:00:00.000Z"))))
         (world_of (S := state_of Db) Sample.db))
  = {| status := 500; sent := json_error "Failed to update task" |}.
Proof. reflexivity. Qed.

End EditSaveKeepsDueDateSample.

(** The dashboard's delete, sent by the owner: 204 and the task is gone,
    every other task is as it was; the same request again is answered
    404 "Task not found". *)
Theorem delete_then_delete_again {rt : Runtime} (b : backend) (user : User.t)
  (id : Z) (task : Task.t) (w : World (state_of b)) :
  NoDup (ids_of b (store w)) ->
  stored b id (store w) = Some task ->
  Task.userId task = User.id user ->
  let req := Dashboard.delete_request (Some user) id in
  let r1 := delete_task_route req w in
  let r2 := delete_task_route req (snd r1) in
  fst r1 = {| status := 204; sent := no_body |}
  /\ stored b id (store (snd r1)) = None
  /\ (forall id', id' <> id -> stored b id' (store (snd r1)) = stored b id' (store w))
  /\ fst r2 = {| status := 404; sent := json_error "Task not found" |}.
Proof.
  intros Hnd Hst Hown req r1 r2. subst req r1 r2. unfold Dashboard.delete_request.
  rewrite !delete_task_route_response, !delete_task_route_world. cbn [store].
  rewrite <- Hown.
  destruct (owner_delete_result b id (store w) task Hnd Hst) as [-> Hgone].
  split; [reflexivity|]. split; [exact Hgone|]. split.
  - intros id' Hne.
    destruct (stored_after_delete b id (Task.userId task) (store w) id' Hnd)
      as [H | [E _]]; [exact H | contradiction].
  - destruct (missing_answer b _ id (Task.userId task) (completed_updates true) Hgone)
      as [_ ->].
    reflexivity.
Qed.

Lemma delete_then_delete_again_witness :
  fst (delete_task_route (Dashboard.delete_request (Some Sample.alice) 1)
         (snd (delete_task_route
                 (Dashboard.delete_request (Some Sample.alice) 1)
                 (world_of (S := state_of Mem) Sample.two_owners))))
  = {| status := 404; sent := json_error "Task not found" |}.
Proof.
  destruct (delete_then_delete_again (rt := Sample.runtime) Mem Sample.alice 1
              (Sample.task_of 1 1) (world_of (S := state_of Mem) Sample.two_owners))
    as (_ & _ & _ & H).
  - repeat constructor; cbn; intuition discriminate.
  - reflexivity.
  - reflexivity.
  - exact H.
Defined.

(** ** Editing a card of the review modal *)

Lemma assign_at_spec (task : ExtractedTask.t) (tasks : list ExtractedTask.t) :
  forall index,
    (index < List.length tasks)%nat ->
    List.length (TaskReviewModalEdit.assign_at index task tasks) = List.length tasks
    /\ nth_error (TaskReviewModalEdit.assign_at index task tasks) index = Some task
    /\ (forall j, j <> index ->
          nth_error (TaskReviewModalEdit.assign_at index task tasks) j = nth_error tasks j)
    /\ firstn index (TaskReviewModalEdit.assign_at index task tasks) = firstn index tasks
    /\ skipn (Datatypes.S index) (TaskReviewModalEdit.assign_at index task tasks)
       = skipn (Datatypes.S index) tasks.
Proof.
  induction tasks as [|t tasks IH]; intros index Hlt; [cbn in Hlt; lia|].
  destruct index as [|index].
  - cbn. repeat split. intros [|j] Hj; [congruence | reflexivity].
  - cbn [List.length] in Hlt.
    destruct (IH index) as (Hlen & Hnth & Hother & Hfirst & Hskip); [lia|].
    cbn [TaskReviewModalEdit.assign_at List.length nth_error firstn].
    rewrite Hlen, Hfirst. repeat split; try assumption.
    intros [|j] Hj; [reflexivity|]. cbn [nth_error]. apply Hother. congruence.
Qed.

Lemma removeTask_firstn_skipn (index : nat) (tasks : list ExtractedTask.t) :
  TaskReviewModal.removeTask index tasks
  = (firstn index tasks ++ skipn (Datatypes.S index) tasks)%list.
Proof.
  unfold TaskReviewModal.removeTask.
  pose proof (filter_indexed_remove tasks 0 index) as H. cbn [Nat.add] in H. exact H.
Qed.

(** Editing a field of the card at [index] keeps the number of cards,
    changes that one field of that one card and nothing else, and is
    forgotten when the card is removed: removing the edited card leaves
    the working set that removing the original card leaves. *)
Theorem review_edit_changes_one_card (index : nat) (e : TaskReviewModalEdit.edit)
  (tasks : list ExtractedTask.t) :
  (index < List.length tasks)%nat ->
  exists task tasks',
    nth_error tasks index = Some task
    /\ TaskReviewModalEdit.updateTask index e tasks = Some tasks'
    /\ List.length tasks' = List.length tasks
    /\ nth_error tasks' index = Some (TaskReviewModalEdit.set_field task e)
    /\ (forall j, j <> index -> nth_error tasks' j = nth_error tasks j)
    /\ TaskReviewModal.removeTask index tasks' = TaskReviewModal.removeTask index tasks.
Proof.
  intros Hlt.
  destruct (nth_error tasks index) as [task|] eqn:E;
    [|apply nth_error_None in E; lia].
  exists task, (TaskReviewModalEdit.assign_at index (TaskReviewModalEdit.set_field task e) tasks).
  destruct (assign_at_spec (TaskReviewModalEdit.set_field task e) tasks index Hlt)
    as (Hlen & Hnth & Hother & Hfirst & Hskip).
  split; [reflexivity|]. split.
  - unfold TaskReviewModalEdit.updateTask. now rewrite E.
  - repeat split; try assumption.
    rewrite !removeTask_firstn_skipn, Hfirst, Hskip. reflexivity.
Qed.

Lemma review_edit_changes_one_card_witness :
  exists tasks',
    TaskReviewModalEdit.updateTask 1 (TaskReviewModalEdit.priority P1)
      [TaskReviewModal.newTask; TaskReviewModal.newTask] = Some tasks'
    /\ List.length tasks' = 2%nat
    /\ nth_error tasks' 0 = Some TaskReviewModal.newTask
    /\ nth_error tasks' 1
       = Some {| ExtractedTask.task_description := ""; ExtractedTask.assignee := "";
                 ExtractedTask.due_date := ""; ExtractedTask.priority := P1 |}.
Proof.
  destruct (review_edit_changes_one_card 1 (TaskReviewModalEdit.priority P1)
              [TaskReviewModal.newTask; TaskReviewModal.newTask])
    as (task & tasks' & Ht & H & Hlen & Hnth & Hother & _).
  - cbn. lia.
  - injection Ht as <-. exists tasks'. split; [exact H|]. split; [exact Hlen|].
    split; [apply (Hother 0%nat); discriminate | exact Hnth].
Defined.

(** ** The extraction, when the model answers with tasks *)

Lemma extract_tasks_route_validated_witness :
  extract_tasks_route (rt := Sample.runtime)
    (Dashboard.extract_request (Some Sample.alice)
       "John will update the database schema by Friday.")
    (world_of (S := state_of Mem) MemStorage.new)
  = ({| status := 200;
        sent := json_extracted
                  [{| ExtractedTask.task_description := "update the database schema";
                      ExtractedTask.assignee := "John";
                      ExtractedTask.due_date := "Friday";
                      ExtractedTask.priority := P3 |}] None |},
     {| store := MemStorage.new; ticks := 0;
        model_requests := ["John will update the database schema by Friday."] |}).
Proof.
  rewrite (extract_tasks_route_validated (rt := Sample.runtime)
             (Dashboard.extract_request (Some Sample.alice)
                "John will update the database schema by Friday.")
             Sample.alice "John will update the database schema by Friday."
             Sample.answer_text Sample.answer_value
             [JObj [("task_description", JStr "update the database schema");
                    ("assignee", JStr "John"); ("due_date", JStr "Friday")]]
             (world_of (S := state_of Mem) MemStorage.new)
             eq_refl eq_refl).
  - reflexivity.
  - discriminate.
  - reflexivity.
  - reflexivity.
  - reflexivity.
Defined.
